(** * DTVM EVM interpreter: opcode handlers (src/evm/opcode_handlers.cpp)

    A shallow embedding of the gas utilities and of the opcode handlers of
    the interpreter, followed by the properties of the handler layer.

    Conventions.  Machine integers are values of [Z]; every conversion and
    every operation that can wrap is written with its modulus ([u64], [i64],
    [u32], [u256]).  The evaluation stack is a list whose head is the top.
    Memory, code and call data are lists of bytes (values in [0, 256)).
    A handler is a computation over the interpreter context which either
    falls through, leaves by [return], or throws an error code. *)

From Stdlib Require Import ZArith List Lia Bool.
Import ListNotations.
Local Open Scope Z_scope.

(** ** Machine integers *)

Definition UINT64_MAX : Z := 2 ^ 64 - 1.

(** [static_cast<uint64_t>] *)
Definition u64 (x : Z) : Z := x mod 2 ^ 64.
(** [static_cast<uint32_t>] *)
Definition u32 (x : Z) : Z := x mod 2 ^ 32.
(** [static_cast<int64_t>]: two's complement *)
Definition i64 (x : Z) : Z := (x + 2 ^ 63) mod 2 ^ 64 - 2 ^ 63.
(** arithmetic of [intx::uint256] *)
Definition u256 (x : Z) : Z := x mod 2 ^ 256.

(** [uint256ToUint64]: [Value & 0xFFFFFFFFFFFFFFFF] *)
Definition uint256ToUint64 (Value : Z) : Z := Z.land Value 18446744073709551615.

(** [~x] on [intx::uint256] *)
Definition not256 (x : Z) : Z := u256 (Z.lnot x).

(** the signed reading of a 256-bit word (two's complement) *)
Definition int256 (x : Z) : Z := if x <? 2 ^ 255 then x else x - 2 ^ 256.

(** [intx::be::trunc<evmc::address>]: the low 20 bytes *)
Definition trunc_address (x : Z) : Z := x mod 2 ^ 160.

(** ** Bytes and buffers *)

Definition nat_of (x : Z) : nat := Z.to_nat x.
Definition size {A} (l : list A) : Z := Z.of_nat (length l).

(** [Size] bytes of [Buf] starting at [Off] *)
Definition slice (Buf : list Z) (Off Size : Z) : list Z :=
  firstn (nat_of Size) (skipn (nat_of Off) Buf).

(** [std::memcpy(Buf + Off, Data, |Data|)] on a buffer that holds the range *)
Definition memcpy (Buf : list Z) (Off : Z) (Data : list Z) : list Z :=
  firstn (nat_of Off) Buf ++ Data ++ skipn (nat_of Off + length Data) Buf.

(** [std::memset(Buf + Off, 0, Size)] *)
Definition memset0 (Buf : list Z) (Off Size : Z) : list Z :=
  memcpy Buf Off (repeat 0 (nat_of Size)).

(** [std::vector::resize(NewSize, 0)] *)
Definition resize (Buf : list Z) (NewSize : Z) : list Z :=
  firstn (nat_of NewSize) Buf ++ repeat 0 (nat_of NewSize - length Buf).

(** [intx::be::load<uint256>]: big-endian bytes to a number *)
Definition be_load (Bytes : list Z) : Z :=
  fold_left (fun acc b => acc * 256 + b) Bytes 0.

(** [intx::be::store]: the 32 big-endian bytes of a 256-bit value *)
Definition be_store (V : Z) : list Z :=
  map (fun i => (V / 2 ^ (8 * (31 - Z.of_nat i))) mod 256) (seq 0 32).

(** [Size] bytes of [Src] from [Offset] on, with zeros where [Src] ends *)
Definition zero_padded (Src : list Z) (Offset Size : Z) : list Z :=
  firstn (nat_of Size) (skipn (nat_of Offset) Src ++ repeat 0 (nat_of Size)).

(** ** Opcodes, revisions, status codes (evmc) *)

Definition OP_EXP : Z := 10.
Definition OP_POP : Z := 80.
Definition OP_JUMPDEST : Z := 91.
Definition OP_PUSH1 : Z := 96.
Definition OP_DUP1 : Z := 128.
Definition OP_SWAP1 : Z := 144.
Definition OP_LOG0 : Z := 160.
Definition OP_CREATE : Z := 240.
Definition OP_CALL : Z := 241.
Definition OP_CALLCODE : Z := 242.
Definition OP_DELEGATECALL : Z := 244.
Definition OP_CREATE2 : Z := 245.
Definition OP_STATICCALL : Z := 250.

Inductive evmc_revision :=
| EVMC_FRONTIER | EVMC_HOMESTEAD | EVMC_TANGERINE_WHISTLE | EVMC_SPURIOUS_DRAGON
| EVMC_BYZANTIUM | EVMC_CONSTANTINOPLE | EVMC_PETERSBURG | EVMC_ISTANBUL
| EVMC_BERLIN | EVMC_LONDON | EVMC_PARIS | EVMC_SHANGHAI | EVMC_CANCUN.

Definition rev_rank (r : evmc_revision) : Z :=
  match r with
  | EVMC_FRONTIER => 0 | EVMC_HOMESTEAD => 1 | EVMC_TANGERINE_WHISTLE => 2
  | EVMC_SPURIOUS_DRAGON => 3 | EVMC_BYZANTIUM => 4 | EVMC_CONSTANTINOPLE => 5
  | EVMC_PETERSBURG => 6 | EVMC_ISTANBUL => 7 | EVMC_BERLIN => 8
  | EVMC_LONDON => 9 | EVMC_PARIS => 10 | EVMC_SHANGHAI => 11 | EVMC_CANCUN => 12
  end.

(** [Rev >= R] on the revision enum *)
Definition rev_ge (Rev R : evmc_revision) : bool := rev_rank R <=? rev_rank Rev.

Inductive evmc_status_code :=
| EVMC_SUCCESS | EVMC_FAILURE | EVMC_REVERT | EVMC_OUT_OF_GAS
| EVMC_INVALID_INSTRUCTION | EVMC_UNDEFINED_INSTRUCTION | EVMC_STACK_OVERFLOW
| EVMC_STACK_UNDERFLOW | EVMC_BAD_JUMP_DESTINATION | EVMC_INVALID_MEMORY_ACCESS
| EVMC_CALL_DEPTH_EXCEEDED | EVMC_STATIC_MODE_VIOLATION
| EVMC_PRECOMPILE_FAILURE | EVMC_INSUFFICIENT_BALANCE.

Definition is_success (s : evmc_status_code) : bool :=
  match s with EVMC_SUCCESS => true | _ => false end.

Inductive evmc_access_status := EVMC_ACCESS_COLD | EVMC_ACCESS_WARM.

Definition is_cold (a : evmc_access_status) : bool :=
  match a with EVMC_ACCESS_COLD => true | EVMC_ACCESS_WARM => false end.

(** The error codes the handlers throw ([common::ErrorCode]).  The first six
    are named by this file's [EVM_REQUIRE] and [throw] sites.  The stack
    underflow of [EVM_STACK_CHECK] is thrown as [UnexpectedNumArgs], the code
    DUP and SWAP name for the same condition.  [EVMStackOverflow] and
    [EVMNoFrame] stand for what [EVMFrame::push] on a full stack and
    [EVM_FRAME_CHECK] on a missing frame raise; both are declared outside
    this file.  [EVMBadJumpDestination] is the error of JUMP and JUMPI. *)
Inductive ErrorCode :=
| EVMTooLargeRequiredMemory | IntegerOverflow | EVMInvalidInstruction
| UnexpectedEnd | UnexpectedNumArgs | EVMStaticModeViolation
| EVMStackOverflow | EVMNoFrame | EVMBadJumpDestination.

(** ** Gas constants

    Modelled from the spec: the constants are declared in headers that are
    not part of this file; the values are those of the spec's gas tables
    (section 3) and resource bounds (sections 4.3 and 5). *)
Definition WORD_COPY_COST : Z := 3.
Definition COLD_ACCOUNT_ACCESS_COST : Z := 2600.
Definition WARM_ACCOUNT_ACCESS_COST : Z := 100.
Definition ADDITIONAL_COLD_ACCOUNT_ACCESS_COST : Z := 2500.
Definition CALL_VALUE_COST : Z := 9000.
Definition CALL_GAS_STIPEND : Z := 2300.
Definition ACCOUNT_CREATION_COST : Z := 25000.
Definition MAX_SIZE_OF_INITCODE : Z := 49152.
(** [MAXSTACK] bounds the stack height and, in CREATE and CALL, the depth. *)
Definition MAXSTACK : Z := 1024.
Definition EVMC_STATIC : Z := 1.

(** ** Messages, results, frames, context *)

Record evmc_message := mkMsg {
  kind : Z;
  flags : Z;
  depth : Z;
  gas : Z;
  recipient : Z;
  sender : Z;
  input_data : list Z;
  input_size : Z;
  value : Z;
  create2_salt : Z;
  code_address : Z
}.

Record evmc_result := mkResult {
  status_code : evmc_status_code;
  gas_left : Z;
  gas_refund : Z;
  output_data : list Z;
  create_address : Z
}.

Definition output_size (r : evmc_result) : Z := size (output_data r).

Record EVMFrame := mkFrame {
  Stack : list Z;
  Memory : list Z;
  Pc : Z;
  Msg : evmc_message;
  GasRefund : Z;
  Rev : evmc_revision
}.

Definition set_gas (g : Z) (m : evmc_message) : evmc_message :=
  mkMsg (kind m) (flags m) (depth m) g (recipient m) (sender m)
        (input_data m) (input_size m) (value m) (create2_salt m) (code_address m).

Definition set_Stack (s : list Z) (f : EVMFrame) : EVMFrame :=
  mkFrame s (Memory f) (Pc f) (Msg f) (GasRefund f) (Rev f).
Definition set_Memory (m : list Z) (f : EVMFrame) : EVMFrame :=
  mkFrame (Stack f) m (Pc f) (Msg f) (GasRefund f) (Rev f).
Definition set_Pc (p : Z) (f : EVMFrame) : EVMFrame :=
  mkFrame (Stack f) (Memory f) p (Msg f) (GasRefund f) (Rev f).
Definition set_Msg_gas (g : Z) (f : EVMFrame) : EVMFrame :=
  mkFrame (Stack f) (Memory f) (Pc f) (set_gas g (Msg f)) (GasRefund f) (Rev f).
Definition set_GasRefund (r : Z) (f : EVMFrame) : EVMFrame :=
  mkFrame (Stack f) (Memory f) (Pc f) (Msg f) r (Rev f).

(** Modelled from the spec: [EVMFrame::isStaticMode] is declared outside this
    file; section 3 has the message flags include the STATIC bit. *)
Definition isStaticMode (f : EVMFrame) : bool :=
  negb (Z.land (flags (Msg f)) EVMC_STATIC =? 0).

Definition stackHeight (f : EVMFrame) : Z := size (Stack f).

(** ** The Host (evmc::HostInterface)

    The Host is external: its state is abstract and its operations are the
    fields of a record.  The [const] queries read the state, the others
    return the state they leave. *)
Record HostInterface (HostState : Type) := mkHost {
  account_exists : HostState -> Z -> bool;
  get_balance : HostState -> Z -> Z;
  get_code_size : HostState -> Z -> Z;
  copy_code : HostState -> Z -> Z -> Z -> list Z;
  access_account : Z -> HostState -> evmc_access_status * HostState;
  call : evmc_message -> HostState -> evmc_result * HostState;
  emit_log : Z -> list Z -> Z -> list Z -> HostState -> HostState
}.

Arguments mkHost {HostState}.
Arguments account_exists {HostState}.
Arguments get_balance {HostState}.
Arguments get_code_size {HostState}.
Arguments copy_code {HostState}.
Arguments access_account {HostState}.
Arguments call {HostState}.
Arguments emit_log {HostState}.

(** The interpreter context: the call chain (current frame first), the last
    return data, the status, the jump flag, the module's code and the Host's
    state.  [HostCalls] is a ghost field: the messages handed to [Host->call]
    so far, latest first. *)
Record InterpreterExecContext (HostState : Type) := mkCtx {
  Frames : list EVMFrame;
  ReturnData : list Z;
  Status : evmc_status_code;
  IsJump : bool;
  Code : list Z;
  HostSt : HostState;
  HostCalls : list evmc_message
}.

Arguments mkCtx {HostState}.
Arguments Frames {HostState}.
Arguments ReturnData {HostState}.
Arguments Status {HostState}.
Arguments IsJump {HostState}.
Arguments Code {HostState}.
Arguments HostSt {HostState}.
Arguments HostCalls {HostState}.

(** ** Handler computations *)

Inductive Outcome (C A : Type) :=
| Next (a : A) (c : C)
| Returned (c : C)
| Thrown (e : ErrorCode) (c : C).

Arguments Next {C A}.
Arguments Returned {C A}.
Arguments Thrown {C A}.

(** What the dispatcher sees of a handler: it completed, or it threw. *)
Inductive Completion (C : Type) :=
| Done (c : C)
| Raised (e : ErrorCode) (c : C).

Arguments Done {C}.
Arguments Raised {C}.

Definition M (C A : Type) : Type := C -> Outcome C A.

Definition ret {C A} (a : A) : M C A := fun c => Next a c.

Definition bind {C A B} (m : M C A) (k : A -> M C B) : M C B :=
  fun c => match m c with
           | Next a c' => k a c'
           | Returned c' => Returned c'
           | Thrown e c' => Thrown e c'
           end.

(** [return;] *)
Definition Return {C A} : M C A := fun c => Returned c.

(** [throw common::getError(e)] *)
Definition throw {C A} (e : ErrorCode) : M C A := fun c => Thrown e c.

Definition run {C} (m : M C unit) (c : C) : Completion C :=
  match m c with
  | Next _ c' => Done c'
  | Returned c' => Done c'
  | Thrown e c' => Raised e c'
  end.

(** [m] throws nothing but errors of [Allowed], from whatever context. *)
Definition throws_only {C A} (Allowed : ErrorCode -> Prop) (m : M C A) : Prop :=
  forall c e c', m c = Thrown e c' -> Allowed e.

Declare Scope handler_scope.
Delimit Scope handler_scope with handler.
Notation "x <- m ;; k" := (bind m (fun x => k))
  (at level 61, m at next level, right associativity) : handler_scope.
Notation "m ;; k" := (bind m (fun _ => k))
  (at level 61, right associativity) : handler_scope.
Local Open Scope handler_scope.

(** Modelled from the spec: the macro [EVM_REQUIRE(Cond, Err)] is defined
    outside this file; section 7 has a failed requirement end the handler
    with the named error. *)
Definition EVM_REQUIRE {C} (Cond : bool) (Err : ErrorCode) : M C unit :=
  if Cond then ret tt else throw Err.

(** ** Memory expansion cost (pure) *)

(** The lambda [MemoryCost]: the product is formed in [__int128] and the sum
    is cast to [uint64_t]. *)
Definition MemoryCost (Words : Z) : Z := u64 (Words * Words / 512 + 3 * Words).

Definition calculateMemoryExpansionCost (CurrentSize NewSize : Z) : Z :=
  if NewSize <=? CurrentSize then 0
  else
    let CurrentWords := u64 (CurrentSize + 31) / 32 in
    let NewWords := u64 (NewSize + 31) / 32 in
    let CurrentCost := MemoryCost CurrentWords in
    let NewCost := MemoryCost NewWords in
    u64 (NewCost - CurrentCost).

(** [numWords]: a [uint64_t] quotient cast to [int64_t] *)
Definition numWords (Size : Z) : Z := i64 (u64 (Size + 31) / 32).

(** The formula of the spec, over the integers: [words n] is the number of
    32-byte words that hold [n] bytes, [C w] the cost of [w] words. *)
Definition words (n : Z) : Z := (n + 31) / 32.
Definition C_mem (w : Z) : Z := w * w / 512 + 3 * w.
Definition expansion_cost_spec (c n : Z) : Z :=
  if n <=? c then 0 else C_mem (words n) - C_mem (words c).

(** ** The handlers *)

Section Handlers.

Context {HostState : Type}.
Variable Host : HostInterface HostState.

(** The bound of [expandMemoryAndChargeGas] (the spec's [MAX_MEMORY_SIZE]),
    the Keccak-256 primitive, and evmc's table of instruction metrics with
    the revision it is read at are declared outside this file. *)
Variable MAX_REQUIRED_MEMORY_SIZE : Z.
Variable keccak256 : list Z -> list Z.
Variable evmc_get_instruction_metrics_table : evmc_revision -> Z -> Z.
Variable DEFAULT_REVISION : evmc_revision.

Local Abbreviation Ctx := (InterpreterExecContext HostState).
Local Abbreviation H := (M (InterpreterExecContext HostState)).

(** *** Context and frame access *)

Definition set_Frames (fs : list EVMFrame) (c : Ctx) : Ctx :=
  mkCtx fs (ReturnData c) (Status c) (IsJump c) (Code c) (HostSt c) (HostCalls c).

Definition getContext : H Ctx := fun c => Next c c.

(** Modelled from the spec: the context's methods are declared outside this
    file; section 6.2 lists [set_return_data], [set_status], [current_frame]
    and [pop_frame]. *)
Definition setReturnData (d : list Z) : H unit :=
  fun c => Next tt (mkCtx (Frames c) d (Status c) (IsJump c) (Code c)
                          (HostSt c) (HostCalls c)).

(** [Context->setStatus] *)
Definition setStatus (s : evmc_status_code) : H unit :=
  fun c => Next tt (mkCtx (Frames c) (ReturnData c) s (IsJump c) (Code c)
                          (HostSt c) (HostCalls c)).

(** [getFrame()] followed by [EVM_FRAME_CHECK]: the current frame, and an
    error when there is none *)
Definition getFrame : H EVMFrame :=
  fun c => match Frames c with
           | f :: _ => Next f c
           | [] => Thrown EVMNoFrame c
           end.

(** a write through the [Frame] pointer *)
Definition putFrame (f : EVMFrame) : H unit :=
  fun c => match Frames c with
           | _ :: fs => Next tt (set_Frames (f :: fs) c)
           | [] => Thrown EVMNoFrame c
           end.

Definition modifyFrame (g : EVMFrame -> EVMFrame) : H unit :=
  f <- getFrame;; putFrame (g f).

(** [Context->freeBackFrame()] and [Context->getCurFrame()]: the current
    frame leaves the call chain; the parent, if any, becomes current *)
Definition freeBackFrame : H unit :=
  fun c => Next tt (set_Frames (tl (Frames c)) c).

Definition getCurFrame : H (option EVMFrame) :=
  fun c => Next (hd_error (Frames c)) c.

(** Modelled from the spec: [EVMFrame::push], [pop] and [peek] are members of
    a class declared outside this file; section 3 has [push] fail with
    stack-overflow when full and [pop]/[peek(n)] fail with stack-underflow
    when absent. *)
Definition push (V : Z) : H unit :=
  f <- getFrame;;
  if MAXSTACK <=? stackHeight f then throw EVMStackOverflow
  else putFrame (set_Stack (V :: Stack f) f).

Definition pop : H Z :=
  f <- getFrame;;
  match Stack f with
  | v :: s => putFrame (set_Stack s f);; ret v
  | [] => throw UnexpectedNumArgs
  end.

Definition peek (N : Z) : H Z :=
  f <- getFrame;;
  match nth_error (Stack f) (nat_of N) with
  | Some v => ret v
  | None => throw UnexpectedNumArgs
  end.

(** a write through the reference [Frame->peek(N)] *)
Definition poke (N : Z) (V : Z) : H unit :=
  f <- getFrame;;
  if N <? stackHeight f
  then putFrame (set_Stack (firstn (nat_of N) (Stack f) ++ V ::
                            skipn (S (nat_of N)) (Stack f)) f)
  else throw UnexpectedNumArgs.

(** Modelled from the spec: the macro [EVM_STACK_CHECK] is defined outside
    this file; section 4.3: before popping [k] inputs a handler asserts
    [stack.len >= k], otherwise it raises stack-underflow. *)
Definition EVM_STACK_CHECK (N : Z) : H unit :=
  f <- getFrame;;
  EVM_REQUIRE (N <=? stackHeight f) UnexpectedNumArgs.

(** [if (!Ok) { Context->setStatus(EVMC_OUT_OF_GAS); return; }] *)
Definition out_of_gas_unless (Ok : bool) : H unit :=
  if Ok then ret tt else (setStatus EVMC_OUT_OF_GAS;; Return).

(** *** Host calls *)

Definition set_HostSt (h : HostState) (c : Ctx) : Ctx :=
  mkCtx (Frames c) (ReturnData c) (Status c) (IsJump c) (Code c) h (HostCalls c).

Definition host_access_account (Addr : Z) : H evmc_access_status :=
  fun c => let r := access_account Host Addr (HostSt c) in
           Next (fst r) (set_HostSt (snd r) c).

Definition host_get_balance (Addr : Z) : H Z :=
  fun c => Next (get_balance Host (HostSt c) Addr) c.

Definition host_account_exists (Addr : Z) : H bool :=
  fun c => Next (account_exists Host (HostSt c) Addr) c.

Definition host_get_code_size (Addr : Z) : H Z :=
  fun c => Next (get_code_size Host (HostSt c) Addr) c.

Definition host_copy_code (Addr Offset CopySize : Z) : H (list Z) :=
  fun c => Next (copy_code Host (HostSt c) Addr Offset CopySize) c.

Definition host_emit_log (Addr : Z) (Data : list Z) (Size : Z)
  (Topics : list Z) : H unit :=
  fun c => Next tt (set_HostSt (emit_log Host Addr Data Size Topics (HostSt c)) c).

Definition host_call (NewMsg : evmc_message) : H evmc_result :=
  fun c => let r := call Host NewMsg (HostSt c) in
           Next (fst r) (mkCtx (Frames c) (ReturnData c) (Status c) (IsJump c)
                               (Code c) (snd r) (NewMsg :: HostCalls c)).

(** *** Gas utilities *)

Definition chargeGas (GasCost : Z) : H bool :=
  f <- getFrame;;
  if u64 (gas (Msg f)) <? GasCost then ret false
  else putFrame (set_Msg_gas (i64 (u64 (gas (Msg f)) - GasCost)) f);; ret true.

Definition copyCodeAndChargeGas (Size : Z) : H bool :=
  chargeGas (u64 (numWords Size * WORD_COPY_COST)).

Definition expandMemoryAndChargeGas (RequiredSize : Z) : H bool :=
  EVM_REQUIRE (RequiredSize <=? MAX_REQUIRED_MEMORY_SIZE) EVMTooLargeRequiredMemory;;
  f <- getFrame;;
  let CurrentSize := size (Memory f) in
  let MemoryExpansionCost := calculateMemoryExpansionCost CurrentSize RequiredSize in
  ok <- chargeGas MemoryExpansionCost;;
  if negb ok then ret false
  else
    (if CurrentSize <? RequiredSize
     then modifyFrame (fun f' => set_Memory (resize (Memory f') RequiredSize) f')
     else ret tt);;
    ret true.

(** The overload taking [(const uint256 &Offset, uint64_t Size)].  A call
    whose third argument is a [uint64_t], a [size_t] or an [int] literal
    resolves to it. *)
Definition checkMemoryExpandAndChargeGas_u64 (Offset Size : Z) : H bool :=
  EVM_REQUIRE (Offset <=? UINT64_MAX) EVMTooLargeRequiredMemory;;
  EVM_REQUIRE (u64 Offset <? UINT64_MAX - Size) IntegerOverflow;;
  let NewSize := u64 (u64 Offset + Size) in
  expandMemoryAndChargeGas NewSize.

(** The overload taking [(const uint256 &Offset, const uint256 &Size)]. *)
Definition checkMemoryExpandAndChargeGas_u256 (Offset Size : Z) : H bool :=
  if Size =? 0 then ret true
  else
    EVM_REQUIRE (Size <=? UINT64_MAX) EVMTooLargeRequiredMemory;;
    checkMemoryExpandAndChargeGas_u64 Offset (u64 Size).

(** *** calculateGas *)

Definition ExpHandler_calculateGas : Z :=
  evmc_get_instruction_metrics_table DEFAULT_REVISION OP_EXP.
Definition PopHandler_calculateGas : Z :=
  evmc_get_instruction_metrics_table DEFAULT_REVISION OP_POP.
Definition PushHandler_calculateGas : Z :=
  evmc_get_instruction_metrics_table DEFAULT_REVISION OP_PUSH1.

(** *** Stack operations *)

Definition PopHandler_doExecute : H unit :=
  _ <- getFrame;;
  EVM_STACK_CHECK 1;;
  _ <- pop;;
  ret tt.

Definition PushHandler_doExecute (OpCode : Z) : H unit :=
  Frame <- getFrame;;
  Context <- getContext;;
  let OpcodeByte := OpCode mod 256 in
  let CodeSize := size (Code Context) in
  let NumBytes := u32 (OpcodeByte - OP_PUSH1 + 1) in
  EVM_REQUIRE (u64 (Pc Frame + NumBytes) <? CodeSize) UnexpectedEnd;;
  let ValueBytes := memcpy (repeat 0 32) (32 - NumBytes)
                           (slice (Code Context) (Pc Frame + 1) NumBytes) in
  let Val := be_load ValueBytes in
  push Val;;
  modifyFrame (fun f => set_Pc (u64 (Pc f + NumBytes)) f).

Definition DupHandler_doExecute (OpCode : Z) : H unit :=
  Frame <- getFrame;;
  let OpcodeByte := OpCode mod 256 in
  let N := u32 (OpcodeByte - OP_DUP1 + 1) in
  EVM_REQUIRE (N <=? stackHeight Frame) UnexpectedNumArgs;;
  V <- peek (u32 (N - 1));;
  push V.

Definition SwapHandler_doExecute (OpCode : Z) : H unit :=
  Frame <- getFrame;;
  let OpcodeByte := OpCode mod 256 in
  let N := u32 (OpcodeByte - OP_SWAP1 + 1) in
  EVM_REQUIRE (u32 (N + 1) <=? stackHeight Frame) UnexpectedNumArgs;;
  Top <- peek 0;;
  Nth <- peek N;;
  poke 0 Nth;;
  poke N Top.

(** *** Memory operations *)

Definition MStoreHandler_doExecute : H unit :=
  _ <- getFrame;;
  EVM_STACK_CHECK 2;;
  OffsetVal <- pop;;
  Value <- pop;;
  let Offset := uint256ToUint64 OffsetVal in
  ok <- checkMemoryExpandAndChargeGas_u64 Offset 32;;
  out_of_gas_unless ok;;
  let ValueBytes := be_store Value in
  modifyFrame (fun f => set_Memory (memcpy (Memory f) Offset ValueBytes) f).

Definition MStore8Handler_doExecute : H unit :=
  _ <- getFrame;;
  EVM_STACK_CHECK 2;;
  OffsetVal <- pop;;
  Value <- pop;;
  let Offset := uint256ToUint64 OffsetVal in
  ok <- checkMemoryExpandAndChargeGas_u64 Offset 1;;
  out_of_gas_unless ok;;
  let ByteValue := Z.land Value 255 in
  modifyFrame (fun f => set_Memory (memcpy (Memory f) Offset [ByteValue]) f).

Definition MLoadHandler_doExecute : H unit :=
  _ <- getFrame;;
  EVM_STACK_CHECK 1;;
  OffsetVal <- pop;;
  let Offset := uint256ToUint64 OffsetVal in
  ok <- checkMemoryExpandAndChargeGas_u64 Offset 32;;
  out_of_gas_unless ok;;
  Frame <- getFrame;;
  let ValueBytes := slice (Memory Frame) Offset 32 in
  let Value := be_load ValueBytes in
  push Value.

Definition MCopyHandler_doExecute : H unit :=
  _ <- getFrame;;
  EVM_STACK_CHECK 3;;
  DestOffsetVal <- pop;;
  OffsetVal <- pop;;
  SizeVal <- pop;;
  ok <- checkMemoryExpandAndChargeGas_u256 (Z.max DestOffsetVal OffsetVal) SizeVal;;
  out_of_gas_unless ok;;
  let DestOffset := uint256ToUint64 DestOffsetVal in
  let Offset := uint256ToUint64 OffsetVal in
  let Size := uint256ToUint64 SizeVal in
  ok <- copyCodeAndChargeGas Size;;
  out_of_gas_unless ok;;
  if 0 <? Size
  then modifyFrame (fun f =>
         set_Memory (memcpy (Memory f) DestOffset (slice (Memory f) Offset Size)) f)
  else ret tt.

(** *** Copies into memory *)

(** The tail shared by the copies: [CopySize] bytes of [Src] go to
    [DestOffset], the rest of the [Size] bytes is zeroed. *)
Definition copy_and_pad (DestOffset : Z) (Src : list Z) (CopySize Size : Z)
  : H unit :=
  (if 0 <? CopySize
   then modifyFrame (fun f => set_Memory (memcpy (Memory f) DestOffset Src) f)
   else ret tt);;
  if CopySize <? Size
  then modifyFrame (fun f =>
         set_Memory (memset0 (Memory f) (DestOffset + CopySize)
                             (Size - CopySize)) f)
  else ret tt.

Definition CallDataCopyHandler_doExecute : H unit :=
  _ <- getFrame;;
  EVM_STACK_CHECK 3;;
  DestOffsetVal <- pop;;
  OffsetVal <- pop;;
  SizeVal <- pop;;
  ok <- checkMemoryExpandAndChargeGas_u256 DestOffsetVal SizeVal;;
  out_of_gas_unless ok;;
  let DestOffset := uint256ToUint64 DestOffsetVal in
  let Offset := uint256ToUint64 OffsetVal in
  let Size := uint256ToUint64 SizeVal in
  Frame <- getFrame;;
  let Src := if input_size (Msg Frame) <? Offset
             then input_size (Msg Frame) else Offset in
  let CopySize := Z.min Size (input_size (Msg Frame) - Src) in
  ok <- copyCodeAndChargeGas Size;;
  out_of_gas_unless ok;;
  copy_and_pad DestOffset (slice (input_data (Msg Frame)) Src CopySize)
               CopySize Size.

Definition CodeCopyHandler_doExecute : H unit :=
  _ <- getFrame;;
  EVM_STACK_CHECK 3;;
  Context <- getContext;;
  let CodeSize := size (Code Context) in
  DestOffsetVal <- pop;;
  OffsetVal <- pop;;
  SizeVal <- pop;;
  ok <- checkMemoryExpandAndChargeGas_u256 DestOffsetVal SizeVal;;
  out_of_gas_unless ok;;
  let DestOffset := uint256ToUint64 DestOffsetVal in
  let Offset := uint256ToUint64 OffsetVal in
  let Size := uint256ToUint64 SizeVal in
  ok <- copyCodeAndChargeGas Size;;
  out_of_gas_unless ok;;
  if Offset <? CodeSize
  then
    let CopySize := Z.min Size (CodeSize - Offset) in
    modifyFrame (fun f =>
      set_Memory (memcpy (Memory f) DestOffset
                         (slice (Code Context) Offset CopySize)) f);;
    if CopySize <? Size
    then modifyFrame (fun f =>
           set_Memory (memset0 (Memory f) (DestOffset + CopySize)
                               (Size - CopySize)) f)
    else ret tt
  else
    if 0 <? Size
    then modifyFrame (fun f => set_Memory (memset0 (Memory f) DestOffset Size) f)
    else ret tt.

Definition ReturnDataCopyHandler_doExecute : H unit :=
  _ <- getFrame;;
  EVM_STACK_CHECK 3;;
  DestOffsetVal <- pop;;
  OffsetVal <- pop;;
  SizeVal <- pop;;
  ok <- checkMemoryExpandAndChargeGas_u256 DestOffsetVal SizeVal;;
  out_of_gas_unless ok;;
  let DestOffset := uint256ToUint64 DestOffsetVal in
  let Offset := uint256ToUint64 OffsetVal in
  let Size := uint256ToUint64 SizeVal in
  ok <- copyCodeAndChargeGas Size;;
  out_of_gas_unless ok;;
  Context <- getContext;;
  let RetData := ReturnData Context in
  if size RetData <=? Offset
  then
    (if 0 <? Size
     then modifyFrame (fun f => set_Memory (memset0 (Memory f) DestOffset Size) f)
     else ret tt);;
    Return
  else
    let CopySize := Z.min Size (size RetData - Offset) in
    modifyFrame (fun f =>
      set_Memory (memcpy (Memory f) DestOffset (slice RetData Offset CopySize)) f);;
    if CopySize <? Size
    then modifyFrame (fun f =>
           set_Memory (memset0 (Memory f) (DestOffset + CopySize)
                               (Size - CopySize)) f)
    else ret tt.

Definition ExtCodeCopyHandler_doExecute : H unit :=
  _ <- getFrame;;
  EVM_STACK_CHECK 4;;
  X <- pop;;
  DestOffsetVal <- pop;;
  OffsetVal <- pop;;
  SizeVal <- pop;;
  let Addr := trunc_address X in
  ok <- checkMemoryExpandAndChargeGas_u256 DestOffsetVal SizeVal;;
  out_of_gas_unless ok;;
  let DestOffset := uint256ToUint64 DestOffsetVal in
  let Offset := uint256ToUint64 OffsetVal in
  let Size := uint256ToUint64 SizeVal in
  ok <- copyCodeAndChargeGas Size;;
  out_of_gas_unless ok;;
  Frame <- getFrame;;
  Cold <- (if rev_ge (Rev Frame) EVMC_BERLIN
           then a <- host_access_account Addr;; ret (is_cold a)
           else ret false);;
  (if Cold
   then
     Frame <- getFrame;;
     out_of_gas_unless (negb (gas (Msg Frame) <? ADDITIONAL_COLD_ACCOUNT_ACCESS_COST));;
     modifyFrame (fun f =>
       set_Msg_gas (i64 (gas (Msg f) - ADDITIONAL_COLD_ACCOUNT_ACCESS_COST)) f)
   else ret tt);;
  CodeSize <- host_get_code_size Addr;;
  if CodeSize <=? Offset
  then
    if 0 <? Size
    then modifyFrame (fun f => set_Memory (memset0 (Memory f) DestOffset Size) f)
    else ret tt
  else
    let CopySize := Z.min Size (CodeSize - Offset) in
    Copied <- host_copy_code Addr Offset CopySize;;
    let CopiedSize := size Copied in
    modifyFrame (fun f => set_Memory (memcpy (Memory f) DestOffset Copied) f);;
    if CopiedSize <? Size
    then modifyFrame (fun f =>
           set_Memory (memset0 (Memory f) (DestOffset + CopiedSize)
                               (Size - CopiedSize)) f)
    else ret tt.

(** *** KECCAK256 *)

Definition Keccak256Handler_doExecute : H unit :=
  _ <- getFrame;;
  EVM_STACK_CHECK 2;;
  Offset <- pop;;
  Length <- pop;;
  let MemOffset := u64 Offset in
  let DataLength := u64 Length in
  ok <- checkMemoryExpandAndChargeGas_u64 MemOffset DataLength;;
  out_of_gas_unless ok;;
  Frame <- getFrame;;
  let InputData := slice (Memory Frame) MemOffset DataLength in
  let HashResult := keccak256 InputData in
  let ResultValue := be_load HashResult in
  push ResultValue.

(** *** RETURN and REVERT *)

(** [RemainingGas] goes to the parent frame, if there is one. *)
Definition return_gas_to_parent : H unit :=
  Frame <- getFrame;;
  let RemainingGas := u64 (gas (Msg Frame)) in
  freeBackFrame;;
  Cur <- getCurFrame;;
  match Cur with
  | Some Parent => putFrame (set_Msg_gas (i64 (gas (Msg Parent) + RemainingGas)) Parent)
  | None => ret tt
  end.

Definition ReturnHandler_doExecute : H unit :=
  _ <- getFrame;;
  EVM_STACK_CHECK 2;;
  OffsetVal <- pop;;
  SizeVal <- pop;;
  let Offset := uint256ToUint64 OffsetVal in
  let Size := uint256ToUint64 SizeVal in
  ok <- checkMemoryExpandAndChargeGas_u64 Offset Size;;
  out_of_gas_unless ok;;
  Frame <- getFrame;;
  let RetData := slice (Memory Frame) Offset Size in
  setReturnData RetData;;
  setStatus EVMC_SUCCESS;;
  return_gas_to_parent.

Definition RevertHandler_doExecute : H unit :=
  _ <- getFrame;;
  EVM_STACK_CHECK 2;;
  OffsetVal <- pop;;
  SizeVal <- pop;;
  let Offset := uint256ToUint64 OffsetVal in
  let Size := uint256ToUint64 SizeVal in
  ok <- checkMemoryExpandAndChargeGas_u64 Offset Size;;
  out_of_gas_unless ok;;
  Frame <- getFrame;;
  let RevertData := slice (Memory Frame) Offset Size in
  setStatus EVMC_REVERT;;
  setReturnData RevertData;;
  return_gas_to_parent.

(** *** LOG0 .. LOG4 *)

(** the loop [for (I = 0; I < NumTopics; ++I) Topics[I] = Frame->pop()] *)
Fixpoint pop_topics (NumTopics : nat) : H (list Z) :=
  match NumTopics with
  | O => ret []
  | S n => Topic <- pop;; Rest <- pop_topics n;; ret (Topic :: Rest)
  end.

Definition LogHandler_doExecute (OpCode : Z) : H unit :=
  Frame <- getFrame;;
  (if isStaticMode Frame
   then setStatus EVMC_STATIC_MODE_VIOLATION;; Return
   else ret tt);;
  let OpcodeByte := OpCode mod 256 in
  let NumTopics := u32 (OpcodeByte - OP_LOG0) in
  EVM_STACK_CHECK (u32 (NumTopics + 2));;
  OffsetVal <- pop;;
  SizeVal <- pop;;
  let Offset := uint256ToUint64 OffsetVal in
  let Size := uint256ToUint64 SizeVal in
  let ReqSize := u64 (Offset + Size) in
  ok <- expandMemoryAndChargeGas ReqSize;;
  out_of_gas_unless ok;;
  let LogDataCost := u64 (8 * Size) in
  ok <- chargeGas LogDataCost;;
  out_of_gas_unless ok;;
  Topics <- pop_topics (nat_of NumTopics);;
  Frame <- getFrame;;
  host_emit_log (recipient (Msg Frame)) (slice (Memory Frame) Offset Size)
                Size Topics.

(** *** CREATE and CREATE2 *)

Definition EVMC_CREATE : Z := 3.

Definition CreateHandler_doExecute (OpCode : Z) : H unit :=
  _ <- getFrame;;
  (if OpCode =? OP_CREATE then EVM_STACK_CHECK 3
   else if OpCode =? OP_CREATE2 then EVM_STACK_CHECK 4
   else throw EVMInvalidInstruction);;
  Value <- pop;;
  CodeOffset <- pop;;
  CodeSizeVal <- pop;;
  Salt <- (if OpCode =? OP_CREATE2 then pop else ret 0);;
  (* Assume failure *)
  push 0;;
  setReturnData [];;
  Frame <- getFrame;;
  (if isStaticMode Frame
   then setStatus EVMC_STATIC_MODE_VIOLATION;; Return
   else ret tt);;
  (* EIP-3860 *)
  (if rev_ge (Rev Frame) EVMC_SHANGHAI && (MAX_SIZE_OF_INITCODE <? CodeSizeVal)
   then setStatus EVMC_OUT_OF_GAS;; Return
   else ret tt);;
  let InitCodeWordCost :=
    6 * (if OpCode =? OP_CREATE2 then 1 else 0)
    + 2 * (if rev_ge (Rev Frame) EVMC_SHANGHAI then 1 else 0) in
  let InitCodeSize := uint256ToUint64 (u256 (CodeSizeVal + 31) / 32) in
  let InitCodeCost := u64 (InitCodeWordCost * InitCodeSize) in
  ok <- chargeGas InitCodeCost;;
  out_of_gas_unless ok;;
  Frame <- getFrame;;
  (if MAXSTACK <=? depth (Msg Frame)
   then setStatus EVMC_SUCCESS;; Return (* "Light" failure *)
   else ret tt);;
  Balance <- host_get_balance (recipient (Msg Frame));;
  (if Balance <? Value
   then setStatus EVMC_SUCCESS;; Return (* "Light" failure *)
   else ret tt);;
  ok <- expandMemoryAndChargeGas (uint256ToUint64 (u256 (CodeOffset + CodeSizeVal)));;
  out_of_gas_unless ok;;
  Frame <- getFrame;;
  let NewMsg :=
    mkMsg EVMC_CREATE 0 (depth (Msg Frame) + 1) (gas (Msg Frame)) 0
          (sender (Msg Frame))
          (slice (Memory Frame) (uint256ToUint64 CodeOffset)
                 (uint256ToUint64 CodeSizeVal))
          (uint256ToUint64 CodeSizeVal) Value Salt 0 in
  (* EIP-150 *)
  let NewMsg :=
    if rev_ge (Rev Frame) EVMC_TANGERINE_WHISTLE
    then set_gas (gas NewMsg - Z.quot (gas NewMsg) 64) NewMsg
    else NewMsg in
  Result <- host_call NewMsg;;
  _ <- chargeGas (u64 (gas NewMsg - gas_left Result));;
  modifyFrame (fun f => set_GasRefund (GasRefund f + gas_refund Result) f);;
  setReturnData (output_data Result);;
  (if is_success (status_code Result)
   then _ <- pop;; push (create_address Result)
   else ret tt);;
  setStatus (status_code Result).

(** *** CALL, CALLCODE, DELEGATECALL, STATICCALL *)

Definition CallHandler_doExecute (OpCode : Z) : H unit :=
  _ <- getFrame;;
  NeedValue <-
    (if (OpCode =? OP_CALL) || (OpCode =? OP_CALLCODE)
     then EVM_STACK_CHECK 7;; ret true
     else if (OpCode =? OP_DELEGATECALL) || (OpCode =? OP_STATICCALL)
     then EVM_STACK_CHECK 6;; ret false
     else throw EVMInvalidInstruction);;
  Gas <- pop;;
  DestVal <- pop;;
  let Dest := trunc_address DestVal in
  Value <- (if NeedValue : bool then pop else ret 0);;
  InputOffset <- pop;;
  InputSize <- pop;;
  OutputOffset <- pop;;
  OutputSize <- pop;;
  (* Assume failure *)
  push 0;;
  setReturnData [];;
  Frame <- getFrame;;
  (* EIP-2929 *)
  Cold <- (if rev_ge (Rev Frame) EVMC_BERLIN
           then a <- host_access_account Dest;; ret (is_cold a)
           else ret false);;
  (if Cold : bool
   then ok <- chargeGas COLD_ACCOUNT_ACCESS_COST;; out_of_gas_unless ok
   else ok <- chargeGas WARM_ACCOUNT_ACCESS_COST;; out_of_gas_unless ok);;
  Frame <- getFrame;;
  (if MAXSTACK <=? depth (Msg Frame)
   then setStatus EVMC_SUCCESS;; Return (* "Light" failure *)
   else ret tt);;
  Balance <- host_get_balance (recipient (Msg Frame));;
  (if NeedValue && (Balance <? Value)
   then setStatus EVMC_SUCCESS;; Return (* "Light" failure *)
   else ret tt);;
  ok1 <- expandMemoryAndChargeGas (uint256ToUint64 (u256 (InputOffset + InputSize)));;
  ok2 <- (if ok1 : bool
          then expandMemoryAndChargeGas
                 (uint256ToUint64 (u256 (OutputOffset + OutputSize)))
          else ret false);;
  out_of_gas_unless ok2;;
  Frame <- getFrame;;
  let NewMsg :=
    mkMsg OpCode
          (if OpCode =? OP_STATICCALL then EVMC_STATIC else flags (Msg Frame))
          (depth (Msg Frame) + 1)
          (i64 Gas)
          (if (OpCode =? OP_CALL) || (OpCode =? OP_STATICCALL)
           then Dest else recipient (Msg Frame))
          (if OpCode =? OP_DELEGATECALL
           then sender (Msg Frame) else recipient (Msg Frame))
          (slice (Memory Frame) (uint256ToUint64 InputOffset)
                 (uint256ToUint64 InputSize))
          (uint256ToUint64 InputSize)
          (if OpCode =? OP_DELEGATECALL then value (Msg Frame) else Value)
          0
          Dest in
  NewMsg <-
    (if rev_ge (Rev Frame) EVMC_TANGERINE_WHISTLE
     then ret (set_gas (Z.min (gas NewMsg)
                              (gas (Msg Frame) - Z.quot (gas (Msg Frame)) 64))
                       NewMsg)
     else if gas (Msg Frame) <? gas NewMsg
     then setStatus EVMC_OUT_OF_GAS;; Return
     else ret NewMsg);;
  let Cost := if NeedValue : bool then CALL_VALUE_COST else 0 in
  Cost <-
    (if OpCode =? OP_CALL
     then
       (if isStaticMode Frame
        then setStatus EVMC_STATIC_MODE_VIOLATION;; Return
        else ret tt);;
       Exists <- host_account_exists Dest;;
       ret (if Exists : bool then Cost else Cost + ACCOUNT_CREATION_COST)
     else ret Cost);;
  ok <- chargeGas (u64 Cost);;
  (if ok : bool then ret tt
   else setStatus EVMC_OUT_OF_GAS;; push 0;; Return);;
  (* EIP-150 *)
  let NewMsg :=
    if NeedValue : bool
    then set_gas (i64 (gas NewMsg + CALL_GAS_STIPEND)) NewMsg
    else NewMsg in
  Result <- host_call NewMsg;;
  (* [Context->setResource()] re-installs the static pointers to the
     current frame and context; it leaves the state modelled here as is *)
  (if is_success (status_code Result)
   then _ <- pop;; push 1
   else ret tt);;
  setReturnData (output_data Result);;
  let CopySize := Z.min (uint256ToUint64 OutputSize) (output_size Result) in
  (if 0 <? CopySize
   then modifyFrame (fun f =>
          set_Memory (memcpy (Memory f) (uint256ToUint64 OutputOffset)
                             (firstn (nat_of CopySize) (output_data Result))) f)
   else ret tt);;
  let GasUsed := i64 (gas NewMsg - gas_left Result) in
  _ <- chargeGas (u64 GasUsed);;
  modifyFrame (fun f => set_GasRefund (GasRefund f + gas_refund Result) f);;
  setStatus (status_code Result).

(** *** SIGNEXTEND, BYTE, SAR

    The operands are 256-bit words; the shifts below stay inside 256 bits
    on the branches that form them. *)

(** the value [Res] that SIGNEXTEND pushes for the operands [I] and [V] *)
Definition SignExtendHandler_Res (I V : Z) : Z :=
  if I <? 31
  then
    let SignBitPosition := 8 * I + 7 in
    let SignBit := negb (Z.land V (Z.shiftl 1 SignBitPosition) =? 0) in
    if SignBit
    then
      let Mask := Z.shiftl 1 SignBitPosition - 1 in
      Z.lor V (not256 Mask)
    else V
  else V.

Definition SignExtendHandler_doExecute : H unit :=
  _ <- getFrame;;
  EVM_STACK_CHECK 2;;
  I <- pop;;
  V <- pop;;
  push (SignExtendHandler_Res I V).

(** the value [Res] that BYTE pushes *)
Definition ByteHandler_Res (I Val : Z) : Z :=
  if I <? 32
  then
    let ByteVal := Z.land (Z.shiftr Val (8 * (31 - I))) 255 in
    ByteVal
  else 0.

Definition ByteHandler_doExecute : H unit :=
  _ <- getFrame;;
  EVM_STACK_CHECK 2;;
  I <- pop;;
  Val <- pop;;
  push (ByteHandler_Res I Val).

(** [intx::uint256(-1)]: what the converting constructor of intx makes of
    the [int] -1; the constructor is declared outside this file. *)
Variable uint256_of_minus_one : Z.

(** the value [Res] that SAR pushes *)
Definition SarHandler_Res (Shift Value : Z) : Z :=
  if Shift <? 256
  then
    let IsNegative := Z.land (Z.shiftr Value 255) 1 in
    let Res := Z.shiftr Value Shift in
    if negb (IsNegative =? 0) && (0 <? Shift)
    then
      let Mask := Z.shiftl 1 (256 - Shift) - 1 in
      let Mask := not256 Mask in
      Z.lor Res Mask
    else Res
  else
    let IsNegative := Z.land (Z.shiftr Value 255) 1 in
    if negb (IsNegative =? 0) then uint256_of_minus_one else 0.

Definition SarHandler_doExecute : H unit :=
  _ <- getFrame;;
  EVM_STACK_CHECK 2;;
  Shift <- pop;;
  Value <- pop;;
  push (SarHandler_Res Shift Value).

(** *** Environment *)

Definition BalanceHandler_doExecute : H unit :=
  _ <- getFrame;;
  EVM_STACK_CHECK 1;;
  X <- pop;;
  let Addr := trunc_address X in
  Frame <- getFrame;;
  Cold <- (if rev_ge (Rev Frame) EVMC_BERLIN
           then a <- host_access_account Addr;; ret (is_cold a)
           else ret false);;
  (if Cold : bool
   then ok <- chargeGas ADDITIONAL_COLD_ACCOUNT_ACCESS_COST;; out_of_gas_unless ok
   else ret tt);;
  Balance <- host_get_balance Addr;;
  push Balance.

(** the 32 bytes [DataBytes] that CALLDATALOAD reads at [Offset] *)
Definition CallDataLoadHandler_DataBytes (m : evmc_message) (Offset : Z)
  : list Z :=
  memcpy (repeat 0 32) 0
         (slice (input_data m) Offset (Z.min 32 (u64 (input_size m - Offset)))).

Definition CallDataLoadHandler_doExecute : H unit :=
  _ <- getFrame;;
  EVM_STACK_CHECK 1;;
  OffsetVal <- pop;;
  let Offset := uint256ToUint64 OffsetVal in
  Frame <- getFrame;;
  (if input_size (Msg Frame) <? OffsetVal
   then push 0;; Return
   else ret tt);;
  let Value := be_load (CallDataLoadHandler_DataBytes (Msg Frame) Offset) in
  push Value.

Definition ExtCodeSizeHandler_doExecute : H unit :=
  _ <- getFrame;;
  EVM_STACK_CHECK 1;;
  X <- pop;;
  let Addr := trunc_address X in
  Frame <- getFrame;;
  Cold <- (if rev_ge (Rev Frame) EVMC_BERLIN
           then a <- host_access_account Addr;; ret (is_cold a)
           else ret false);;
  (if Cold : bool
   then
     out_of_gas_unless (negb (gas (Msg Frame) <? ADDITIONAL_COLD_ACCOUNT_ACCESS_COST));;
     modifyFrame (fun f =>
       set_Msg_gas (i64 (gas (Msg f) - ADDITIONAL_COLD_ACCOUNT_ACCESS_COST)) f)
   else ret tt);;
  CodeSize <- host_get_code_size Addr;;
  push CodeSize.

Definition MSizeHandler_doExecute : H unit :=
  Frame <- getFrame;;
  let MemSize := size (Memory Frame) in
  push MemSize.

Definition Push0Handler_doExecute : H unit :=
  _ <- getFrame;;
  push 0.

(** *** Control flow *)

(** [Context->IsJump = true] *)
Definition setIsJump (b : bool) : H unit :=
  fun c => Next tt (mkCtx (Frames c) (ReturnData c) (Status c) b (Code c)
                          (HostSt c) (HostCalls c)).

Definition JumpHandler_doExecute : H unit :=
  _ <- getFrame;;
  Context <- getContext;;
  let CodeSize := size (Code Context) in
  EVM_STACK_CHECK 1;;
  DestVal <- pop;;
  let Dest := uint256ToUint64 DestVal in
  EVM_REQUIRE (Dest <? CodeSize) EVMBadJumpDestination;;
  EVM_REQUIRE (nth (nat_of Dest) (Code Context) 0 =? OP_JUMPDEST)
              EVMBadJumpDestination;;
  modifyFrame (set_Pc Dest);;
  setIsJump true.

Definition JumpIHandler_doExecute : H unit :=
  _ <- getFrame;;
  Context <- getContext;;
  let CodeSize := size (Code Context) in
  EVM_STACK_CHECK 2;;
  DestVal <- pop;;
  let Dest := uint256ToUint64 DestVal in
  Cond <- pop;;
  (if Cond =? 0 then Return else ret tt);;
  EVM_REQUIRE (Dest <? CodeSize) EVMBadJumpDestination;;
  EVM_REQUIRE (nth (nat_of Dest) (Code Context) 0 =? OP_JUMPDEST)
              EVMBadJumpDestination;;
  modifyFrame (set_Pc Dest);;
  setIsJump true.

(** *** SELFDESTRUCT *)

(** [Host->selfdestruct(Addr, Beneficiary)], a method of the Host beside
    those of the record; its result is not used. *)
Variable selfdestruct : Z -> Z -> HostState -> HostState.

Definition host_selfdestruct (Addr Beneficiary : Z) : H unit :=
  fun c => Next tt (set_HostSt (selfdestruct Addr Beneficiary (HostSt c)) c).

Definition SelfDestructHandler_doExecute : H unit :=
  Frame <- getFrame;;
  (if isStaticMode Frame
   then setStatus EVMC_STATIC_MODE_VIOLATION;; Return
   else ret tt);;
  EVM_STACK_CHECK 1;;
  BeneficiaryAddr <- pop;;
  let Beneficiary := trunc_address BeneficiaryAddr in
  (* EIP-161 *)
  Exists <- (if rev_ge (Rev Frame) EVMC_SPURIOUS_DRAGON
             then host_account_exists Beneficiary
             else ret true);;
  (if negb Exists
   then ok <- chargeGas ACCOUNT_CREATION_COST;; out_of_gas_unless ok
   else ret tt);;
  (* EIP-2929 *)
  Cold <- (if rev_ge (Rev Frame) EVMC_BERLIN
           then a <- host_access_account Beneficiary;; ret (is_cold a)
           else ret false);;
  (if Cold : bool
   then ok <- chargeGas ADDITIONAL_COLD_ACCOUNT_ACCESS_COST;; out_of_gas_unless ok
   else ret tt);;
  Frame <- getFrame;;
  host_selfdestruct (recipient (Msg Frame)) Beneficiary;;
  return_gas_to_parent.

End Handlers.

(** ** Pure readings of the gas utilities

    [gas_after_charge g cost] is the frame's gas after [chargeGas(cost)] on a
    frame whose gas is [g]; [expand_to mem R] is the memory after
    [expandMemoryAndChargeGas(R)] succeeded. *)
Definition gas_after_charge (g cost : Z) : Z :=
  if u64 g <? cost then g else i64 (u64 g - cost).

Definition expand_to (mem : list Z) (RequiredSize : Z) : list Z :=
  if size mem <? RequiredSize then resize mem RequiredSize else mem.

(** ** The gas of EXP in the words of the spec

    [byte_length e] is the number of bytes of the exponent [e];
    [exp_gas_spec] is the spec's charge for EXP: the static cost plus 50 per
    byte from Spurious Dragon on, 10 per byte before. *)
Definition byte_length (e : Z) : Z :=
  if e <=? 0 then 0 else Z.log2 e / 8 + 1.

Definition exp_gas_spec (rev : evmc_revision) (static_cost exponent : Z) : Z :=
  static_cost
  + (if rev_ge rev EVMC_SPURIOUS_DRAGON then 50 else 10) * byte_length exponent.

(** ** Concrete instances

    A Host with no state: every account exists, is warm and holds 10^6;
    there is no code; a sub-call succeeds at once and hands back all its gas.
    The frames start with empty memory at pc 0, in an account 1 called by 2. *)
Definition example_host : HostInterface unit :=
  mkHost (fun _ _ => true)
         (fun _ _ => 1000000)
         (fun _ _ => 0)
         (fun _ _ _ _ => [])
         (fun _ h => (EVMC_ACCESS_WARM, h))
         (fun m h => (mkResult EVMC_SUCCESS (gas m) 0 [] 0, h))
         (fun _ _ _ _ h => h).

Definition example_msg (Flags Depth GasLeft : Z) : evmc_message :=
  mkMsg 0 Flags Depth GasLeft 1 2 [] 0 0 0 0.

Definition example_frame (stack : list Z) (m : evmc_message)
  (r : evmc_revision) : EVMFrame :=
  mkFrame stack [] 0 m 0 r.

Definition example_context (fs : list EVMFrame) (code : list Z)
  : InterpreterExecContext unit :=
  mkCtx fs [] EVMC_SUCCESS false code tt [].

Definition example_memory_bound : Z := 4294967296.

Definition example_keccak256 (_ : list Z) : list Z := repeat 0 32.

Definition example_metrics (_ : evmc_revision) (op : Z) : Z :=
  if op =? OP_PUSH1 then 3
  else if op =? OP_POP then 2
  else if op =? OP_EXP then 10
  else 0.

(** One frame at Cancun with the given stack and gas, over the given code. *)
Definition example_state (stack : list Z) (GasLeft : Z) (code : list Z)
  : InterpreterExecContext unit :=
  example_context [example_frame stack (example_msg 0 0 GasLeft) EVMC_CANCUN] code.

Definition example_selfdestruct (_ _ : Z) (h : unit) : unit := h.

(** [-1] read as one 64-bit word. *)
Definition example_uint256_of_minus_one : Z := u64 (-1).


(** What a test observes of a handler's run: the status and, per frame of
    the call chain, the stack, the memory size and the gas; nothing when the
    handler threw. *)
Definition observe {HostState} (r : Completion (InterpreterExecContext HostState))
  : option (evmc_status_code * list (list Z * Z * Z)) :=
  match r with
  | Done c =>
      Some (Status c,
            map (fun f => (Stack f, size (Memory f), gas (Msg f))) (Frames c))
  | Raised _ _ => None
  end.

(** * Properties *)

(** ** Machine integers *)

Lemma u64_small (x : Z) : 0 <= x < 2 ^ 64 -> u64 x = x.
Proof. intros Hx. unfold u64. now apply Z.mod_small. Qed.

Lemma u64_range (x : Z) : 0 <= u64 x < 2 ^ 64.
Proof. unfold u64. apply Z.mod_pos_bound. lia. Qed.

Lemma i64_small (x : Z) : 0 <= x < 2 ^ 63 -> i64 x = x.
Proof.
  intros Hx. unfold i64. rewrite Z.mod_small; lia.
Qed.

Lemma uint256ToUint64_mod (v : Z) : uint256ToUint64 v = v mod 2 ^ 64.
Proof.
  unfold uint256ToUint64.
  change 18446744073709551615 with (Z.ones 64).
  apply Z.land_ones. lia.
Qed.

Lemma uint256ToUint64_range (v : Z) : 0 <= uint256ToUint64 v < 2 ^ 64.
Proof. rewrite uint256ToUint64_mod. apply Z.mod_pos_bound. lia. Qed.

Lemma uint256ToUint64_idem (v : Z) :
  uint256ToUint64 (uint256ToUint64 v) = uint256ToUint64 v.
Proof. rewrite !uint256ToUint64_mod. apply Z.mod_mod. lia. Qed.

(** ** Memory expansion cost *)

Lemma words_nonneg (n : Z) : 0 <= n -> 0 <= words n.
Proof. intros Hn. unfold words. apply Z.div_pos; lia. Qed.

Lemma words_mono (n n' : Z) : n <= n' -> words n <= words n'.
Proof. intros Hle. unfold words. apply Z.div_le_mono; lia. Qed.

Lemma C_mem_nonneg (w : Z) : 0 <= w -> 0 <= C_mem w.
Proof.
  intros Hw. unfold C_mem.
  assert (0 <= w * w / 512) by (apply Z.div_pos; nia). lia.
Qed.

Lemma C_mem_mono (w w' : Z) : 0 <= w <= w' -> C_mem w <= C_mem w'.
Proof.
  intros Hw. unfold C_mem.
  assert (w * w / 512 <= w' * w' / 512) by (apply Z.div_le_mono; nia). lia.
Qed.

(** A cost that fits 64 bits bounds the number of words, hence the size. *)
Lemma C_mem_fits_words (w : Z) : 0 <= w -> C_mem w < 2 ^ 64 -> w < 2 ^ 37.
Proof.
  intros Hw Hfit. unfold C_mem in Hfit.
  destruct (Z_lt_ge_dec w (2 ^ 37)) as [Hlt | Hge]; [exact Hlt | exfalso].
  assert (2 ^ 74 / 512 <= w * w / 512) by (apply Z.div_le_mono; nia).
  change (2 ^ 74 / 512) with (2 ^ 65) in H. lia.
Qed.

Lemma C_mem_fits_size (n : Z) :
  0 <= n -> C_mem (words n) < 2 ^ 64 -> n + 31 < 2 ^ 64.
Proof.
  intros Hn Hfit.
  pose proof (C_mem_fits_words (words n) (words_nonneg n Hn) Hfit) as Hw.
  unfold words in Hw.
  pose proof (Z.div_mod (n + 31) 32 ltac:(lia)).
  pose proof (Z.mod_pos_bound (n + 31) 32 ltac:(lia)).
  lia.
Qed.

Lemma MemoryCost_exact (n : Z) :
  0 <= n -> C_mem (words n) < 2 ^ 64 ->
  MemoryCost (u64 (n + 31) / 32) = C_mem (words n).
Proof.
  intros Hn Hfit.
  pose proof (C_mem_fits_size n Hn Hfit).
  rewrite u64_small by lia.
  unfold MemoryCost. apply u64_small.
  split; [apply (C_mem_nonneg (words n)), words_nonneg; lia | exact Hfit].
Qed.

Lemma C_mem_fits_below (n n' : Z) :
  0 <= n <= n' -> C_mem (words n') < 2 ^ 64 -> C_mem (words n) < 2 ^ 64.
Proof.
  intros Hn Hfit.
  pose proof (C_mem_mono (words n) (words n')
                (conj (words_nonneg n (proj1 Hn)) (words_mono n n' (proj2 Hn)))).
  lia.
Qed.

Lemma calculateMemoryExpansionCost_exact (c n : Z) :
  0 <= c -> 0 <= n -> C_mem (words n) < 2 ^ 64 ->
  calculateMemoryExpansionCost c n = expansion_cost_spec c n.
Proof.
  intros Hc Hn Hfit.
  unfold calculateMemoryExpansionCost, expansion_cost_spec.
  destruct (Z.leb_spec n c) as [Hle | Hlt]; [reflexivity|].
  rewrite (MemoryCost_exact n Hn Hfit).
  rewrite (MemoryCost_exact c Hc (C_mem_fits_below c n ltac:(lia) Hfit)).
  apply u64_small.
  pose proof (C_mem_mono (words c) (words n)
                (conj (words_nonneg c Hc) (words_mono c n ltac:(lia)))).
  pose proof (C_mem_nonneg (words c) (words_nonneg c Hc)).
  lia.
Qed.

Lemma expansion_cost_spec_mono (c n n' : Z) :
  0 <= c -> 0 <= n <= n' ->
  expansion_cost_spec c n <= expansion_cost_spec c n'.
Proof.
  intros Hc Hn. unfold expansion_cost_spec.
  destruct (Z.leb_spec n c), (Z.leb_spec n' c); try lia.
  - pose proof (C_mem_mono (words c) (words n')
                  (conj (words_nonneg c Hc) (words_mono c n' ltac:(lia)))). lia.
  - pose proof (C_mem_mono (words n) (words n')
                  (conj (words_nonneg n (proj1 Hn)) (words_mono n n' (proj2 Hn)))).
    lia.
Qed.

(** C5.  On sizes whose cost fits 64 bits the charge of
    [calculateMemoryExpansionCost] is [C(words n) - C(words c)] with
    [C(w) = w*w/512 + 3*w] (and 0 when [n <= c]), and it is monotonic
    non-decreasing in [n].  These are the sizes the function is called
    with: [expandMemoryAndChargeGas], its only caller, throws for a size
    above [MAX_REQUIRED_MEMORY_SIZE] before the call. *)
Theorem calculateMemoryExpansionCost_formula_monotone (c : Z) :
  0 <= c ->
  (forall n, 0 <= n -> C_mem (words n) < 2 ^ 64 ->
     calculateMemoryExpansionCost c n = expansion_cost_spec c n) /\
  (forall n n', 0 <= n <= n' -> C_mem (words n') < 2 ^ 64 ->
     calculateMemoryExpansionCost c n <= calculateMemoryExpansionCost c n').
Proof.
  intros Hc. split.
  - intros n Hn Hfit. now apply calculateMemoryExpansionCost_exact.
  - intros n n' Hn Hfit.
    rewrite (calculateMemoryExpansionCost_exact c n) by
      (try lia; now apply (C_mem_fits_below n n')).
    rewrite (calculateMemoryExpansionCost_exact c n') by (try lia; exact Hfit).
    now apply expansion_cost_spec_mono.
Qed.

Lemma calculateMemoryExpansionCost_formula_monotone_witness :
  calculateMemoryExpansionCost 32 64 = expansion_cost_spec 32 64 /\
  calculateMemoryExpansionCost 32 64 <= calculateMemoryExpansionCost 32 4096.
Proof.
  destruct (calculateMemoryExpansionCost_formula_monotone 32 ltac:(lia))
    as [Hexact Hmono].
  split.
  - apply Hexact; [lia | vm_compute; reflexivity].
  - apply Hmono; [lia | vm_compute; reflexivity].
Defined.

(** Every size within a bound whose cost fits 64 bits is charged by the
    formula: the requirement on the cost is one on the memory bound (any
    bound up to 2^41 meets it). *)
Lemma calculateMemoryExpansionCost_within_bound (MAX c n : Z) :
  0 <= c -> 0 <= n <= MAX -> C_mem (words MAX) < 2 ^ 64 ->
  calculateMemoryExpansionCost c n = expansion_cost_spec c n.
Proof.
  intros Hc Hn Hfit.
  apply calculateMemoryExpansionCost_exact; [lia | lia |].
  now apply (C_mem_fits_below n MAX).
Qed.

Lemma C_mem_fits_2_41 : C_mem (words (2 ^ 41)) < 2 ^ 64.
Proof. vm_compute. reflexivity. Qed.

(** The function taken alone, on sizes no caller passes: at the top of the
    64-bit range the word count of [2^64 - 1] wraps to 0, so the result is 0
    where the formula is positive, and the result for the smaller size
    [2^64 - 32] is larger. *)
Lemma calculateMemoryExpansionCost_wraps :
  calculateMemoryExpansionCost 0 (2 ^ 64 - 1) = 0 /\
  0 < expansion_cost_spec 0 (2 ^ 64 - 1) /\
  2 ^ 64 - 32 <= 2 ^ 64 - 1 /\
  calculateMemoryExpansionCost 0 (2 ^ 64 - 1)
    < calculateMemoryExpansionCost 0 (2 ^ 64 - 32).
Proof. vm_compute. repeat split; discriminate. Qed.

(** ** Symbolic execution of handlers *)

(** Reduce the record and list structure of a handler's state. *)
Tactic Notation "hsimpl" :=
  cbv beta iota zeta delta
      [Frames ReturnData Status IsJump Code HostSt HostCalls
       Stack Memory Pc Msg GasRefund Rev
       set_Frames set_HostSt set_Stack set_Memory set_Pc set_Msg_gas
       set_GasRefund set_gas
       kind flags depth gas recipient sender input_data input_size value
       create2_salt code_address hd_error tl fst snd negb].

Tactic Notation "hsimpl" "in" "*" :=
  cbv beta iota zeta delta
      [Frames ReturnData Status IsJump Code HostSt HostCalls
       Stack Memory Pc Msg GasRefund Rev
       set_Frames set_HostSt set_Stack set_Memory set_Pc set_Msg_gas
       set_GasRefund set_gas
       kind flags depth gas recipient sender input_data input_size value
       create2_salt code_address hd_error tl fst snd negb] in *.

Tactic Notation "hsimpl" "in" hyp(H) :=
  cbv beta iota zeta delta
      [Frames ReturnData Status IsJump Code HostSt HostCalls
       Stack Memory Pc Msg GasRefund Rev
       set_Frames set_HostSt set_Stack set_Memory set_Pc set_Msg_gas
       set_GasRefund set_gas
       kind flags depth gas recipient sender input_data input_size value
       create2_salt code_address hd_error tl fst snd negb] in H.

(** Unfold the handler computation down to its tests and run it up to the
    first test that the state does not decide. *)
Ltac hunfold :=
  cbv delta [run bind ret Return throw EVM_REQUIRE EVM_STACK_CHECK getFrame
             putFrame modifyFrame getContext setStatus setReturnData
             freeBackFrame getCurFrame push pop peek poke out_of_gas_unless
             chargeGas copyCodeAndChargeGas expandMemoryAndChargeGas
             checkMemoryExpandAndChargeGas_u64
             checkMemoryExpandAndChargeGas_u256
             host_access_account host_get_balance host_account_exists
             host_get_code_size host_copy_code host_emit_log host_call
             return_gas_to_parent copy_and_pad];
  hsimpl.

Lemma size_cons {A} (a : A) (l : list A) : size (a :: l) = size l + 1.
Proof. unfold size. cbn [length]. lia. Qed.

Lemma size_nonneg {A} (l : list A) : 0 <= size l.
Proof. unfold size. lia. Qed.

(** A stack check that the shape of the stack decides. *)
Ltac stack_check_ok :=
  match goal with
  | |- context [?n <=? size ?l] =>
      replace (n <=? size l) with true
        by (symmetry; apply Z.leb_le; rewrite ?size_cons;
            match goal with
            | |- context [size ?r] => pose proof (size_nonneg r)
            end; lia)
  end; hsimpl.


Lemma calculateMemoryExpansionCost_range (c n : Z) :
  0 <= calculateMemoryExpansionCost c n < 2 ^ 64.
Proof.
  unfold calculateMemoryExpansionCost.
  destruct (n <=? c); [lia | apply u64_range].
Qed.

(** The operand count that DUPn, SWAPn, PUSHn and LOGn read off the opcode. *)
Lemma dup_count (n : Z) :
  1 <= n <= 16 -> u32 ((OP_DUP1 + n - 1) mod 256 - OP_DUP1 + 1) = n.
Proof.
  intros Hn. unfold OP_DUP1, u32.
  rewrite (Z.mod_small (128 + n - 1)) by lia. rewrite Z.mod_small by lia. lia.
Qed.

Lemma swap_count (n : Z) :
  1 <= n <= 16 ->
  u32 (u32 ((OP_SWAP1 + n - 1) mod 256 - OP_SWAP1 + 1) + 1) = n + 1.
Proof.
  intros Hn. unfold OP_SWAP1, u32.
  rewrite (Z.mod_small (144 + n - 1)) by lia.
  rewrite (Z.mod_small (144 + n - 1 - 144 + 1)) by lia.
  rewrite Z.mod_small by lia. lia.
Qed.

Lemma push_count (n : Z) :
  1 <= n <= 32 -> u32 ((OP_PUSH1 + n - 1) mod 256 - OP_PUSH1 + 1) = n.
Proof.
  intros Hn. unfold OP_PUSH1, u32.
  rewrite (Z.mod_small (96 + n - 1)) by lia. rewrite Z.mod_small by lia. lia.
Qed.

Lemma log_count (n : Z) :
  0 <= n <= 4 -> u32 ((OP_LOG0 + n) mod 256 - OP_LOG0) = n.
Proof.
  intros Hn. unfold OP_LOG0, u32.
  rewrite (Z.mod_small (160 + n)) by lia. rewrite Z.mod_small by lia. lia.
Qed.

(** Like [hunfold], with [chargeGas] and [expandMemoryAndChargeGas] kept
    folded for the lemmas below. *)
Ltac hunfold_keep :=
  cbv delta [run bind ret Return throw EVM_REQUIRE EVM_STACK_CHECK getFrame
             putFrame modifyFrame getContext setStatus setReturnData
             freeBackFrame getCurFrame push pop peek poke out_of_gas_unless
             host_access_account host_get_balance host_account_exists
             host_get_code_size host_copy_code host_emit_log host_call];
  hsimpl.

(** Decide the tests between opcode constants. *)
Ltac eval_opcode_tests :=
  repeat match goal with
  | |- context [Z.eqb ?a ?b] =>
      is_const a; is_const b;
      let v := eval vm_compute in (Z.eqb a b) in
      change (Z.eqb a b) with v
  end;
  cbn [orb andb].

Lemma ltb_false (a b : Z) : b <= a -> (a <? b) = false.
Proof. intros. apply Z.ltb_ge. lia. Qed.

Lemma ltb_true (a b : Z) : a < b -> (a <? b) = true.
Proof. intros. apply Z.ltb_lt. lia. Qed.

Lemma leb_false (a b : Z) : b < a -> (a <=? b) = false.
Proof. intros. apply Z.leb_gt. lia. Qed.

Lemma leb_true (a b : Z) : a <= b -> (a <=? b) = true.
Proof. intros. apply Z.leb_le. lia. Qed.

(** ** Pure readings of the gas utilities *)

Lemma gas_after_charge_ok (g cost : Z) :
  0 <= g < 2 ^ 63 -> 0 <= cost <= g -> gas_after_charge g cost = g - cost.
Proof.
  intros Hg Hc. unfold gas_after_charge.
  rewrite (u64_small g) by lia.
  replace (g <? cost) with false by (symmetry; apply Z.ltb_ge; lia).
  apply i64_small. lia.
Qed.

Lemma gas_after_charge_fail (g cost : Z) :
  0 <= g < 2 ^ 63 -> g < cost -> gas_after_charge g cost = g.
Proof.
  intros Hg Hc. unfold gas_after_charge.
  rewrite (u64_small g) by lia.
  replace (g <? cost) with true by (symmetry; apply Z.ltb_lt; lia).
  reflexivity.
Qed.

(** ** Byte length *)

Lemma byte_length_zero_iff (e : Z) : 0 <= e -> (byte_length e = 0 <-> e = 0).
Proof.
  intros He. unfold byte_length.
  destruct (Z.leb_spec e 0); [split; intros; lia|].
  pose proof (Z.log2_nonneg e).
  assert (0 <= Z.log2 e / 8) by (apply Z.div_pos; lia).
  split; intros; lia.
Qed.

(** ** Errors a computation can throw *)

Lemma throws_only_ret {C A} Allowed (a : A) : @throws_only C A Allowed (ret a).
Proof. intros c e c' E. discriminate E. Qed.

Lemma throws_only_Return {C A} Allowed : @throws_only C A Allowed Return.
Proof. intros c e c' E. discriminate E. Qed.

Lemma throws_only_throw {C A} (Allowed : ErrorCode -> Prop) e :
  Allowed e -> @throws_only C A Allowed (throw e).
Proof. intros He c e' c' E. inversion E. subst. exact He. Qed.

Lemma throws_only_bind {C A B} Allowed (m : M C A) (k : A -> M C B) :
  throws_only Allowed m -> (forall a, throws_only Allowed (k a)) ->
  throws_only Allowed (bind m k).
Proof.
  intros Hm Hk c e c' E. unfold bind in E.
  destruct (m c) as [a c1|c1|e1 c1] eqn:Em.
  - exact (Hk a c1 e c' E).
  - discriminate E.
  - inversion E. subst. exact (Hm c e c' Em).
Qed.

Lemma throws_only_if {C A} Allowed (b : bool) (m1 m2 : M C A) :
  throws_only Allowed m1 -> throws_only Allowed m2 ->
  throws_only Allowed (if b then m1 else m2).
Proof. destruct b; auto. Qed.

Lemma throws_only_EVM_REQUIRE {C} (Allowed : ErrorCode -> Prop) b e :
  Allowed e -> @throws_only C unit Allowed (EVM_REQUIRE b e).
Proof.
  intros He. unfold EVM_REQUIRE.
  apply throws_only_if; [apply throws_only_ret | apply throws_only_throw, He].
Qed.

Create HintDb throws.
#[export] Hint Resolve throws_only_ret throws_only_Return throws_only_throw
  throws_only_if throws_only_EVM_REQUIRE : throws.

Section StackAndMetrics.

Context {HostState : Type}.
Variable evmc_get_instruction_metrics_table : evmc_revision -> Z -> Z.
Variable DEFAULT_REVISION : evmc_revision.

Local Abbreviation Ctx := (InterpreterExecContext HostState).

(** ** Stack operations *)

(** C7.  DUPn (n in 1..16) on a stack of height less than n, and SWAPn on a
    stack of height less than n+1, raise the stack-underflow error (the
    source names it [UnexpectedNumArgs]) and leave the context as it was. *)
Theorem DupHandler_SwapHandler_underflow (n : Z) (c : Ctx) f fs :
  1 <= n <= 16 -> Frames c = f :: fs ->
  (stackHeight f < n ->
   run (DupHandler_doExecute (OP_DUP1 + n - 1)) c = Raised UnexpectedNumArgs c) /\
  (stackHeight f < n + 1 ->
   run (SwapHandler_doExecute (OP_SWAP1 + n - 1)) c = Raised UnexpectedNumArgs c).
Proof.
  intros Hn Hf.
  destruct c as [frames rd st ij code h hc]. cbn [Frames] in Hf. subst frames.
  split; intros Hh.
  - unfold DupHandler_doExecute. rewrite (dup_count n Hn). hunfold.
    replace (n <=? stackHeight f) with false by (symmetry; apply Z.leb_gt; lia).
    reflexivity.
  - unfold SwapHandler_doExecute. rewrite (swap_count n Hn). hunfold.
    replace (n + 1 <=? stackHeight f) with false
      by (symmetry; apply Z.leb_gt; lia).
    reflexivity.
Qed.

(** C8.  With [pc + n] inside the code and room on the stack, PUSHn pushes
    the [n] immediate bytes and its handler advances pc by [n]; POP,
    dispatched at the next byte [pc + n + 1], restores the stack exactly and
    leaves pc there.  The static costs of the two handlers add up to 3 + 2
    when evmc's table has 3 for PUSH1 and 2 for POP. *)
Theorem PushHandler_then_PopHandler (n : Z) (c : Ctx) f fs :
  1 <= n <= 32 -> Frames c = f :: fs ->
  0 <= Pc f -> Pc f + n < size (Code c) -> size (Code c) < 2 ^ 64 ->
  stackHeight f < MAXSTACK ->
  evmc_get_instruction_metrics_table DEFAULT_REVISION OP_PUSH1 = 3 ->
  evmc_get_instruction_metrics_table DEFAULT_REVISION OP_POP = 2 ->
  let V := be_load (memcpy (repeat 0 32) (32 - n)
                           (slice (Code c) (Pc f + 1) n)) in
  let f1 := set_Pc (Pc f + n) (set_Stack (V :: Stack f) f) in
  run (PushHandler_doExecute (OP_PUSH1 + n - 1)) c
    = Done (set_Frames (f1 :: fs) c) /\
  run PopHandler_doExecute (set_Frames (set_Pc (Pc f1 + 1) f1 :: fs) c)
    = Done (set_Frames (set_Pc (Pc f + n + 1) f :: fs) c) /\
  PushHandler_calculateGas evmc_get_instruction_metrics_table DEFAULT_REVISION
  + PopHandler_calculateGas evmc_get_instruction_metrics_table DEFAULT_REVISION
    = 3 + 2.
Proof.
  intros Hn Hf Hpc Hcode Hsz Hh Hpush Hpop V f1. subst V f1.
  destruct c as [frames rd st ij code h hc].
  destruct f as [stk mem pc msg gr rev].
  unfold stackHeight in Hh. hsimpl in *. subst frames.
  assert (Hlt : (pc + n <? size code) = true) by (apply Z.ltb_lt; lia).
  assert (Hfull : (MAXSTACK <=? size stk) = false) by (apply Z.leb_gt; lia).
  repeat split.
  - unfold PushHandler_doExecute. rewrite (push_count n Hn). hunfold.
    rewrite !(u64_small (pc + n)) by lia. rewrite Hlt. hsimpl.
    unfold stackHeight. hsimpl. rewrite Hfull. hsimpl.
    rewrite (u64_small (pc + n)) by lia. reflexivity.
  - unfold PopHandler_doExecute. hunfold. unfold stackHeight. hsimpl.
    stack_check_ok. reflexivity.
  - unfold PushHandler_calculateGas, PopHandler_calculateGas. lia.
Qed.

(** ** EXP *)

(** C3, as the code has it.  The gas [ExpHandler::calculateGas] returns is
    the static cost of EXP in the metrics table of [DEFAULT_REVISION], for
    every exponent and every revision of the frame: no cost per byte of the
    exponent is in it, so it is the spec's charge exactly when the exponent
    is 0. *)
Theorem ExpHandler_calculateGas_static_only (rev : evmc_revision) (exponent : Z) :
  0 <= exponent ->
  let static_cost := evmc_get_instruction_metrics_table DEFAULT_REVISION OP_EXP in
  let charged :=
    ExpHandler_calculateGas evmc_get_instruction_metrics_table DEFAULT_REVISION in
  charged = static_cost /\
  (charged = exp_gas_spec rev static_cost exponent <-> exponent = 0).
Proof.
  intros He static_cost charged. subst charged static_cost.
  unfold ExpHandler_calculateGas. split; [reflexivity|].
  unfold exp_gas_spec. rewrite <- (byte_length_zero_iff exponent He).
  destruct (rev_ge rev EVMC_SPURIOUS_DRAGON); split; intros; lia.
Qed.

End StackAndMetrics.

Section MemoryBound.

Context {HostState : Type}.
Variable MAX_REQUIRED_MEMORY_SIZE : Z.

Local Abbreviation Ctx := (InterpreterExecContext HostState).

(** ** Gas charges on an explicit state *)

Lemma chargeGas_run (cost : Z) stk mem pc k fl d g rcp snd idata isz val salt ca
  gr rev fs rd st ij code (h : HostState) hc :
  chargeGas cost
    (mkCtx (mkFrame stk mem pc (mkMsg k fl d g rcp snd idata isz val salt ca)
                    gr rev :: fs) rd st ij code h hc)
  = Next (negb (u64 g <? cost))
      (mkCtx (mkFrame stk mem pc
                (mkMsg k fl d (gas_after_charge g cost) rcp snd idata isz val
                       salt ca) gr rev :: fs) rd st ij code h hc).
Proof.
  unfold chargeGas, gas_after_charge. hunfold_keep.
  destruct (u64 g <? cost); reflexivity.
Qed.

Lemma expandMemoryAndChargeGas_run (R : Z) stk mem pc k fl d g rcp snd idata
  isz val salt ca gr rev fs rd st ij code (h : HostState) hc :
  R <= MAX_REQUIRED_MEMORY_SIZE -> 0 <= g < 2 ^ 63 ->
  calculateMemoryExpansionCost (size mem) R <= g ->
  expandMemoryAndChargeGas MAX_REQUIRED_MEMORY_SIZE R
    (mkCtx (mkFrame stk mem pc (mkMsg k fl d g rcp snd idata isz val salt ca)
                    gr rev :: fs) rd st ij code h hc)
  = Next true
      (mkCtx (mkFrame stk (expand_to mem R) pc
                (mkMsg k fl d (g - calculateMemoryExpansionCost (size mem) R)
                       rcp snd idata isz val salt ca) gr rev :: fs)
             rd st ij code h hc).
Proof.
  intros HR Hg HE.
  pose proof (calculateMemoryExpansionCost_range (size mem) R) as HC.
  unfold expandMemoryAndChargeGas, expand_to. hunfold_keep.
  replace (R <=? MAX_REQUIRED_MEMORY_SIZE) with true
    by (symmetry; apply Z.leb_le; lia).
  hsimpl. rewrite chargeGas_run. hsimpl.
  rewrite (u64_small g) by lia.
  replace (g <? calculateMemoryExpansionCost (size mem) R) with false
    by (symmetry; apply Z.ltb_ge; lia).
  hsimpl. rewrite gas_after_charge_ok by lia.
  destruct (size mem <? R); reflexivity.
Qed.

(** ** Offsets of 64 bits and more *)


End MemoryBound.

Section HostCalls.

Context {HostState : Type}.
Variable Host : HostInterface HostState.
Variable MAX_REQUIRED_MEMORY_SIZE : Z.

Local Abbreviation Ctx := (InterpreterExecContext HostState).

(** ** Errors of LOG *)

Section ThrownErrors.

Variable Allowed : ErrorCode -> Prop.
Hypothesis Allowed_frame : Allowed EVMNoFrame.
Hypothesis Allowed_args : Allowed UnexpectedNumArgs.
Hypothesis Allowed_memory : Allowed EVMTooLargeRequiredMemory.

Lemma throws_only_getFrame : throws_only Allowed (@getFrame HostState).
Proof.
  intros c e c' E. unfold getFrame in E.
  destruct (Frames c); inversion E. subst. exact Allowed_frame.
Qed.

Lemma throws_only_putFrame f : throws_only Allowed (@putFrame HostState f).
Proof.
  intros c e c' E. unfold putFrame in E.
  destruct (Frames c); inversion E. subst. exact Allowed_frame.
Qed.

Lemma throws_only_setStatus s : throws_only Allowed (@setStatus HostState s).
Proof. intros c e c' E. discriminate E. Qed.

Lemma throws_only_host_emit_log a d n t :
  throws_only Allowed (host_emit_log Host a d n t).
Proof. intros c e c' E. discriminate E. Qed.

Hint Resolve throws_only_getFrame throws_only_putFrame throws_only_setStatus
  throws_only_host_emit_log : throws.

Ltac throws_step :=
  first [ solve [auto with throws]
        | apply throws_only_bind; [|intro]
        | apply throws_only_if ].

Lemma throws_only_modifyFrame g : throws_only Allowed (@modifyFrame HostState g).
Proof. unfold modifyFrame. repeat throws_step. Qed.

Lemma throws_only_pop : throws_only Allowed (@pop HostState).
Proof.
  unfold pop. apply throws_only_bind; [auto with throws|]. intro f.
  destruct (Stack f); repeat throws_step.
Qed.

Lemma throws_only_EVM_STACK_CHECK N :
  throws_only Allowed (@EVM_STACK_CHECK HostState N).
Proof. unfold EVM_STACK_CHECK. repeat throws_step. Qed.

Lemma throws_only_out_of_gas_unless ok :
  throws_only Allowed (@out_of_gas_unless HostState ok).
Proof. unfold out_of_gas_unless. repeat throws_step. Qed.

Lemma throws_only_chargeGas cost :
  throws_only Allowed (@chargeGas HostState cost).
Proof. unfold chargeGas. repeat throws_step. Qed.

Hint Resolve throws_only_modifyFrame throws_only_pop throws_only_EVM_STACK_CHECK
  throws_only_out_of_gas_unless throws_only_chargeGas : throws.

Lemma throws_only_expandMemoryAndChargeGas R :
  throws_only Allowed
    (@expandMemoryAndChargeGas HostState MAX_REQUIRED_MEMORY_SIZE R).
Proof. unfold expandMemoryAndChargeGas. repeat throws_step. Qed.

Lemma throws_only_pop_topics n : throws_only Allowed (@pop_topics HostState n).
Proof.
  induction n as [|n IH]; cbn [pop_topics]; repeat throws_step.
Qed.

Hint Resolve throws_only_expandMemoryAndChargeGas throws_only_pop_topics
  : throws.

(** LOGn throws for a missing frame, a short stack or a required size over
    the bound, and for nothing else. *)
Lemma throws_only_LogHandler op :
  throws_only Allowed (LogHandler_doExecute Host MAX_REQUIRED_MEMORY_SIZE op).
Proof. unfold LogHandler_doExecute. repeat throws_step. Qed.

End ThrownErrors.

(** ** LOG *)

Lemma pop_topics_app (topics rest mem : list Z) pc msg gr rev fs rd st ij code
  (h : HostState) hc :
  pop_topics (length topics)
    (mkCtx (mkFrame (topics ++ rest) mem pc msg gr rev :: fs) rd st ij code h hc)
  = Next topics (mkCtx (mkFrame rest mem pc msg gr rev :: fs) rd st ij code h hc).
Proof.
  induction topics as [|t topics IH]; [reflexivity|].
  cbn [length pop_topics app]. hunfold. rewrite IH. reflexivity.
Qed.

(** C10.  LOGn forms the required size as (offset + size) mod 2^64 without
    an overflow check.  When the truncated offset plus the truncated size
    reaches 2^64, the handler expands memory only to the wrapped size,
    charges for that, and emits the log for the original offset and size;
    RETURN, from the same stack, throws [IntegerOverflow], which LOGn throws
    from no context at all. *)
Theorem LogHandler_required_size_wraps (c : Ctx) f fs (n o s : Z)
  (topics rest : list Z) :
  Frames c = f :: fs -> isStaticMode f = false -> 0 <= n <= 4 ->
  Stack f = o :: s :: topics ++ rest -> length topics = nat_of n ->
  let Offset := uint256ToUint64 o in
  let Size := uint256ToUint64 s in
  2 ^ 64 <= Offset + Size ->
  let ReqSize := Offset + Size - 2 ^ 64 in
  ReqSize <= MAX_REQUIRED_MEMORY_SIZE ->
  0 <= gas (Msg f) < 2 ^ 63 ->
  let Cost := calculateMemoryExpansionCost (size (Memory f)) ReqSize in
  Cost + u64 (8 * Size) <= gas (Msg f) ->
  let mem' := if size (Memory f) <? ReqSize
              then resize (Memory f) ReqSize else Memory f in
  let f' := mkFrame rest mem' (Pc f)
                    (set_gas (gas (Msg f) - Cost - u64 (8 * Size)) (Msg f))
                    (GasRefund f) (Rev f) in
  run (LogHandler_doExecute Host MAX_REQUIRED_MEMORY_SIZE (OP_LOG0 + n)) c
  = Done (set_HostSt (emit_log Host (recipient (Msg f))
                               (slice mem' Offset Size) Size topics (HostSt c))
                     (set_Frames (f' :: fs) c)) /\
  run (ReturnHandler_doExecute MAX_REQUIRED_MEMORY_SIZE) c
  = Raised IntegerOverflow (set_Frames (set_Stack (topics ++ rest) f :: fs) c) /\
  (forall c0 e c1,
     run (LogHandler_doExecute Host MAX_REQUIRED_MEMORY_SIZE (OP_LOG0 + n)) c0
     = Raised e c1 -> e <> IntegerOverflow).
Proof.
  intros Hf Hstatic Hn Hs Hlen Offset Size Hwrap ReqSize Hmax Hgas Cost Hcost
         mem' f'.
  assert (Hnever : forall c0 e c1,
            run (LogHandler_doExecute Host MAX_REQUIRED_MEMORY_SIZE (OP_LOG0 + n))
                c0 = Raised e c1 -> e <> IntegerOverflow).
  { intros c0 e c1 E. unfold run in E.
    destruct (LogHandler_doExecute Host MAX_REQUIRED_MEMORY_SIZE (OP_LOG0 + n) c0)
      as [a c2|c2|e2 c2] eqn:EL; try discriminate E.
    inversion E. subst.
    apply (throws_only_LogHandler (fun e => e <> IntegerOverflow)
             ltac:(discriminate) ltac:(discriminate) ltac:(discriminate)
             (OP_LOG0 + n) c0 e c1 EL). }
  destruct c as [frames rd st ij code h hc].
  destruct f as [stk mem pc msg gr rev].
  destruct msg as [k fl d g rcp snd idata isz val salt ca].
  split; [|split; [|exact Hnever]]; clear Hnever.
  all: hsimpl in *; subst frames stk.
  all: pose proof (uint256ToUint64_range o) as HO.
  all: pose proof (uint256ToUint64_range s) as HS.
  all: fold Offset in HO; fold Size in HS.
  all: pose proof (calculateMemoryExpansionCost_range (size mem) ReqSize) as HC.
  all: fold Cost in HC.
  all: pose proof (u64_range (8 * Size)) as HL.
  all: assert (Hreq : u64 (Offset + Size) = ReqSize)
         by (unfold u64, ReqSize;
             rewrite <- (Z.mod_small (Offset + Size - 2 ^ 64) (2 ^ 64)) by lia;
             replace (Offset + Size) with (Offset + Size - 2 ^ 64 + 1 * 2 ^ 64)
               at 1 by lia;
             apply Z.mod_add; lia).
  - unfold LogHandler_doExecute. rewrite (log_count n Hn). hunfold.
    rewrite Hstatic. hsimpl. unfold stackHeight. hsimpl.
    replace (u32 (n + 2) <=? size (o :: s :: topics ++ rest)) with true.
    2:{ symmetry. apply Z.leb_le. unfold u32. rewrite Z.mod_small by lia.
        rewrite !size_cons. unfold size. rewrite length_app, Hlen.
        unfold nat_of. lia. }
    hsimpl. fold Offset Size. rewrite Hreq.
    replace (ReqSize <=? MAX_REQUIRED_MEMORY_SIZE) with true
      by (symmetry; apply Z.leb_le; lia).
    hsimpl. fold Cost.
    rewrite (u64_small g) by lia.
    replace (g <? Cost) with false by (symmetry; apply Z.ltb_ge; lia).
    hsimpl. rewrite (i64_small (g - Cost)) by lia.
    subst f' mem'.
    destruct (size mem <? ReqSize); hsimpl.
    all: rewrite (u64_small (g - Cost)) by lia.
    all: replace (g - Cost <? u64 (8 * Size)) with false
           by (symmetry; apply Z.ltb_ge; lia).
    all: hsimpl.
    all: rewrite (i64_small (g - Cost - u64 (8 * Size))) by lia.
    all: rewrite <- Hlen, pop_topics_app; hsimpl; reflexivity.
  - unfold ReturnHandler_doExecute. hunfold. unfold stackHeight. hsimpl.
    stack_check_ok. fold Offset Size.
    replace (Offset <=? UINT64_MAX) with true
      by (symmetry; apply Z.leb_le; unfold UINT64_MAX; lia).
    hsimpl. rewrite (u64_small Offset) by lia.
    replace (Offset <? UINT64_MAX - Size) with false
      by (symmetry; apply Z.ltb_ge; unfold UINT64_MAX; lia).
    reflexivity.
Qed.

(** ** CALL family *)

(** The CALL family up to the charge of the additional cost (lines
    [int64_t Cost = ...] to [chargeGas(Frame, Cost)]), for an execution that
    passes the earlier exits: what the handler does when the charge fails,
    and the frame's gas when it succeeds and the sub-call is made. *)
Lemma CallHandler_at_cost_charge (op : Z) (c : Ctx) f fs
  (Gas DestVal Value InputOffset InputSize OutputOffset OutputSize : Z)
  (rest : list Z) :
  op = OP_CALL \/ op = OP_CALLCODE \/ op = OP_DELEGATECALL \/ op = OP_STATICCALL ->
  let NeedValue := (op =? OP_CALL) || (op =? OP_CALLCODE) in
  Frames c = f :: fs ->
  Stack f = Gas :: DestVal
            :: (if NeedValue then [Value] else [])
            ++ InputOffset :: InputSize :: OutputOffset :: OutputSize :: rest ->
  stackHeight f <= MAXSTACK ->
  0 <= gas (Msg f) < 2 ^ 63 ->
  let Dest := trunc_address DestVal in
  let berlin := rev_ge (Rev f) EVMC_BERLIN in
  let acc := access_account Host Dest (HostSt c) in
  let h1 := if berlin then snd acc else HostSt c in
  let A := if berlin && is_cold (fst acc)
           then COLD_ACCOUNT_ACCESS_COST else WARM_ACCOUNT_ACCESS_COST in
  A <= gas (Msg f) ->
  depth (Msg f) < MAXSTACK ->
  (NeedValue = true -> Value <= get_balance Host h1 (recipient (Msg f))) ->
  let R1 := uint256ToUint64 (u256 (InputOffset + InputSize)) in
  let E1 := calculateMemoryExpansionCost (size (Memory f)) R1 in
  let mem1 := expand_to (Memory f) R1 in
  let R2 := uint256ToUint64 (u256 (OutputOffset + OutputSize)) in
  let E2 := calculateMemoryExpansionCost (size mem1) R2 in
  let mem2 := expand_to mem1 R2 in
  R1 <= MAX_REQUIRED_MEMORY_SIZE -> R2 <= MAX_REQUIRED_MEMORY_SIZE ->
  A + E1 + E2 <= gas (Msg f) ->
  let g3 := gas (Msg f) - A - E1 - E2 in
  (rev_ge (Rev f) EVMC_TANGERINE_WHISTLE = true \/ i64 Gas <= g3) ->
  (op = OP_CALL -> isStaticMode f = false) ->
  let Cost := (if NeedValue then CALL_VALUE_COST else 0)
              + (if (op =? OP_CALL) && negb (account_exists Host h1 Dest)
                 then ACCOUNT_CREATION_COST else 0) in
  (g3 < Cost ->
   run (CallHandler_doExecute Host MAX_REQUIRED_MEMORY_SIZE op) c
   = Done (mkCtx (mkFrame (0 :: 0 :: rest) mem2 (Pc f) (set_gas g3 (Msg f))
                          (GasRefund f) (Rev f) :: fs)
                 [] EVMC_OUT_OF_GAS (IsJump c) (Code c) h1 (HostCalls c))) /\
  (Cost <= g3 ->
   exists c' f' NewMsg,
     run (CallHandler_doExecute Host MAX_REQUIRED_MEMORY_SIZE op) c = Done c' /\
     Frames c' = f' :: fs /\
     HostCalls c' = NewMsg :: HostCalls c /\
     gas (Msg f')
     = gas_after_charge (g3 - Cost)
         (u64 (i64 (gas NewMsg - gas_left (fst (call Host NewMsg h1)))))).
Proof.
  intros Hop NeedValue Hf Hs Hh Hg Dest berlin acc h1 A HA Hd Hbal R1 E1 mem1
         R2 E2 mem2 HR1 HR2 HE g3 Htw Hstatic Cost.
  destruct c as [frames rd st ij code h hc].
  destruct f as [stk mem pc msg gr rev].
  destruct msg as [k fl d g rcp sndr idata isz val salt ca].
  unfold stackHeight in Hh. hsimpl in *. subst frames.
  unfold isStaticMode in Hstatic. hsimpl in Hstatic.
  pose proof (calculateMemoryExpansionCost_range (size mem) R1) as HE1.
  pose proof (calculateMemoryExpansionCost_range (size mem1) R2) as HE2.
  fold E1 in HE1. fold E2 in HE2.
  pose proof (size_nonneg rest) as Hrest.
  assert (Hdepth : (MAXSTACK <=? d) = false) by (apply Z.leb_gt; lia).
  subst berlin acc.
  destruct (rev_ge rev EVMC_BERLIN) eqn:Hb;
    [destruct (access_account Host Dest h) as [status h'] eqn:Hacc;
     destruct status|].
  all: cbn [andb is_cold] in *.
  all: subst h1 A.
  all: destruct Hop as [-> | [-> | [-> | ->]]].
  all: subst NeedValue Cost;
       cbv [OP_CALL OP_CALLCODE OP_DELEGATECALL OP_STATICCALL Z.eqb Pos.eqb
            orb andb app] in Hs, Hbal.
  all: subst stk; rewrite !size_cons in Hh.
  all: assert (Hpush : (MAXSTACK <=? size rest) = false)
         by (apply Z.leb_gt; unfold MAXSTACK in *; lia).
  all: assert (Hpush' : (MAXSTACK <=? size (0 :: rest)) = false)
         by (apply Z.leb_gt; rewrite size_cons; unfold MAXSTACK in *; lia).
  all: unfold CallHandler_doExecute; eval_opcode_tests; hunfold_keep;
       unfold stackHeight; hsimpl; stack_check_ok;
       rewrite Hpush; hsimpl; rewrite Hb; hsimpl; fold Dest;
       rewrite ?Hacc; hsimpl; cbn [is_cold]; hsimpl;
       rewrite chargeGas_run; hsimpl;
       rewrite (u64_small g) by lia.
  all: unfold COLD_ACCOUNT_ACCESS_COST, WARM_ACCOUNT_ACCESS_COST in *.
  all: rewrite (ltb_false g _) by lia;
       rewrite (gas_after_charge_ok g _) by lia.
  all: hsimpl; rewrite Hdepth; hsimpl.
  all: try rewrite (ltb_false _ Value) by (specialize (Hbal eq_refl); lia).
  all: cbn [andb]; hsimpl; fold R1;
       rewrite expandMemoryAndChargeGas_run by (fold E1; lia);
       fold E1 mem1; hsimpl; fold R2;
       rewrite expandMemoryAndChargeGas_run by (fold E2; lia);
       fold E2 mem2; hsimpl; fold g3.
  all: assert (Hgas_ok : (g3 <? i64 Gas) = false
                         \/ rev_ge rev EVMC_TANGERINE_WHISTLE = true)
         by (destruct Htw as [Htw | Htw];
             [now right | left; apply Z.ltb_ge; lia]).
  all: destruct (rev_ge rev EVMC_TANGERINE_WHISTLE);
         [|destruct Hgas_ok as [Hgas_ok | Hgas_ok];
           [rewrite Hgas_ok | discriminate]].
  all: hsimpl; unfold isStaticMode; hsimpl; rewrite ?Hstatic by reflexivity;
       hsimpl.
  all: try (destruct (account_exists Host _ Dest); hsimpl).
  all: rewrite chargeGas_run; hsimpl.
  all: unfold CALL_VALUE_COST, ACCOUNT_CREATION_COST in *.
  all: rewrite (u64_small g3) by lia.
  all: first [rewrite (u64_small (9000 + 25000)) by lia
             | rewrite (u64_small (9000 + 0)) by lia
             | rewrite (u64_small (0 + 0)) by lia
             | rewrite (u64_small 9000) by lia
             | rewrite (u64_small 0) by lia ].
  all: split; intros Hcost.
  all: try (exfalso; lia).
  all: try solve [ rewrite (ltb_true g3 _) by lia;
      rewrite (gas_after_charge_fail g3 _) by lia;
      hsimpl; rewrite Hpush'; reflexivity ].
  all: rewrite (ltb_false g3 _) by lia;
      rewrite (gas_after_charge_ok g3 _) by lia;
      hsimpl;
      match goal with
      | |- context [is_success ?s] => destruct (is_success s)
      end;
      hsimpl; rewrite ?Hpush; hsimpl.
  all: match goal with
      | |- context [0 <? ?n] => destruct (0 <? n)
      end;
      hsimpl; rewrite chargeGas_run; hsimpl.
  all: eexists _, _, _; split; [reflexivity|];
      split; [reflexivity|]; split; [reflexivity|]. 
  all: reflexivity.
Qed.

(** C1, as the code has it.  When a CALL or CALLCODE passes the earlier
    exits and the charge of the additional cost fails, the handler sets
    out-of-gas and pushes a second 0: the stack holds two pushed zeros above
    what was below the arguments, and no sub-call is made. *)
Theorem CallHandler_out_of_gas_pushes_second_zero (op : Z) (c : Ctx) f fs
  (Gas DestVal Value InputOffset InputSize OutputOffset OutputSize : Z)
  (rest : list Z) :
  op = OP_CALL \/ op = OP_CALLCODE ->
  Frames c = f :: fs ->
  Stack f = Gas :: DestVal :: Value :: InputOffset :: InputSize
            :: OutputOffset :: OutputSize :: rest ->
  stackHeight f <= MAXSTACK ->
  0 <= gas (Msg f) < 2 ^ 63 ->
  let Dest := trunc_address DestVal in
  let berlin := rev_ge (Rev f) EVMC_BERLIN in
  let acc := access_account Host Dest (HostSt c) in
  let h1 := if berlin then snd acc else HostSt c in
  let A := if berlin && is_cold (fst acc)
           then COLD_ACCOUNT_ACCESS_COST else WARM_ACCOUNT_ACCESS_COST in
  A <= gas (Msg f) ->
  depth (Msg f) < MAXSTACK ->
  Value <= get_balance Host h1 (recipient (Msg f)) ->
  let R1 := uint256ToUint64 (u256 (InputOffset + InputSize)) in
  let E1 := calculateMemoryExpansionCost (size (Memory f)) R1 in
  let mem1 := expand_to (Memory f) R1 in
  let R2 := uint256ToUint64 (u256 (OutputOffset + OutputSize)) in
  let E2 := calculateMemoryExpansionCost (size mem1) R2 in
  let mem2 := expand_to mem1 R2 in
  R1 <= MAX_REQUIRED_MEMORY_SIZE -> R2 <= MAX_REQUIRED_MEMORY_SIZE ->
  A + E1 + E2 <= gas (Msg f) ->
  let g3 := gas (Msg f) - A - E1 - E2 in
  (rev_ge (Rev f) EVMC_TANGERINE_WHISTLE = true \/ i64 Gas <= g3) ->
  (op = OP_CALL -> isStaticMode f = false) ->
  let Cost := CALL_VALUE_COST
              + (if (op =? OP_CALL) && negb (account_exists Host h1 Dest)
                 then ACCOUNT_CREATION_COST else 0) in
  g3 < Cost ->
  run (CallHandler_doExecute Host MAX_REQUIRED_MEMORY_SIZE op) c
  = Done (mkCtx (mkFrame (0 :: 0 :: rest) mem2 (Pc f) (set_gas g3 (Msg f))
                         (GasRefund f) (Rev f) :: fs)
                [] EVMC_OUT_OF_GAS (IsJump c) (Code c) h1 (HostCalls c)).
Proof.
  intros Hop Hf Hs Hh Hg Dest berlin acc h1 A HA Hd Hbal R1 E1 mem1 R2 E2 mem2
         HR1 HR2 HE g3 Htw Hstatic Cost Hoog.
  assert (Hop4 : op = OP_CALL \/ op = OP_CALLCODE \/ op = OP_DELEGATECALL
                 \/ op = OP_STATICCALL) by tauto.
  assert (Hnv : (op =? OP_CALL) || (op =? OP_CALLCODE) = true)
    by (destruct Hop as [-> | ->]; reflexivity).
  pose proof (CallHandler_at_cost_charge op c f fs Gas DestVal Value InputOffset
                InputSize OutputOffset OutputSize rest Hop4) as Hcharge.
  cbv zeta in Hcharge. rewrite Hnv in Hcharge.
  apply Hcharge; auto.
Qed.

(** C2, as the code has it.  A CALL-family execution that passes the earlier
    exits and affords the additional cost makes the sub-call, and the cost it
    charged holds [CALL_VALUE_COST] exactly when the opcode is CALL or
    CALLCODE, whatever the popped value (0 included); DELEGATECALL and
    STATICCALL never carry it.  The frame's gas at the end is the gas before
    the charge, less that cost, less what the sub-call used. *)
Theorem CallHandler_value_cost_by_opcode (op : Z) (c : Ctx) f fs
  (Gas DestVal Value InputOffset InputSize OutputOffset OutputSize : Z)
  (rest : list Z) :
  op = OP_CALL \/ op = OP_CALLCODE \/ op = OP_DELEGATECALL \/ op = OP_STATICCALL ->
  let NeedValue := (op =? OP_CALL) || (op =? OP_CALLCODE) in
  Frames c = f :: fs ->
  Stack f = Gas :: DestVal
            :: (if NeedValue then [Value] else [])
            ++ InputOffset :: InputSize :: OutputOffset :: OutputSize :: rest ->
  stackHeight f <= MAXSTACK ->
  0 <= gas (Msg f) < 2 ^ 63 ->
  let Dest := trunc_address DestVal in
  let berlin := rev_ge (Rev f) EVMC_BERLIN in
  let acc := access_account Host Dest (HostSt c) in
  let h1 := if berlin then snd acc else HostSt c in
  let A := if berlin && is_cold (fst acc)
           then COLD_ACCOUNT_ACCESS_COST else WARM_ACCOUNT_ACCESS_COST in
  A <= gas (Msg f) ->
  depth (Msg f) < MAXSTACK ->
  (NeedValue = true -> Value <= get_balance Host h1 (recipient (Msg f))) ->
  let R1 := uint256ToUint64 (u256 (InputOffset + InputSize)) in
  let E1 := calculateMemoryExpansionCost (size (Memory f)) R1 in
  let mem1 := expand_to (Memory f) R1 in
  let R2 := uint256ToUint64 (u256 (OutputOffset + OutputSize)) in
  let E2 := calculateMemoryExpansionCost (size mem1) R2 in
  R1 <= MAX_REQUIRED_MEMORY_SIZE -> R2 <= MAX_REQUIRED_MEMORY_SIZE ->
  A + E1 + E2 <= gas (Msg f) ->
  let g3 := gas (Msg f) - A - E1 - E2 in
  (rev_ge (Rev f) EVMC_TANGERINE_WHISTLE = true \/ i64 Gas <= g3) ->
  (op = OP_CALL -> isStaticMode f = false) ->
  let Creation := if (op =? OP_CALL) && negb (account_exists Host h1 Dest)
                  then ACCOUNT_CREATION_COST else 0 in
  let Cost := (if NeedValue then CALL_VALUE_COST else 0) + Creation in
  Cost <= g3 ->
  exists c' f' NewMsg,
    run (CallHandler_doExecute Host MAX_REQUIRED_MEMORY_SIZE op) c = Done c' /\
    Frames c' = f' :: fs /\
    HostCalls c' = NewMsg :: HostCalls c /\
    gas (Msg f')
    = gas_after_charge (g3 - Cost)
        (u64 (i64 (gas NewMsg - gas_left (fst (call Host NewMsg h1))))).
Proof.
  intros Hop NeedValue Hf Hs Hh Hg Dest berlin acc h1 A HA Hd Hbal R1 E1 mem1
         R2 E2 HR1 HR2 HE g3 Htw Hstatic Creation Cost Hcost.
  pose proof (CallHandler_at_cost_charge op c f fs Gas DestVal Value InputOffset
                InputSize OutputOffset OutputSize rest Hop) as Hcharge.
  cbv zeta in Hcharge.
  apply Hcharge; auto.
Qed.

(** ** Light failures *)

(** The CALL family at the light-failure exits: the depth limit is reached,
    or the opcode carries a value that exceeds the balance. *)
Lemma CallHandler_light_failure (op : Z) (c : Ctx) f fs
  (Gas DestVal Value InputOffset InputSize OutputOffset OutputSize : Z)
  (rest : list Z) :
  op = OP_CALL \/ op = OP_CALLCODE \/ op = OP_DELEGATECALL \/ op = OP_STATICCALL ->
  let NeedValue := (op =? OP_CALL) || (op =? OP_CALLCODE) in
  Frames c = f :: fs ->
  Stack f = Gas :: DestVal
            :: (if NeedValue then [Value] else [])
            ++ InputOffset :: InputSize :: OutputOffset :: OutputSize :: rest ->
  stackHeight f <= MAXSTACK ->
  0 <= gas (Msg f) < 2 ^ 63 ->
  let Dest := trunc_address DestVal in
  let berlin := rev_ge (Rev f) EVMC_BERLIN in
  let acc := access_account Host Dest (HostSt c) in
  let h1 := if berlin then snd acc else HostSt c in
  let A := if berlin && is_cold (fst acc)
           then COLD_ACCOUNT_ACCESS_COST else WARM_ACCOUNT_ACCESS_COST in
  MAXSTACK <= depth (Msg f)
  \/ (NeedValue = true /\ get_balance Host h1 (recipient (Msg f)) < Value) ->
  run (CallHandler_doExecute Host MAX_REQUIRED_MEMORY_SIZE op) c
  = Done (mkCtx (mkFrame (0 :: rest) (Memory f) (Pc f)
                         (set_gas (if A <=? gas (Msg f)
                                   then gas (Msg f) - A else gas (Msg f))
                                  (Msg f))
                         (GasRefund f) (Rev f) :: fs)
                []
                (if A <=? gas (Msg f) then EVMC_SUCCESS else EVMC_OUT_OF_GAS)
                (IsJump c) (Code c) h1 (HostCalls c)).
Proof.
  intros Hop NeedValue Hf Hs Hh Hg Dest berlin acc h1 A Hlight.
  destruct c as [frames rd st ij code h hc].
  destruct f as [stk mem pc msg gr rev].
  destruct msg as [k fl d g rcp sndr idata isz val salt ca].
  unfold stackHeight in Hh. hsimpl in *. subst frames.
  pose proof (size_nonneg rest) as Hrest.
  subst berlin acc.
  destruct (rev_ge rev EVMC_BERLIN) eqn:Hb;
    [destruct (access_account Host Dest h) as [status h'] eqn:Hacc;
     destruct status|].
  all: cbn [andb is_cold] in *.
  all: subst h1 A.
  all: destruct Hop as [-> | [-> | [-> | ->]]].
  all: subst NeedValue;
       cbv [OP_CALL OP_CALLCODE OP_DELEGATECALL OP_STATICCALL Z.eqb Pos.eqb
            orb andb app] in Hs, Hlight.
  all: subst stk; rewrite !size_cons in Hh.
  all: assert (Hpush : (MAXSTACK <=? size rest) = false)
         by (apply Z.leb_gt; unfold MAXSTACK in *; lia).
  all: unfold CallHandler_doExecute; eval_opcode_tests; hunfold_keep;
       unfold stackHeight; hsimpl; stack_check_ok;
       rewrite Hpush; hsimpl; rewrite Hb; hsimpl; fold Dest;
       rewrite ?Hacc; hsimpl; cbn [is_cold]; hsimpl;
       rewrite chargeGas_run; hsimpl;
       rewrite (u64_small g) by lia.
  all: unfold COLD_ACCOUNT_ACCESS_COST, WARM_ACCOUNT_ACCESS_COST in *.
  all: match goal with
       | |- context [?A <=? ?x] =>
           destruct (Z.leb_spec A x);
           [ rewrite (ltb_false x A) by lia;
             rewrite (gas_after_charge_ok x A) by lia
           | rewrite (ltb_true x A) by lia;
             rewrite (gas_after_charge_fail x A) by lia ]
       end; hsimpl; try reflexivity.
  all: destruct Hlight as [Hdeep | [Hnv Hpoor]]; try discriminate.
  all: try (rewrite (leb_true MAXSTACK d) by lia; hsimpl; reflexivity).
  all: destruct (MAXSTACK <=? d); hsimpl; try reflexivity.
  all: rewrite (ltb_true _ Value) by lia; cbn [andb]; hsimpl; reflexivity.
Qed.

(** CREATE and CREATE2 at the light-failure exits. *)
Lemma CreateHandler_light_failure (op : Z) (c : Ctx) f fs
  (Value CodeOffset CodeSizeVal Salt : Z) (rest : list Z) :
  op = OP_CREATE \/ op = OP_CREATE2 ->
  Frames c = f :: fs ->
  Stack f = Value :: CodeOffset :: CodeSizeVal
            :: (if op =? OP_CREATE2 then [Salt] else []) ++ rest ->
  stackHeight f <= MAXSTACK ->
  0 <= gas (Msg f) < 2 ^ 63 ->
  let shanghai := rev_ge (Rev f) EVMC_SHANGHAI in
  let TooLarge := shanghai && (MAX_SIZE_OF_INITCODE <? CodeSizeVal) in
  let InitCodeCost :=
    u64 ((6 * (if op =? OP_CREATE2 then 1 else 0)
          + 2 * (if shanghai then 1 else 0))
         * uint256ToUint64 (u256 (CodeSizeVal + 31) / 32)) in
  MAXSTACK <= depth (Msg f)
  \/ get_balance Host (HostSt c) (recipient (Msg f)) < Value ->
  run (CreateHandler_doExecute Host MAX_REQUIRED_MEMORY_SIZE op) c
  = Done (mkCtx (mkFrame (0 :: rest) (Memory f) (Pc f)
                         (set_gas (if isStaticMode f || TooLarge
                                   then gas (Msg f)
                                   else if InitCodeCost <=? gas (Msg f)
                                   then gas (Msg f) - InitCodeCost
                                   else gas (Msg f))
                                  (Msg f))
                         (GasRefund f) (Rev f) :: fs)
                []
                (if isStaticMode f then EVMC_STATIC_MODE_VIOLATION
                 else if TooLarge then EVMC_OUT_OF_GAS
                 else if InitCodeCost <=? gas (Msg f) then EVMC_SUCCESS
                 else EVMC_OUT_OF_GAS)
                (IsJump c) (Code c) (HostSt c) (HostCalls c)).
Proof.
  intros Hop Hf Hs Hh Hg shanghai TooLarge InitCodeCost Hlight.
  destruct c as [frames rd st ij code h hc].
  destruct f as [stk mem pc msg gr rev].
  destruct msg as [k fl d g rcp sndr idata isz val salt ca].
  unfold stackHeight in Hh. unfold isStaticMode. hsimpl in *. subst frames.
  pose proof (size_nonneg rest) as Hrest.
  pose proof (u64_range
    ((6 * (if op =? OP_CREATE2 then 1 else 0)
      + 2 * (if shanghai then 1 else 0))
     * uint256ToUint64 (u256 (CodeSizeVal + 31) / 32))) as Hcost.
  fold InitCodeCost in Hcost.
  destruct Hop as [-> | ->].
  all: cbv [OP_CREATE OP_CREATE2 Z.eqb Pos.eqb app] in Hs.
  all: subst stk; rewrite !size_cons in Hh.
  all: assert (Hpush : (MAXSTACK <=? size rest) = false)
         by (apply Z.leb_gt; unfold MAXSTACK in *; lia).
  all: unfold CreateHandler_doExecute; eval_opcode_tests; hunfold_keep;
       unfold stackHeight; hsimpl; stack_check_ok;
       rewrite Hpush; hsimpl; unfold isStaticMode; hsimpl.
  all: destruct (Z.land fl EVMC_STATIC =? 0); hsimpl; cbn [orb];
       [|reflexivity].
  all: subst TooLarge; fold shanghai.
  all: destruct (shanghai && (MAX_SIZE_OF_INITCODE <? CodeSizeVal));
       hsimpl; [reflexivity|].
  all: revert Hcost; subst InitCodeCost; eval_opcode_tests; intros Hcost.
  all: rewrite chargeGas_run; hsimpl; rewrite (u64_small g) by lia.
  all: match goal with
       | |- context [gas_after_charge ?x ?A] =>
           destruct (Z.leb_spec A x);
           [ rewrite (ltb_false x A) by lia;
             rewrite (gas_after_charge_ok x A) by lia
           | rewrite (ltb_true x A) by lia;
             rewrite (gas_after_charge_fail x A) by lia ]
       end; hsimpl; try reflexivity.
  all: destruct Hlight as [Hdeep | Hpoor].
  all: try (rewrite (leb_true MAXSTACK d) by lia; hsimpl; reflexivity).
  all: destruct (MAXSTACK <=? d); hsimpl; try reflexivity.
  all: rewrite (ltb_true _ Value) by lia; hsimpl; reflexivity.
Qed.

(** C6, as the code has it.  When the depth limit is reached, or the value
    exceeds the balance (for the CALL family: on an opcode that carries a
    value), CREATE/CREATE2 and the CALL family complete with the assumed 0 on
    top of what was below the arguments and without a call to the Host.  The
    status is success when the exits before the light failure do not fire:
    for CREATE/CREATE2 the frame is not static, the initcode size is within
    the Shanghai limit and the initcode gas is affordable; for the CALL
    family the account-access gas is affordable. *)
Theorem light_failure_keeps_zero_without_host_call :
  (forall (op : Z) (c : Ctx) f fs (Value CodeOffset CodeSizeVal Salt : Z)
          (rest : list Z),
      op = OP_CREATE \/ op = OP_CREATE2 ->
      Frames c = f :: fs ->
      Stack f = Value :: CodeOffset :: CodeSizeVal
                :: (if op =? OP_CREATE2 then [Salt] else []) ++ rest ->
      stackHeight f <= MAXSTACK ->
      0 <= gas (Msg f) < 2 ^ 63 ->
      MAXSTACK <= depth (Msg f)
      \/ get_balance Host (HostSt c) (recipient (Msg f)) < Value ->
      let shanghai := rev_ge (Rev f) EVMC_SHANGHAI in
      let InitCodeCost :=
        u64 ((6 * (if op =? OP_CREATE2 then 1 else 0)
              + 2 * (if shanghai then 1 else 0))
             * uint256ToUint64 (u256 (CodeSizeVal + 31) / 32)) in
      exists c' f',
        run (CreateHandler_doExecute Host MAX_REQUIRED_MEMORY_SIZE op) c
        = Done c' /\
        Frames c' = f' :: fs /\ Stack f' = 0 :: rest /\
        HostCalls c' = HostCalls c /\
        (isStaticMode f = false ->
         shanghai && (MAX_SIZE_OF_INITCODE <? CodeSizeVal) = false ->
         InitCodeCost <= gas (Msg f) ->
         Status c' = EVMC_SUCCESS)) /\
  (forall (op : Z) (c : Ctx) f fs
          (Gas DestVal Value InputOffset InputSize OutputOffset OutputSize : Z)
          (rest : list Z),
      op = OP_CALL \/ op = OP_CALLCODE \/ op = OP_DELEGATECALL
      \/ op = OP_STATICCALL ->
      let NeedValue := (op =? OP_CALL) || (op =? OP_CALLCODE) in
      Frames c = f :: fs ->
      Stack f = Gas :: DestVal
                :: (if NeedValue then [Value] else [])
                ++ InputOffset :: InputSize :: OutputOffset :: OutputSize
                :: rest ->
      stackHeight f <= MAXSTACK ->
      0 <= gas (Msg f) < 2 ^ 63 ->
      let Dest := trunc_address DestVal in
      let berlin := rev_ge (Rev f) EVMC_BERLIN in
      let acc := access_account Host Dest (HostSt c) in
      let h1 := if berlin then snd acc else HostSt c in
      let A := if berlin && is_cold (fst acc)
               then COLD_ACCOUNT_ACCESS_COST else WARM_ACCOUNT_ACCESS_COST in
      MAXSTACK <= depth (Msg f)
      \/ (NeedValue = true
          /\ get_balance Host h1 (recipient (Msg f)) < Value) ->
      exists c' f',
        run (CallHandler_doExecute Host MAX_REQUIRED_MEMORY_SIZE op) c
        = Done c' /\
        Frames c' = f' :: fs /\ Stack f' = 0 :: rest /\
        HostCalls c' = HostCalls c /\
        (A <= gas (Msg f) -> Status c' = EVMC_SUCCESS)).
Proof.
  split.
  - intros op c f fs Value CodeOffset CodeSizeVal Salt rest Hop Hf Hs Hh Hg
           Hlight shanghai InitCodeCost.
    pose proof (CreateHandler_light_failure op c f fs Value CodeOffset
                  CodeSizeVal Salt rest Hop Hf Hs Hh Hg Hlight) as Hrun.
    cbv zeta in Hrun. fold shanghai InitCodeCost in Hrun.
    eexists _, _. split; [exact Hrun|].
    split; [reflexivity|]. split; [reflexivity|]. split; [reflexivity|].
    intros Hstatic Hsize Hafford. cbn [Status].
    rewrite Hstatic, Hsize. now rewrite (leb_true _ _ Hafford).
  - intros op c f fs Gas DestVal Value InputOffset InputSize OutputOffset
           OutputSize rest Hop NeedValue Hf Hs Hh Hg Dest berlin acc h1 A
           Hlight.
    pose proof (CallHandler_light_failure op c f fs Gas DestVal Value
                  InputOffset InputSize OutputOffset OutputSize rest Hop Hf Hs
                  Hh Hg Hlight) as Hrun.
    cbv zeta in Hrun. fold Dest berlin acc h1 A in Hrun.
    eexists _, _. split; [exact Hrun|].
    split; [reflexivity|]. split; [reflexivity|]. split; [reflexivity|].
    intros Hafford. cbn [Status]. now rewrite (leb_true _ _ Hafford).
Qed.

End HostCalls.

(** ** The properties at concrete inputs *)

(** C4 at a failing input: offset 64 and size 0 on empty memory, 100 gas.
    KECCAK256 and LOG0 leave 64 bytes of memory and 94 gas, RETURN and REVERT
    hand 94 gas to the parent (1000 before): the expansion to 64 bytes was
    made and its 6 gas charged.  CALLDATACOPY with the same destination and
    size leaves memory empty and the gas at 100. *)
Theorem zero_size_access_expands_memory :
  let child s := example_frame s (example_msg 0 0 100) EVMC_CANCUN in
  let parent := example_frame [] (example_msg 0 0 1000) EVMC_CANCUN in
  observe (run (Keccak256Handler_doExecute example_memory_bound example_keccak256)
               (example_context [child [64; 0]] []))
  = Some (EVMC_SUCCESS, [([0], 64, 94)]) /\
  observe (run (LogHandler_doExecute example_host example_memory_bound OP_LOG0)
               (example_context [child [64; 0]] []))
  = Some (EVMC_SUCCESS, [([], 64, 94)]) /\
  observe (run (ReturnHandler_doExecute example_memory_bound)
               (example_context [child [64; 0]; parent] []))
  = Some (EVMC_SUCCESS, [([], 0, 1094)]) /\
  observe (run (RevertHandler_doExecute example_memory_bound)
               (example_context [child [64; 0]; parent] []))
  = Some (EVMC_REVERT, [([], 0, 1094)]) /\
  observe (run (CallDataCopyHandler_doExecute example_memory_bound)
               (example_context [child [64; 0; 0]] []))
  = Some (EVMC_SUCCESS, [([], 0, 100)]).
Proof. vm_compute. repeat split. Qed.

(** C1 at a failing input: CALL with 5000 gas to a warm, existing account.
    After the 100 of the warm access the 9000 of the additional cost are not
    affordable; the handler ends out of gas with two zeros on the stack. *)
Lemma CallHandler_out_of_gas_pushes_second_zero_witness :
  observe (run (CallHandler_doExecute example_host example_memory_bound OP_CALL)
               (example_context
                  [example_frame [0; 5; 0; 0; 0; 0; 0] (example_msg 0 0 5000)
                                 EVMC_CANCUN] []))
  = Some (EVMC_OUT_OF_GAS, [([0; 0], 0, 4900)]).
Proof.
  rewrite (CallHandler_out_of_gas_pushes_second_zero
             example_host example_memory_bound OP_CALL
             (example_context
                [example_frame [0; 5; 0; 0; 0; 0; 0] (example_msg 0 0 5000)
                               EVMC_CANCUN] [])
             (example_frame [0; 5; 0; 0; 0; 0; 0] (example_msg 0 0 5000)
                            EVMC_CANCUN)
             [] 0 5 0 0 0 0 0 []).
  - reflexivity.
  - left; reflexivity.
  - reflexivity.
  - reflexivity.
  - vm_compute; discriminate.
  - vm_compute; split; [discriminate | reflexivity].
  - vm_compute; discriminate.
  - vm_compute; reflexivity.
  - vm_compute; discriminate.
  - vm_compute; discriminate.
  - vm_compute; discriminate.
  - vm_compute; discriminate.
  - left; reflexivity.
  - intros _; reflexivity.
  - vm_compute; reflexivity.
Defined.

(** C2, as stated, fails for a CALL whose popped value is 0: of 20000 gas,
    100 go to the warm access and 9000 to [CALL_VALUE_COST]; the sub-call
    uses none. *)
Lemma CallHandler_zero_value_charged :
  observe (run (CallHandler_doExecute example_host example_memory_bound OP_CALL)
               (example_context
                  [example_frame [0; 5; 0; 0; 0; 0; 0] (example_msg 0 0 20000)
                                 EVMC_CANCUN] []))
  = Some (EVMC_SUCCESS,
          [([1], 0, 20000 - WARM_ACCOUNT_ACCESS_COST - CALL_VALUE_COST)]).
Proof. vm_compute. reflexivity. Qed.

Lemma CallHandler_value_cost_by_opcode_witness :
  exists c' f',
    run (CallHandler_doExecute example_host example_memory_bound OP_CALL)
        (example_context
           [example_frame [0; 5; 0; 0; 0; 0; 0] (example_msg 0 0 20000)
                          EVMC_CANCUN] [])
    = Done c' /\
    Frames c' = [f'] /\ gas (Msg f') = 20000 - 100 - 9000.
Proof.
  destruct (CallHandler_value_cost_by_opcode
              example_host example_memory_bound OP_CALL
              (example_context
                 [example_frame [0; 5; 0; 0; 0; 0; 0] (example_msg 0 0 20000)
                                EVMC_CANCUN] [])
              (example_frame [0; 5; 0; 0; 0; 0; 0] (example_msg 0 0 20000)
                             EVMC_CANCUN)
              [] 0 5 0 0 0 0 0 [])
    as (c' & f' & NewMsg & Hrun & Hframes & _ & Hgas).
  - left; reflexivity.
  - reflexivity.
  - reflexivity.
  - vm_compute; discriminate.
  - vm_compute; split; [discriminate | reflexivity].
  - vm_compute; discriminate.
  - vm_compute; reflexivity.
  - intros _; vm_compute; discriminate.
  - vm_compute; discriminate.
  - vm_compute; discriminate.
  - vm_compute; discriminate.
  - left; reflexivity.
  - intros _; reflexivity.
  - vm_compute; discriminate.
  - exists c', f'. split; [exact Hrun|]. split; [exact Hframes|].
    rewrite Hgas. cbn [call example_host fst gas_left]. rewrite Z.sub_diag.
    reflexivity.
Defined.

(** C3, as stated, fails for every exponent other than 0: with a static
    cost of 10 and the one-byte exponent 255 under Cancun the handler's gas
    is 10, the spec's 60. *)
Lemma ExpHandler_calculateGas_ignores_exponent :
  ExpHandler_calculateGas example_metrics EVMC_CANCUN = 10 /\
  rev_ge EVMC_CANCUN EVMC_SPURIOUS_DRAGON = true /\
  byte_length 255 = 1 /\
  exp_gas_spec EVMC_CANCUN 10 255 = 60.
Proof. vm_compute. repeat split. Qed.

Lemma ExpHandler_calculateGas_static_only_witness :
  ExpHandler_calculateGas example_metrics EVMC_CANCUN
  = example_metrics EVMC_CANCUN OP_EXP /\
  (ExpHandler_calculateGas example_metrics EVMC_CANCUN
   = exp_gas_spec EVMC_LONDON (example_metrics EVMC_CANCUN OP_EXP) 255
   <-> 255 = 0).
Proof.
  apply (ExpHandler_calculateGas_static_only example_metrics EVMC_CANCUN
           EVMC_LONDON 255).
  lia.
Defined.

(** C6, as stated, fails when an exit before the light failure fires: at
    depth 1024 a CREATE in a static frame ends with static-mode-violation,
    and a CALL that cannot pay the account access ends out of gas. *)
Lemma light_failure_behind_earlier_exits :
  (MAXSTACK <=? 1024) = true /\
  observe (run (CreateHandler_doExecute example_host example_memory_bound
                                        OP_CREATE)
               (example_context
                  [example_frame [0; 0; 0] (example_msg EVMC_STATIC 1024 100000)
                                 EVMC_CANCUN] []))
  = Some (EVMC_STATIC_MODE_VIOLATION, [([0], 0, 100000)]) /\
  observe (run (CallHandler_doExecute example_host example_memory_bound OP_CALL)
               (example_context
                  [example_frame [0; 5; 0; 0; 0; 0; 0] (example_msg 0 1024 50)
                                 EVMC_CANCUN] []))
  = Some (EVMC_OUT_OF_GAS, [([0], 0, 50)]).
Proof. vm_compute. repeat split. Qed.

Lemma light_failure_keeps_zero_without_host_call_witness :
  exists c' f',
    run (CreateHandler_doExecute example_host example_memory_bound OP_CREATE)
        (example_context
           [example_frame [0; 0; 0] (example_msg 0 1024 100000) EVMC_CANCUN] [])
    = Done c' /\
    Frames c' = [f'] /\ Stack f' = [0] /\ HostCalls c' = [] /\
    Status c' = EVMC_SUCCESS.
Proof.
  destruct (proj1 (light_failure_keeps_zero_without_host_call
                     example_host example_memory_bound)
              OP_CREATE
              (example_context
                 [example_frame [0; 0; 0] (example_msg 0 1024 100000)
                                EVMC_CANCUN] [])
              (example_frame [0; 0; 0] (example_msg 0 1024 100000) EVMC_CANCUN)
              [] 0 0 0 0 [])
    as (c' & f' & Hrun & Hframes & Hstack & Hcalls & Hstatus).
  - left; reflexivity.
  - reflexivity.
  - reflexivity.
  - vm_compute; discriminate.
  - vm_compute; split; [discriminate | reflexivity].
  - left; vm_compute; discriminate.
  - exists c', f'. repeat split; try assumption.
    apply Hstatus; vm_compute; try reflexivity; discriminate.
Defined.

Lemma DupHandler_SwapHandler_underflow_witness :
  run (DupHandler_doExecute (OP_DUP1 + 3 - 1))
      (example_context [example_frame [1; 2] (example_msg 0 0 100) EVMC_CANCUN] [])
  = Raised UnexpectedNumArgs
      (example_context [example_frame [1; 2] (example_msg 0 0 100) EVMC_CANCUN] [])
  /\
  run (SwapHandler_doExecute (OP_SWAP1 + 3 - 1))
      (example_context [example_frame [1; 2] (example_msg 0 0 100) EVMC_CANCUN] [])
  = Raised UnexpectedNumArgs
      (example_context [example_frame [1; 2] (example_msg 0 0 100) EVMC_CANCUN] []).
Proof.
  destruct (DupHandler_SwapHandler_underflow 3
              (example_context
                 [example_frame [1; 2] (example_msg 0 0 100) EVMC_CANCUN] [])
              (example_frame [1; 2] (example_msg 0 0 100) EVMC_CANCUN) []
              ltac:(lia) eq_refl) as [Hdup Hswap].
  split; [apply Hdup | apply Hswap]; vm_compute; reflexivity.
Defined.

Lemma PushHandler_then_PopHandler_witness :
  run (PushHandler_doExecute (OP_PUSH1 + 1 - 1))
      (example_context [example_frame [9] (example_msg 0 0 100) EVMC_CANCUN]
                       [96; 7; 80])
  = Done (example_context
            [set_Pc 1 (example_frame [7; 9] (example_msg 0 0 100) EVMC_CANCUN)]
            [96; 7; 80]) /\
  run PopHandler_doExecute
      (example_context
         [set_Pc 2 (example_frame [7; 9] (example_msg 0 0 100) EVMC_CANCUN)]
         [96; 7; 80])
  = Done (example_context
            [set_Pc 2 (example_frame [9] (example_msg 0 0 100) EVMC_CANCUN)]
            [96; 7; 80]) /\
  PushHandler_calculateGas example_metrics EVMC_CANCUN
  + PopHandler_calculateGas example_metrics EVMC_CANCUN = 3 + 2.
Proof.
  apply (PushHandler_then_PopHandler example_metrics EVMC_CANCUN 1
           (example_context
              [example_frame [9] (example_msg 0 0 100) EVMC_CANCUN] [96; 7; 80])
           (example_frame [9] (example_msg 0 0 100) EVMC_CANCUN) []).
  - lia.
  - reflexivity.
  - vm_compute; discriminate.
  - vm_compute; reflexivity.
  - vm_compute; reflexivity.
  - vm_compute; reflexivity.
  - reflexivity.
  - reflexivity.
Defined.


Lemma LogHandler_required_size_wraps_witness :
  exists c' c'',
    run (LogHandler_doExecute example_host example_memory_bound (OP_LOG0 + 0))
        (example_context
           [example_frame [2 ^ 64 - 1; 33] (example_msg 0 0 1000) EVMC_CANCUN] [])
    = Done c' /\
    run (ReturnHandler_doExecute example_memory_bound)
        (example_context
           [example_frame [2 ^ 64 - 1; 33] (example_msg 0 0 1000) EVMC_CANCUN] [])
    = Raised IntegerOverflow c''.
Proof.
  destruct (LogHandler_required_size_wraps example_host example_memory_bound
              (example_context
                 [example_frame [2 ^ 64 - 1; 33] (example_msg 0 0 1000)
                                EVMC_CANCUN] [])
              (example_frame [2 ^ 64 - 1; 33] (example_msg 0 0 1000) EVMC_CANCUN)
              [] 0 (2 ^ 64 - 1) 33 [] [])
    as (Hlog & Hreturn & _).
  - reflexivity.
  - reflexivity.
  - lia.
  - reflexivity.
  - reflexivity.
  - vm_compute; discriminate.
  - vm_compute; discriminate.
  - vm_compute; split; [discriminate | reflexivity].
  - vm_compute; discriminate.
  - eexists _, _. split; [exact Hlog | exact Hreturn].
Defined.

(** * Further properties of the handlers *)

(** ** Big-endian words *)

Lemma be_load_snoc (l : list Z) (b : Z) :
  be_load (l ++ [b]) = be_load l * 256 + b.
Proof. unfold be_load. rewrite fold_left_app. reflexivity. Qed.

Lemma be_load_top_bytes (V : Z) (n : nat) :
  (n <= 32)%nat ->
  be_load (map (fun i => (V / 2 ^ (8 * (31 - Z.of_nat i))) mod 256) (seq 0 n))
  = (V / 2 ^ (8 * (32 - Z.of_nat n))) mod 2 ^ (8 * Z.of_nat n).
Proof.
  induction n as [|n IH]; intros Hn.
  - cbn. rewrite Z.mod_1_r. reflexivity.
  - rewrite seq_S, map_app. cbn [map Nat.add].
    rewrite be_load_snoc, IH by lia.
    replace (8 * (32 - Z.of_nat (S n))) with (8 * (31 - Z.of_nat n)) by lia.
    set (X := V / 2 ^ (8 * (31 - Z.of_nat n))).
    replace (V / 2 ^ (8 * (32 - Z.of_nat n))) with (X / 256).
    2:{ subst X. rewrite Z.div_div by lia. f_equal.
        replace (8 * (32 - Z.of_nat n)) with (8 * (31 - Z.of_nat n) + 8) by lia.
        rewrite Z.pow_add_r by lia. reflexivity. }
    replace (2 ^ (8 * Z.of_nat (S n))) with (256 * 2 ^ (8 * Z.of_nat n)).
    2:{ replace (8 * Z.of_nat (S n)) with (8 + 8 * Z.of_nat n) by lia.
        rewrite Z.pow_add_r by lia. reflexivity. }
    assert (0 < 2 ^ (8 * Z.of_nat n)) by (apply Z.pow_pos_nonneg; lia).
    rewrite Z.rem_mul_r by lia. lia.
Qed.

Lemma be_load_be_store (V : Z) : 0 <= V < 2 ^ 256 -> be_load (be_store V) = V.
Proof.
  intros HV. unfold be_store.
  rewrite (be_load_top_bytes V 32) by lia.
  change (2 ^ (8 * (32 - Z.of_nat 32))) with 1. rewrite Z.div_1_r.
  apply Z.mod_small. exact HV.
Qed.

Lemma length_be_store (V : Z) : length (be_store V) = 32%nat.
Proof. unfold be_store. rewrite length_map, length_seq. reflexivity. Qed.

(** ** Bits of 256-bit words *)

Lemma pow2_pos (n : Z) : 0 <= n -> 0 < 2 ^ n.
Proof. intros. apply Z.pow_pos_nonneg; lia. Qed.

Lemma pow2_split (a b : Z) : 0 <= a -> 0 <= b -> 2 ^ (a + b) = 2 ^ a * 2 ^ b.
Proof. intros. apply Z.pow_add_r; lia. Qed.

Lemma not256_mask (p : Z) :
  0 <= p <= 256 -> not256 (2 ^ p - 1) = 2 ^ 256 - 2 ^ p.
Proof.
  intros Hp. unfold not256, u256, Z.lnot.
  replace (Z.pred (- (2 ^ p - 1))) with (- 2 ^ p) by lia.
  pose proof (pow2_pos p ltac:(lia)) as Hpos.
  assert (Hle : 2 ^ p <= 2 ^ 256) by (apply Z.pow_le_mono_r; lia).
  destruct (Z.eq_dec (2 ^ p) (2 ^ 256)) as [E | NE].
  - rewrite E. rewrite Z.sub_diag.
    replace (- 2 ^ 256) with (-1 * 2 ^ 256) by lia.
    apply Z.mod_mul. lia.
  - replace (- 2 ^ p) with (2 ^ 256 - 2 ^ p + -1 * 2 ^ 256) by lia.
    rewrite Z.mod_add by lia. apply Z.mod_small. lia.
Qed.

Lemma high_mask_factor (p : Z) :
  0 <= p <= 256 -> 2 ^ 256 - 2 ^ p = (2 ^ (256 - p) - 1) * 2 ^ p.
Proof.
  intros Hp. replace 256 with ((256 - p) + p) at 1 by lia.
  rewrite pow2_split by lia. lia.
Qed.

Lemma testbit_high_mask (p m : Z) :
  0 <= p <= 256 -> 0 <= m ->
  Z.testbit (2 ^ 256 - 2 ^ p) m = (p <=? m) && (m <? 256).
Proof.
  intros Hp Hm. rewrite high_mask_factor by lia.
  rewrite Z.mul_pow2_bits by lia.
  change (2 ^ (256 - p) - 1) with (Z.pred (2 ^ (256 - p))).
  rewrite <- Z.ones_equiv.
  destruct (Z.leb_spec p m) as [Hle | Hlt].
  - rewrite Z.testbit_ones_nonneg by lia. cbn [andb].
    destruct (Z.ltb_spec (m - p) (256 - p)), (Z.ltb_spec m 256); lia || reflexivity.
  - rewrite Z.testbit_neg_r by lia. reflexivity.
Qed.

Lemma testbit_above (V n m : Z) :
  0 <= V < 2 ^ n -> n <= m -> Z.testbit V m = false.
Proof.
  intros HV Hm.
  destruct (Z.eq_dec V 0) as [-> | NZ]; [apply Z.bits_0|].
  apply Z.bits_above_log2; [lia|].
  assert (Z.log2 V < n) by (apply Z.log2_lt_pow2; lia). lia.
Qed.

Lemma lor_low_high (a b n : Z) :
  0 <= n -> 0 <= a < 2 ^ n -> Z.lor a (b * 2 ^ n) = a + b * 2 ^ n.
Proof.
  intros Hn Ha. rewrite <- Z.add_lor_land.
  replace (Z.land a (b * 2 ^ n)) with 0; [lia|].
  symmetry. apply Z.bits_inj'. intros m Hm.
  rewrite Z.land_spec, Z.bits_0.
  destruct (Z.lt_ge_cases m n) as [Hlt | Hge].
  - rewrite Z.mul_pow2_bits_low by lia. apply andb_false_r.
  - rewrite (testbit_above a n m) by lia. reflexivity.
Qed.

Lemma lor_high_mask (V p : Z) :
  0 <= p <= 256 -> 0 <= V < 2 ^ 256 ->
  Z.lor V (2 ^ 256 - 2 ^ p) = V mod 2 ^ p + (2 ^ 256 - 2 ^ p).
Proof.
  intros Hp HV.
  pose proof (pow2_pos p ltac:(lia)) as Hpos.
  pose proof (Z.mod_pos_bound V (2 ^ p) Hpos) as Hr.
  rewrite (high_mask_factor p) at 2 by lia.
  rewrite <- lor_low_high by lia.
  rewrite <- high_mask_factor by lia.
  apply Z.bits_inj'. intros m Hm.
  rewrite !Z.lor_spec, testbit_high_mask by lia.
  destruct (Z.leb_spec p m) as [Hle | Hlt]; cbn [andb].
  - destruct (Z.ltb_spec m 256) as [H256 | H256].
    + rewrite !orb_true_r. reflexivity.
    + rewrite (testbit_above V 256 m) by lia.
      rewrite (testbit_above (V mod 2 ^ p) p m) by lia. reflexivity.
  - rewrite Z.mod_pow2_bits_low by lia. reflexivity.
Qed.

Lemma land_pow2 (V p : Z) :
  0 <= p -> Z.land V (2 ^ p) = if Z.testbit V p then 2 ^ p else 0.
Proof.
  intros Hp. apply Z.bits_inj'. intros m Hm.
  rewrite Z.land_spec, Z.pow2_bits_eqb by lia.
  destruct (Z.eqb_spec p m) as [-> | NE].
  - destruct (Z.testbit V m); [now rewrite Z.pow2_bits_true by lia|].
    now rewrite Z.bits_0.
  - rewrite andb_false_r.
    destruct (Z.testbit V p); [now rewrite Z.pow2_bits_false by lia|].
    now rewrite Z.bits_0.
Qed.

Lemma land_pow2_eqb (V p : Z) :
  0 <= p -> (Z.land V (Z.shiftl 1 p) =? 0) = negb (Z.testbit V p).
Proof.
  intros Hp. rewrite Z.shiftl_1_l, land_pow2 by lia.
  pose proof (pow2_pos p Hp).
  destruct (Z.testbit V p); cbn [negb]; [apply Z.eqb_neq; lia | reflexivity].
Qed.

(** The bit at the top of a [p + 1]-bit value. *)
Lemma testbit_top (V p : Z) :
  0 <= p -> 0 <= V < 2 ^ (p + 1) -> Z.testbit V p = (2 ^ p <=? V).
Proof.
  intros Hp HV. pose proof (pow2_pos p Hp) as Hpos.
  rewrite pow2_split in HV by lia. change (2 ^ 1) with 2 in HV.
  rewrite Z.testbit_eqb by lia.
  destruct (Z.leb_spec (2 ^ p) V) as [Hle | Hlt].
  - assert (V / 2 ^ p = 1).
    { symmetry. apply Z.div_unique with (r := V - 2 ^ p); lia. }
    rewrite H. reflexivity.
  - rewrite Z.div_small by lia. reflexivity.
Qed.

(** ** SIGNEXTEND *)

Lemma SignExtendHandler_Res_cases (I V : Z) :
  0 <= I -> 0 <= V < 2 ^ 256 ->
  SignExtendHandler_Res I V
  = if (I <? 31) && Z.testbit V (8 * I + 7)
    then V mod 2 ^ (8 * I + 7) + (2 ^ 256 - 2 ^ (8 * I + 7))
    else V.
Proof.
  intros HI HV. unfold SignExtendHandler_Res.
  destruct (Z.ltb_spec I 31) as [Hlt | Hge]; [|reflexivity].
  cbv zeta. rewrite land_pow2_eqb, negb_involutive by lia. cbn [andb].
  destruct (Z.testbit V (8 * I + 7)); [|reflexivity].
  rewrite Z.shiftl_1_l, not256_mask by lia.
  apply lor_high_mask; lia.
Qed.

(** ** SAR *)

Lemma sign_bit (V : Z) :
  0 <= V < 2 ^ 256 ->
  (Z.land (Z.shiftr V 255) 1 =? 0) = (V <? 2 ^ 255).
Proof.
  intros HV. rewrite Z.shiftr_div_pow2 by lia.
  change 1 with (Z.ones 1). rewrite Z.land_ones by lia. change (2 ^ 1) with 2.
  destruct (Z.ltb_spec V (2 ^ 255)) as [Hlt | Hge].
  - rewrite Z.div_small by lia. reflexivity.
  - assert (V / 2 ^ 255 = 1).
    { symmetry. apply Z.div_unique with (r := V - 2 ^ 255); lia. }
    rewrite H. reflexivity.
Qed.

Lemma SarHandler_Res_arithmetic (minus_one Shift Value : Z) :
  0 <= Shift -> 0 <= Value < 2 ^ 256 ->
  SarHandler_Res minus_one Shift Value
  = if Shift <? 256 then u256 (Z.shiftr (int256 Value) Shift)
    else if Value <? 2 ^ 255 then 0 else minus_one.
Proof.
  intros HS HV. unfold SarHandler_Res, int256. cbv zeta.
  rewrite sign_bit by lia.
  pose proof (pow2_pos Shift HS) as Hpos.
  rewrite !Z.shiftr_div_pow2 by lia.
  destruct (Z.ltb_spec Shift 256) as [Hlt | Hge];
    destruct (Z.ltb_spec Value (2 ^ 255)) as [Hpos' | Hneg]; cbn [negb andb].
  - unfold u256. symmetry. apply Z.mod_small.
    split; [apply Z.div_pos; lia|].
    apply Z.le_lt_trans with Value; [|lia].
    apply Z.div_le_upper_bound; nia.
  - destruct (Z.ltb_spec 0 Shift) as [Hs | Hs].
    + rewrite Z.shiftl_1_l, not256_mask by lia.
      rewrite (high_mask_factor (256 - Shift)) by lia.
      replace (256 - (256 - Shift)) with Shift by lia.
      assert (Hq : 0 <= Value / 2 ^ Shift < 2 ^ (256 - Shift)).
      { split; [apply Z.div_pos; lia|].
        apply Z.div_lt_upper_bound; [lia|].
        rewrite <- pow2_split by lia.
        replace (Shift + (256 - Shift)) with 256 by lia. lia. }
      rewrite lor_low_high by lia.
      replace (Value - 2 ^ 256)
        with (Value + - 2 ^ (256 - Shift) * 2 ^ Shift).
      2:{ rewrite Z.mul_opp_l, <- pow2_split by lia.
          replace (256 - Shift + Shift) with 256 by lia. lia. }
      rewrite Z.div_add by lia.
      unfold u256.
      replace (Value / 2 ^ Shift + - 2 ^ (256 - Shift))
        with (Value / 2 ^ Shift + (2 ^ Shift - 1) * 2 ^ (256 - Shift)
              + -1 * 2 ^ 256).
      2:{ rewrite Z.mul_sub_distr_r, <- pow2_split by lia.
          replace (Shift + (256 - Shift)) with 256 by lia. lia. }
      rewrite Z.mod_add by lia.
      symmetry. apply Z.mod_small.
      assert (2 ^ Shift * 2 ^ (256 - Shift) = 2 ^ 256).
      { rewrite <- pow2_split by lia. f_equal. lia. }
      pose proof (pow2_pos (256 - Shift) ltac:(lia)). nia.
    + replace Shift with 0 by lia. rewrite Z.pow_0_r, !Z.div_1_r.
      unfold u256.
      replace (Value - 2 ^ 256) with (Value + -1 * 2 ^ 256) by lia.
      rewrite Z.mod_add by lia. symmetry. apply Z.mod_small. lia.
  - reflexivity.
  - reflexivity.
Qed.

(** ** BYTE *)

Lemma nth_map_lt {A B} (f : A -> B) (l : list A) (i : nat) (d : B) (d' : A) :
  (i < length l)%nat -> nth i (map f l) d = f (nth i l d').
Proof.
  revert i. induction l as [|a l IH]; intros [|i] Hi; cbn in *; try lia.
  - reflexivity.
  - apply IH. lia.
Qed.

Lemma nth_be_store (V : Z) (i : nat) :
  (i < 32)%nat ->
  nth i (be_store V) 0 = (V / 2 ^ (8 * (31 - Z.of_nat i))) mod 256.
Proof.
  intros Hi. unfold be_store.
  rewrite (nth_map_lt _ _ _ _ 0%nat) by (rewrite length_seq; lia).
  rewrite seq_nth by lia. reflexivity.
Qed.

Lemma ByteHandler_Res_be_store (I Val : Z) :
  0 <= I ->
  ByteHandler_Res I Val
  = if I <? 32 then nth (nat_of I) (be_store Val) 0 else 0.
Proof.
  intros HI. unfold ByteHandler_Res.
  destruct (Z.ltb_spec I 32) as [Hlt | Hge]; [|reflexivity].
  cbv zeta. rewrite nth_be_store by (unfold nat_of; lia).
  unfold nat_of. rewrite Z2Nat.id by lia.
  rewrite Z.shiftr_div_pow2 by lia.
  change 255 with (Z.ones 8). rewrite Z.land_ones by lia. reflexivity.
Qed.

Ltac push_ok :=
  match goal with
  | |- context [MAXSTACK <=? size ?l] =>
      replace (MAXSTACK <=? size l) with false
        by (symmetry; apply Z.leb_gt; rewrite ?size_cons in *; lia)
  end; hsimpl.

(** Bring a context, its current frame and the frame's stack to constructor
    form. *)
Ltac open_frame c f Hf Hs Hh :=
  let frames := fresh "frames" in
  let stk := fresh "stk" in
  destruct c as [frames ? ? ? ? ? ?];
  destruct f as [stk ? ? ? ? ?];
  unfold stackHeight in Hh; hsimpl in *; subst frames stk.

Ltac open_state c f :=
  let frames := fresh "frames" in
  let stk := fresh "stk" in
  let msg := fresh "msg" in
  destruct c as [frames ?rd ?st ?ij ?code ?h ?hc];
  destruct f as [stk ?mem ?pc msg ?gr ?rev];
  destruct msg as [?k ?fl ?d ?g ?rcp ?sndr ?idata ?isz ?val ?salt ?ca];
  hsimpl in *; subst frames stk.

Section ArithmeticShift.

Context {HostState : Type}.
Variable uint256_of_minus_one : Z.
Local Abbreviation Ctx := (InterpreterExecContext HostState).

(** X1.  SAR with a shift count below 256 is the arithmetic shift: it pushes
    the 256-bit encoding of the signed reading of [Value] divided by
    [2^Shift], rounded down.  With a count of 256 or more it pushes 0 for a
    non-negative value and, for a negative one, the word that
    [intx::uint256(-1)] makes. *)
Theorem SarHandler_arithmetic_shift (c : Ctx) f fs (Shift Value : Z) (s : list Z) :
  Frames c = f :: fs -> Stack f = Shift :: Value :: s ->
  stackHeight f <= MAXSTACK ->
  0 <= Shift -> 0 <= Value < 2 ^ 256 ->
  let Res := if Shift <? 256 then u256 (int256 Value / 2 ^ Shift)
             else if Value <? 2 ^ 255 then 0 else uint256_of_minus_one in
  run (SarHandler_doExecute uint256_of_minus_one) c
  = Done (set_Frames (set_Stack (Res :: s) f :: fs) c).
Proof.
  intros Hf Hs Hh HS HV Res. subst Res. open_frame c f Hf Hs Hh.
  unfold SarHandler_doExecute. hunfold. unfold stackHeight. hsimpl.
  stack_check_ok. push_ok.
  rewrite SarHandler_Res_arithmetic by lia.
  rewrite Z.shiftr_div_pow2 by lia. reflexivity.
Qed.

End ArithmeticShift.

Section Words.

Context {HostState : Type}.
Local Abbreviation Ctx := (InterpreterExecContext HostState).

(** X2.  SIGNEXTEND with a byte index of 31 or more pushes the value back.  With
    an index [I] below 31 and a value that fits [I + 1] bytes it pushes the
    256-bit two's complement encoding of the signed [I + 1]-byte value.  On
    any value whose bit [8 * I + 7] is clear it pushes the value unchanged,
    the bits above the sign bit included; when that bit is set, the bits
    above it are all set and those below are kept. *)
Theorem SignExtendHandler_sign_extension (c : Ctx) f fs (I V : Z) (s : list Z) :
  Frames c = f :: fs -> Stack f = I :: V :: s ->
  stackHeight f <= MAXSTACK ->
  0 <= I -> 0 <= V < 2 ^ 256 ->
  let Res := SignExtendHandler_Res I V in
  run SignExtendHandler_doExecute c
  = Done (set_Frames (set_Stack (Res :: s) f :: fs) c) /\
  (31 <= I -> Res = V) /\
  (I < 31 -> V < 2 ^ (8 * (I + 1)) ->
   Res = u256 (if V <? 2 ^ (8 * I + 7) then V else V - 2 ^ (8 * (I + 1)))) /\
  (I < 31 -> Z.testbit V (8 * I + 7) = false -> Res = V) /\
  (I < 31 -> Z.testbit V (8 * I + 7) = true ->
   Res = V mod 2 ^ (8 * I + 7) + (2 ^ 256 - 2 ^ (8 * I + 7))).
Proof.
  intros Hf Hs Hh HI HV Res. subst Res.
  rewrite (SignExtendHandler_Res_cases I V HI HV).
  split; [|split; [|split; [|split]]].
  - open_frame c f Hf Hs Hh.
    unfold SignExtendHandler_doExecute. hunfold. unfold stackHeight. hsimpl.
    stack_check_ok. push_ok.
    rewrite (SignExtendHandler_Res_cases I V HI HV). reflexivity.
  - intros H31. rewrite (proj2 (Z.ltb_ge I 31)) by lia. reflexivity.
  - intros H31 Hfit. rewrite (proj2 (Z.ltb_lt I 31)) by lia. cbn [andb].
    replace (8 * (I + 1)) with (8 * I + 7 + 1) in * by lia.
    rewrite (testbit_top V (8 * I + 7)) by lia.
    pose proof (pow2_pos (8 * I + 7) ltac:(lia)) as Hpos.
    assert (Hp1 : 2 ^ (8 * I + 7 + 1) = 2 * 2 ^ (8 * I + 7))
      by (rewrite pow2_split by lia; change (2 ^ 1) with 2; lia).
    assert (Hle : 2 ^ (8 * I + 7 + 1) <= 2 ^ 256)
      by (apply Z.pow_le_mono_r; lia).
    destruct (Z.leb_spec (2 ^ (8 * I + 7)) V) as [Hneg | Hnn].
    + rewrite (proj2 (Z.ltb_ge V (2 ^ (8 * I + 7)))) by lia.
      replace (V mod 2 ^ (8 * I + 7)) with (V - 2 ^ (8 * I + 7)).
      2:{ apply Z.mod_unique with (q := 1); lia. }
      unfold u256.
      replace (V - 2 ^ (8 * I + 7 + 1))
        with (V - 2 ^ (8 * I + 7 + 1) + 2 ^ 256 + -1 * 2 ^ 256) by lia.
      rewrite Z.mod_add by lia. rewrite Z.mod_small; lia.
    + rewrite (proj2 (Z.ltb_lt V (2 ^ (8 * I + 7)))) by lia.
      unfold u256. rewrite Z.mod_small; lia.
  - intros H31 Hbit. rewrite Hbit, andb_false_r. reflexivity.
  - intros H31 Hbit. rewrite Hbit, (proj2 (Z.ltb_lt I 31)) by lia. reflexivity.
Qed.

(** X3.  BYTE pushes, for an index [I] below 32, the [I]-th byte of the 32-byte
    big-endian encoding of the value (the encoding MSTORE writes), and 0 for
    every index of 32 or more. *)
Theorem ByteHandler_big_endian_byte (c : Ctx) f fs (I Val : Z) (s : list Z) :
  Frames c = f :: fs -> Stack f = I :: Val :: s ->
  stackHeight f <= MAXSTACK -> 0 <= I ->
  run ByteHandler_doExecute c
  = Done (set_Frames
            (set_Stack ((if I <? 32 then nth (nat_of I) (be_store Val) 0 else 0)
                        :: s) f :: fs) c).
Proof.
  intros Hf Hs Hh HI. open_frame c f Hf Hs Hh.
  unfold ByteHandler_doExecute. hunfold. unfold stackHeight. hsimpl.
  stack_check_ok. push_ok.
  rewrite ByteHandler_Res_be_store by lia. reflexivity.
Qed.

End Words.

(** ** Memory after an expansion *)

Lemma expand_to_app (mem : list Z) (R : Z) :
  expand_to mem R = mem ++ repeat 0 (nat_of (R - size mem)).
Proof.
  unfold expand_to, resize, size, nat_of.
  destruct (Z.ltb_spec (Z.of_nat (length mem)) R) as [Hlt | Hge].
  - rewrite firstn_all2 by lia. do 2 f_equal. lia.
  - replace (Z.to_nat (R - Z.of_nat (length mem))) with 0%nat by lia.
    cbn [repeat]. now rewrite app_nil_r.
Qed.

Lemma size_app {A} (l l' : list A) : size (l ++ l') = size l + size l'.
Proof. unfold size. rewrite length_app. lia. Qed.

Lemma size_repeat {A} (a : A) (n : nat) : size (repeat a n) = Z.of_nat n.
Proof. unfold size. now rewrite repeat_length. Qed.

Lemma size_expand_to (mem : list Z) (R : Z) :
  size (expand_to mem R) = Z.max (size mem) R.
Proof.
  rewrite expand_to_app, size_app, size_repeat. unfold nat_of.
  pose proof (size_nonneg mem). lia.
Qed.

(** X4.  Expanding memory in two steps costs what expanding in one step costs. *)
Theorem calculateMemoryExpansionCost_two_steps (a b c : Z) :
  0 <= a <= b -> b <= c -> C_mem (words c) < 2 ^ 64 ->
  calculateMemoryExpansionCost a b + calculateMemoryExpansionCost b c
  = calculateMemoryExpansionCost a c.
Proof.
  intros Hab Hbc Hfit.
  rewrite (calculateMemoryExpansionCost_exact a b) by
    (first [lia | apply (C_mem_fits_below b c); [lia | exact Hfit]]).
  rewrite (calculateMemoryExpansionCost_exact b c) by (first [lia | exact Hfit]).
  rewrite (calculateMemoryExpansionCost_exact a c) by (first [lia | exact Hfit]).
  unfold expansion_cost_spec.
  destruct (Z.leb_spec b a), (Z.leb_spec c b), (Z.leb_spec c a); try lia.
  - replace b with a by lia. lia.
  - replace c with b by lia. lia.
Qed.

(** ** Writes into a buffer *)

Lemma length_memcpy (Buf : list Z) (Off : Z) (Data : list Z) :
  0 <= Off -> Off + size Data <= size Buf ->
  length (memcpy Buf Off Data) = length Buf.
Proof.
  unfold memcpy, size, nat_of. intros HO HL.
  rewrite !length_app, length_firstn, length_skipn. lia.
Qed.

Lemma size_memcpy (Buf : list Z) (Off : Z) (Data : list Z) :
  0 <= Off -> Off + size Data <= size Buf ->
  size (memcpy Buf Off Data) = size Buf.
Proof. intros. unfold size. f_equal. now apply length_memcpy. Qed.

Lemma slice_memcpy (Buf : list Z) (Off : Z) (Data : list Z) :
  0 <= Off -> Off + size Data <= size Buf ->
  slice (memcpy Buf Off Data) Off (size Data) = Data.
Proof.
  unfold memcpy, slice, size, nat_of. intros HO HL.
  rewrite skipn_app, length_firstn.
  rewrite (skipn_all2 (firstn _ _)) by (rewrite length_firstn; lia).
  replace (Z.to_nat Off - Nat.min (Z.to_nat Off) (length Buf))%nat with 0%nat
    by lia.
  cbn [skipn app]. rewrite Nat2Z.id.
  rewrite firstn_app, firstn_all, Nat.sub_diag. cbn [firstn].
  now rewrite app_nil_r.
Qed.

Lemma memcpy_nil (Buf : list Z) (Off : Z) : memcpy Buf Off [] = Buf.
Proof.
  unfold memcpy. cbn [app length]. rewrite Nat.add_0_r. apply firstn_skipn.
Qed.

Lemma memset0_memcpy_nat (Buf Data : list Z) (o k : nat) :
  (o + length Data + k <= length Buf)%nat ->
  let m' := firstn o Buf ++ Data ++ skipn (o + length Data) Buf in
  firstn (o + length Data) m' ++ repeat 0 k
    ++ skipn (o + length Data + length (repeat 0 k)) m'
  = firstn o Buf ++ (Data ++ repeat 0 k)
      ++ skipn (o + length (Data ++ repeat 0 k)) Buf.
Proof.
  intros HL m'. subst m'.
  assert (HA : length (firstn o Buf) = o) by (rewrite length_firstn; lia).
  rewrite (app_assoc (firstn o Buf) Data).
  set (P := firstn o Buf ++ Data).
  assert (HP : length P = (o + length Data)%nat)
    by (unfold P; rewrite length_app, HA; reflexivity).
  rewrite firstn_app, HP, Nat.sub_diag, (firstn_all2 P) by lia.
  cbn [firstn]. rewrite app_nil_r.
  rewrite skipn_app, HP, (skipn_all2 P) by lia. cbn [app].
  rewrite skipn_skipn, repeat_length, length_app, repeat_length.
  unfold P. rewrite <- !app_assoc. do 4 f_equal. lia.
Qed.

(** A copy followed by the zeroing of the bytes after it is one write of
    the copied bytes followed by zeros. *)
Lemma memset0_memcpy (Buf : list Z) (Off : Z) (Data : list Z) (n : Z) :
  0 <= Off -> 0 <= n -> Off + size Data + n <= size Buf ->
  memset0 (memcpy Buf Off Data) (Off + size Data) n
  = memcpy Buf Off (Data ++ repeat 0 (nat_of n)).
Proof.
  intros HO Hn HL. unfold memset0, memcpy, size, nat_of in *.
  replace (Z.to_nat (Off + Z.of_nat (length Data)))
    with (Z.to_nat Off + length Data)%nat by lia.
  apply memset0_memcpy_nat. lia.
Qed.

Lemma length_zero_padded (Src : list Z) (Offset Size : Z) :
  length (zero_padded Src Offset Size) = nat_of Size.
Proof.
  unfold zero_padded. rewrite length_firstn, length_app, repeat_length. lia.
Qed.

Lemma firstn_repeat {A} (a : A) (n m : nat) :
  (n <= m)%nat -> firstn n (repeat a m) = repeat a n.
Proof.
  revert m. induction n as [|n IH]; intros [|m] Hm; cbn; try lia; try reflexivity.
  f_equal. apply IH. lia.
Qed.

(** What the copies write: the bytes copied from the source and the zeros
    after them make up the zero-padded window of the source. *)
Lemma slice_pad_zero_padded (Src : list Z) (Offset Size : Z) :
  0 <= Offset -> 0 <= Size ->
  let Start := Z.min (size Src) Offset in
  let CopySize := Z.min Size (size Src - Start) in
  slice Src Start CopySize ++ repeat 0 (nat_of (Size - CopySize))
  = zero_padded Src Offset Size.
Proof.
  intros HO HS Start CopySize. subst Start CopySize.
  unfold slice, zero_padded, size, nat_of.
  destruct (Z.le_gt_cases (Z.of_nat (length Src)) Offset) as [Hout | Hin].
  - rewrite (Z.min_l (Z.of_nat (length Src)) Offset) by lia.
    rewrite (skipn_all2 Src (n := Z.to_nat Offset)) by lia.
    rewrite Z.sub_diag, (Z.min_r Size 0) by lia. cbn [firstn app Z.to_nat].
    rewrite Z.sub_0_r. now rewrite firstn_repeat by lia.
  - rewrite (Z.min_r _ Offset) by lia.
    assert (Hl : length (skipn (Z.to_nat Offset) Src)
                 = Z.to_nat (Z.of_nat (length Src) - Offset))
      by (rewrite length_skipn; lia).
    destruct (Z.le_gt_cases Size (Z.of_nat (length Src) - Offset)) as [Hs | Hs].
    + rewrite (Z.min_l Size) by lia. rewrite Z.sub_diag. cbn [Z.to_nat repeat].
      rewrite app_nil_r, firstn_app.
      replace (Z.to_nat Size - length (skipn (Z.to_nat Offset) Src))%nat
        with 0%nat by lia.
      cbn [firstn]. now rewrite app_nil_r.
    + rewrite (Z.min_r Size) by lia.
      rewrite firstn_all2 by lia.
      rewrite firstn_app, (firstn_all2 (skipn _ _)) by lia.
      f_equal. rewrite firstn_repeat by lia. f_equal. lia.
Qed.

Lemma uint256ToUint64_small (v : Z) : 0 <= v < 2 ^ 64 -> uint256ToUint64 v = v.
Proof. intros. rewrite uint256ToUint64_mod. now apply Z.mod_small. Qed.

Lemma numWords_words (Size : Z) :
  0 <= Size -> Size + 31 < 2 ^ 64 -> numWords Size = words Size.
Proof.
  intros H0 H1. unfold numWords, words.
  rewrite u64_small by lia. apply i64_small.
  split; [apply Z.div_pos; lia|].
  apply Z.div_lt_upper_bound; lia.
Qed.

Lemma size_slice (Src : list Z) (Off n : Z) :
  0 <= Off -> 0 <= n -> Off + n <= size Src -> size (slice Src Off n) = n.
Proof.
  unfold slice, size, nat_of. intros.
  rewrite length_firstn, length_skipn. lia.
Qed.

Lemma zero_padded_inside (Src : list Z) (Offset Size : Z) :
  0 <= Offset < size Src -> 0 <= Size ->
  let CopySize := Z.min Size (size Src - Offset) in
  slice Src Offset CopySize ++ repeat 0 (nat_of (Size - CopySize))
  = zero_padded Src Offset Size.
Proof.
  intros HO HS CopySize. subst CopySize.
  pose proof (slice_pad_zero_padded Src Offset Size ltac:(lia) HS) as E.
  cbv zeta in E. rewrite (Z.min_r (size Src) Offset) in E by lia. exact E.
Qed.

Lemma zero_padded_outside (Src : list Z) (Offset Size : Z) :
  size Src <= Offset -> 0 <= Size ->
  repeat 0 (nat_of Size) = zero_padded Src Offset Size.
Proof.
  intros HO HS. pose proof (size_nonneg Src).
  pose proof (slice_pad_zero_padded Src Offset Size ltac:(lia) HS) as E.
  cbv zeta in E. rewrite (Z.min_l (size Src) Offset) in E by lia.
  rewrite Z.sub_diag, (Z.min_r Size 0), Z.sub_0_r in E by lia.
  exact E.
Qed.

(** The memory after a copy of [CopySize] bytes and the zeroing of the rest
    of the [Size] bytes. *)
Lemma copy_then_zero (mem1 data : list Z) (dst CopySize Size : Z) :
  0 <= dst -> size data = CopySize -> CopySize <= Size ->
  dst + Size <= size mem1 ->
  let copied := if 0 <? CopySize then memcpy mem1 dst data else mem1 in
  (if CopySize <? Size
   then memset0 copied (dst + CopySize) (Size - CopySize)
   else copied)
  = memcpy mem1 dst (data ++ repeat 0 (nat_of (Size - CopySize))).
Proof.
  intros Hd Hdata Hle Hfit copied.
  pose proof (size_nonneg data) as Hn.
  assert (Hcopied : copied = memcpy mem1 dst data).
  { subst copied. destruct (Z.ltb_spec 0 CopySize); [reflexivity|].
    destruct data; [now rewrite memcpy_nil|].
    rewrite size_cons in *. pose proof (size_nonneg data). lia. }
  rewrite Hcopied. clear Hcopied copied.
  destruct (Z.ltb_spec CopySize Size).
  - rewrite <- Hdata. apply memset0_memcpy; lia.
  - replace (Size - CopySize) with 0 by lia. cbn [nat_of Z.to_nat repeat].
    now rewrite app_nil_r.
Qed.

Lemma swap_index (n : Z) :
  1 <= n <= 16 -> u32 ((OP_SWAP1 + n - 1) mod 256 - OP_SWAP1 + 1) = n.
Proof.
  intros Hn. unfold OP_SWAP1, u32.
  rewrite (Z.mod_small (144 + n - 1)) by lia. rewrite Z.mod_small by lia. lia.
Qed.

Lemma nth_error_middle {A} (pre : list A) (x : A) (rest : list A) :
  nth_error (pre ++ x :: rest) (length pre) = Some x.
Proof.
  rewrite nth_error_app2 by lia. now rewrite Nat.sub_diag.
Qed.

Lemma firstn_middle {A} (pre : list A) (x : A) (rest : list A) :
  firstn (length pre) (pre ++ x :: rest) = pre.
Proof.
  rewrite firstn_app, Nat.sub_diag, firstn_all. cbn [firstn]. apply app_nil_r.
Qed.

Lemma skipn_middle {A} (pre : list A) (x : A) (rest : list A) :
  skipn (S (length pre)) (pre ++ x :: rest) = rest.
Proof.
  rewrite skipn_app, skipn_all2 by lia.
  replace (S (length pre) - length pre)%nat with 1%nat by lia. reflexivity.
Qed.

(** ** Big-endian numbers of fewer than 32 bytes *)

Lemma be_load_app (l l' : list Z) :
  be_load (l ++ l') = be_load l * 256 ^ size l' + be_load l'.
Proof.
  revert l. induction l' as [|b l' IH] using rev_ind; intros l.
  - rewrite app_nil_r. cbn. lia.
  - rewrite app_assoc, !be_load_snoc, IH.
    rewrite size_app. change (size [b]) with 1.
    rewrite Z.pow_add_r by (pose proof (size_nonneg l'); lia).
    lia.
Qed.

Lemma be_load_zeros (n : nat) : be_load (repeat 0 n) = 0.
Proof.
  induction n as [|n IH]; [reflexivity|].
  cbn [repeat]. rewrite repeat_cons, be_load_snoc, IH. reflexivity.
Qed.

Lemma be_load_bound (l : list Z) :
  Forall (fun b => 0 <= b < 256) l -> 0 <= be_load l < 256 ^ size l.
Proof.
  induction l as [|b l IH] using rev_ind; intros Hl.
  - cbn. lia.
  - apply Forall_app in Hl. destruct Hl as [Hl Hb].
    apply Forall_inv in Hb. specialize (IH Hl).
    rewrite be_load_snoc, size_app. change (size [b]) with 1.
    rewrite Z.pow_add_r by (pose proof (size_nonneg l); lia).
    lia.
Qed.

Lemma Forall_firstn {A} (P : A -> Prop) (l : list A) (n : nat) :
  Forall P l -> Forall P (firstn n l).
Proof.
  intros Hl. revert n. induction Hl; intros [|n]; cbn; constructor; auto.
Qed.

Lemma Forall_skipn {A} (P : A -> Prop) (l : list A) (n : nat) :
  Forall P l -> Forall P (skipn n l).
Proof.
  intros Hl. revert n. induction Hl; intros [|n]; cbn; auto.
Qed.

Lemma Forall_slice (P : Z -> Prop) (l : list Z) (Off n : Z) :
  Forall P l -> Forall P (slice l Off n).
Proof. intros Hl. unfold slice. now apply Forall_firstn, Forall_skipn. Qed.

Lemma push_immediate (data : list Z) (n : Z) :
  1 <= n <= 32 -> size data = n ->
  be_load (memcpy (repeat 0 32) (32 - n) data) = be_load data.
Proof.
  intros Hn Hdata. unfold memcpy, nat_of, size in *.
  replace (Z.to_nat (32 - n) + length data)%nat with 32%nat by lia.
  rewrite (skipn_all2 (repeat 0 32)) by (rewrite repeat_length; lia).
  rewrite app_nil_r, firstn_repeat by lia.
  rewrite be_load_app, be_load_zeros. lia.
Qed.

Ltac hunfold_jump := hunfold; cbv delta [setIsJump]; hsimpl.

Lemma skipn_repeat {A} (a : A) (n m : nat) :
  skipn n (repeat a m) = repeat a (m - n).
Proof.
  revert m. induction n as [|n IH]; intros [|m]; cbn; try reflexivity.
  apply IH.
Qed.

Lemma CallDataLoadHandler_DataBytes_zero_padded (m : evmc_message) (Offset : Z) :
  input_size m = size (input_data m) -> 0 <= Offset <= input_size m ->
  input_size m < 2 ^ 64 ->
  CallDataLoadHandler_DataBytes m Offset = zero_padded (input_data m) Offset 32.
Proof.
  intros Hin HO Hfit. unfold CallDataLoadHandler_DataBytes.
  rewrite u64_small by lia. rewrite Hin in *.
  pose proof (slice_pad_zero_padded (input_data m) Offset 32 ltac:(lia) ltac:(lia))
    as E.
  cbv zeta in E. rewrite (Z.min_r (size (input_data m)) Offset) in E by lia.
  rewrite <- E.
  set (n := Z.min 32 (size (input_data m) - Offset)).
  assert (Hn : size (slice (input_data m) Offset n) = n)
    by (apply size_slice; subst n; lia).
  unfold memcpy. cbn [nat_of Z.to_nat firstn app Nat.add].
  f_equal. rewrite skipn_repeat. f_equal.
  unfold size, nat_of in *. lia.
Qed.

(** A stack check that fails. *)
Ltac stack_check_fails :=
  hunfold_keep; unfold stackHeight; hsimpl;
  match goal with
  | |- context [?n <=? size ?l] =>
      replace (n <=? size l) with false by (symmetry; apply Z.leb_gt; lia)
  end; reflexivity.

Ltac hunfold_selfdestruct :=
  hunfold_keep; cbv delta [host_selfdestruct return_gas_to_parent]; hunfold_keep.

Section MemoryAndGas.

Context {HostState : Type}.
Variable MAX_REQUIRED_MEMORY_SIZE : Z.
Local Abbreviation Ctx := (InterpreterExecContext HostState).

(** X5.  [chargeGas] on a frame with non-negative gas succeeds exactly when the
    cost is within the gas: then the gas drops by the cost and stays
    non-negative; a charge that fails changes nothing.  A negative gas is
    read as an unsigned number of at least 2^63: every charge up to 2^63
    succeeds on it. *)
Theorem chargeGas_affordable_or_unchanged (c : Ctx) f fs (cost : Z) :
  Frames c = f :: fs -> 0 <= cost < 2 ^ 64 ->
  - 2 ^ 63 <= gas (Msg f) < 2 ^ 63 ->
  let g := gas (Msg f) in
  (0 <= g -> cost <= g ->
   chargeGas cost c
   = Next true (set_Frames (set_Msg_gas (g - cost) f :: fs) c)) /\
  (0 <= g -> g < cost -> chargeGas cost c = Next false c) /\
  (g < 0 -> cost <= 2 ^ 63 ->
   chargeGas cost c
   = Next true (set_Frames (set_Msg_gas (i64 (g + 2 ^ 64 - cost)) f :: fs) c)).
Proof.
  intros Hf Hc Hg g.
  destruct c as [frames rd st ij code h hc].
  destruct f as [stk mem pc msg gr rev].
  destruct msg as [k fl d g0 rcp sndr idata isz val salt ca].
  hsimpl in *. subst frames g.
  repeat split; intros H1 H2; rewrite chargeGas_run.
  - rewrite u64_small, gas_after_charge_ok by lia.
    rewrite (ltb_false g0 cost) by lia. reflexivity.
  - rewrite u64_small, gas_after_charge_fail by lia.
    rewrite (ltb_true g0 cost) by lia. reflexivity.
  - assert (Hu : u64 g0 = g0 + 2 ^ 64).
    { unfold u64. replace g0 with (g0 + 2 ^ 64 + -1 * 2 ^ 64) at 1 by lia.
      rewrite Z.mod_add by lia. apply Z.mod_small. lia. }
    unfold gas_after_charge. rewrite Hu.
    rewrite (ltb_false (g0 + 2 ^ 64) cost) by lia. reflexivity.
Qed.

(** X6.  [expandMemoryAndChargeGas]: a required size over the bound throws before
    anything is charged; a cost over the gas fails and changes nothing;
    otherwise the gas drops by the expansion cost and the memory is the old
    one followed by zeros up to the required size exactly (no rounding to a
    word), and it never shrinks. *)
Theorem expandMemoryAndChargeGas_outcomes (c : Ctx) f fs (R : Z) :
  Frames c = f :: fs -> 0 <= gas (Msg f) < 2 ^ 63 ->
  let g := gas (Msg f) in
  let Cost := calculateMemoryExpansionCost (size (Memory f)) R in
  let mem' := Memory f ++ repeat 0 (nat_of (R - size (Memory f))) in
  (MAX_REQUIRED_MEMORY_SIZE < R ->
   expandMemoryAndChargeGas MAX_REQUIRED_MEMORY_SIZE R c
   = Thrown EVMTooLargeRequiredMemory c) /\
  (R <= MAX_REQUIRED_MEMORY_SIZE -> g < Cost ->
   expandMemoryAndChargeGas MAX_REQUIRED_MEMORY_SIZE R c = Next false c) /\
  (R <= MAX_REQUIRED_MEMORY_SIZE -> Cost <= g ->
   expandMemoryAndChargeGas MAX_REQUIRED_MEMORY_SIZE R c
   = Next true (set_Frames
                  (set_Memory mem' (set_Msg_gas (g - Cost) f) :: fs) c)) /\
  size mem' = Z.max (size (Memory f)) R.
Proof.
  intros Hf Hg g Cost mem'.
  destruct c as [frames rd st ij code h hc].
  destruct f as [stk mem pc msg gr rev].
  destruct msg as [k fl d g0 rcp sndr idata isz val salt ca].
  hsimpl in *. subst frames g.
  pose proof (calculateMemoryExpansionCost_range (size mem) R) as HC.
  fold Cost in HC.
  split; [|split; [|split]].
  - intros HR. unfold expandMemoryAndChargeGas. hunfold_keep.
    rewrite (leb_false R MAX_REQUIRED_MEMORY_SIZE) by lia. reflexivity.
  - intros HR Hlt. unfold expandMemoryAndChargeGas. hunfold_keep.
    rewrite (leb_true R MAX_REQUIRED_MEMORY_SIZE) by lia. hsimpl.
    rewrite chargeGas_run. hsimpl. fold Cost.
    rewrite u64_small by lia. rewrite (ltb_true g0 Cost) by lia. hsimpl.
    rewrite gas_after_charge_fail by lia. reflexivity.
  - intros HR Hle.
    rewrite expandMemoryAndChargeGas_run by (fold Cost; lia).
    fold Cost. rewrite expand_to_app. reflexivity.
  - subst mem'. rewrite <- expand_to_app. apply size_expand_to.
Qed.

(** X7.  The order of the checks of [checkMemoryExpandAndChargeGas]: a size of 0
    needs nothing, whatever the offset; a size or an offset over 64 bits is
    too large; an offset and size that add up to 2^64 - 1 or more are an
    integer overflow ([2^64 - 1] itself, which fits 64 bits, included);
    every other request goes to [expandMemoryAndChargeGas] with the sum. *)
Theorem checkMemoryExpandAndChargeGas_checks (c : Ctx) (Offset Size : Z) :
  0 <= Offset -> 0 <= Size ->
  (Size = 0 ->
   checkMemoryExpandAndChargeGas_u256 MAX_REQUIRED_MEMORY_SIZE Offset Size c
   = Next true c) /\
  (UINT64_MAX < Size ->
   checkMemoryExpandAndChargeGas_u256 MAX_REQUIRED_MEMORY_SIZE Offset Size c
   = Thrown EVMTooLargeRequiredMemory c) /\
  (0 < Size <= UINT64_MAX ->
   checkMemoryExpandAndChargeGas_u256 MAX_REQUIRED_MEMORY_SIZE Offset Size c
   = checkMemoryExpandAndChargeGas_u64 MAX_REQUIRED_MEMORY_SIZE Offset Size c) /\
  (Size <= UINT64_MAX -> UINT64_MAX < Offset ->
   checkMemoryExpandAndChargeGas_u64 MAX_REQUIRED_MEMORY_SIZE Offset Size c
   = Thrown EVMTooLargeRequiredMemory c) /\
  (Size <= UINT64_MAX -> Offset <= UINT64_MAX -> UINT64_MAX <= Offset + Size ->
   checkMemoryExpandAndChargeGas_u64 MAX_REQUIRED_MEMORY_SIZE Offset Size c
   = Thrown IntegerOverflow c) /\
  (Offset + Size < UINT64_MAX ->
   checkMemoryExpandAndChargeGas_u64 MAX_REQUIRED_MEMORY_SIZE Offset Size c
   = expandMemoryAndChargeGas MAX_REQUIRED_MEMORY_SIZE (Offset + Size) c).
Proof.
  intros HO HS. unfold UINT64_MAX.
  unfold checkMemoryExpandAndChargeGas_u256, checkMemoryExpandAndChargeGas_u64,
    EVM_REQUIRE, bind, ret, throw, UINT64_MAX.
  repeat split.
  - intros ->. reflexivity.
  - intros H. rewrite (proj2 (Z.eqb_neq Size 0)) by lia.
    rewrite (leb_false Size) by lia. reflexivity.
  - intros H. rewrite (proj2 (Z.eqb_neq Size 0)) by lia.
    rewrite (leb_true Size) by lia. rewrite (u64_small Size) by lia.
    reflexivity.
  - intros H1 H2. rewrite (leb_false Offset) by lia. reflexivity.
  - intros H1 H2 H3. rewrite (leb_true Offset) by lia.
    rewrite (u64_small Offset) by lia.
    rewrite (ltb_false Offset) by lia. reflexivity.
  - intros H. rewrite (leb_true Offset) by lia.
    rewrite (u64_small Offset) by lia.
    rewrite (ltb_true Offset) by lia.
    rewrite (u64_small (Offset + Size)) by lia. reflexivity.
Qed.

(** The steps of the memory check and of the copy charge on an explicit
    state that affords them. *)
Lemma checkMemoryExpandAndChargeGas_u64_run (Offset Size : Z) stk mem pc k fl d g
  rcp snd idata isz val salt ca gr rev fs rd st ij code (h : HostState) hc :
  0 <= Offset -> 0 <= Size -> Offset + Size < UINT64_MAX ->
  Offset + Size <= MAX_REQUIRED_MEMORY_SIZE -> 0 <= g < 2 ^ 63 ->
  calculateMemoryExpansionCost (size mem) (Offset + Size) <= g ->
  checkMemoryExpandAndChargeGas_u64 MAX_REQUIRED_MEMORY_SIZE Offset Size
    (mkCtx (mkFrame stk mem pc (mkMsg k fl d g rcp snd idata isz val salt ca)
                    gr rev :: fs) rd st ij code h hc)
  = Next true
      (mkCtx (mkFrame stk (expand_to mem (Offset + Size)) pc
                (mkMsg k fl d
                   (g - calculateMemoryExpansionCost (size mem) (Offset + Size))
                   rcp snd idata isz val salt ca) gr rev :: fs)
             rd st ij code h hc).
Proof.
  intros HO HS Hsum Hmax Hg Hcost. unfold UINT64_MAX in *.
  unfold checkMemoryExpandAndChargeGas_u64, EVM_REQUIRE, bind, ret, throw,
    UINT64_MAX.
  rewrite (leb_true Offset) by lia.
  rewrite (u64_small Offset) by lia.
  rewrite (ltb_true Offset) by lia.
  rewrite (u64_small (Offset + Size)) by lia.
  now apply expandMemoryAndChargeGas_run.
Qed.

Lemma checkMemoryExpandAndChargeGas_u256_run (Offset Size : Z) stk mem pc k fl d g
  rcp snd idata isz val salt ca gr rev fs rd st ij code (h : HostState) hc :
  0 <= Offset -> 0 < Size -> Offset + Size < UINT64_MAX ->
  Offset + Size <= MAX_REQUIRED_MEMORY_SIZE -> 0 <= g < 2 ^ 63 ->
  calculateMemoryExpansionCost (size mem) (Offset + Size) <= g ->
  checkMemoryExpandAndChargeGas_u256 MAX_REQUIRED_MEMORY_SIZE Offset Size
    (mkCtx (mkFrame stk mem pc (mkMsg k fl d g rcp snd idata isz val salt ca)
                    gr rev :: fs) rd st ij code h hc)
  = Next true
      (mkCtx (mkFrame stk (expand_to mem (Offset + Size)) pc
                (mkMsg k fl d
                   (g - calculateMemoryExpansionCost (size mem) (Offset + Size))
                   rcp snd idata isz val salt ca) gr rev :: fs)
             rd st ij code h hc).
Proof.
  intros HO HS Hsum Hmax Hg Hcost.
  unfold checkMemoryExpandAndChargeGas_u256, EVM_REQUIRE, bind, ret, throw.
  rewrite (proj2 (Z.eqb_neq Size 0)) by lia.
  unfold UINT64_MAX in *.
  rewrite (leb_true Size) by lia.
  rewrite (u64_small Size) by lia.
  apply checkMemoryExpandAndChargeGas_u64_run; unfold UINT64_MAX; lia.
Qed.

Lemma copyCodeAndChargeGas_run (Size : Z) stk mem pc k fl d g
  rcp snd idata isz val salt ca gr rev fs rd st ij code (h : HostState) hc :
  0 <= Size -> Size + 31 < 2 ^ 64 -> 0 <= g < 2 ^ 63 ->
  3 * words Size <= g ->
  copyCodeAndChargeGas Size
    (mkCtx (mkFrame stk mem pc (mkMsg k fl d g rcp snd idata isz val salt ca)
                    gr rev :: fs) rd st ij code h hc)
  = Next true
      (mkCtx (mkFrame stk mem pc
                (mkMsg k fl d (g - 3 * words Size) rcp snd idata isz val salt ca)
                gr rev :: fs) rd st ij code h hc).
Proof.
  intros HS Hfit Hg Hcost. unfold copyCodeAndChargeGas, WORD_COPY_COST.
  rewrite numWords_words by lia.
  assert (0 <= words Size < 2 ^ 59).
  { unfold words. split; [apply Z.div_pos; lia|].
    apply Z.div_lt_upper_bound; lia. }
  rewrite (u64_small (words Size * 3)) by lia.
  rewrite chargeGas_run, u64_small by lia.
  rewrite (ltb_false g) by lia. rewrite gas_after_charge_ok by lia.
  cbn [negb]. do 6 f_equal. lia.
Qed.

(** X8.  MSTORE then MLOAD at the same offset: MSTORE pays the expansion to
    [offset + 32] and writes the 32 big-endian bytes of the value; MLOAD of
    that offset then costs nothing more, leaves the memory as it is and
    pushes the value that was stored. *)
Theorem MStoreHandler_then_MLoadHandler (c : Ctx) f fs (o v : Z) (s : list Z) :
  Frames c = f :: fs -> Stack f = o :: v :: s ->
  stackHeight f <= MAXSTACK ->
  0 <= v < 2 ^ 256 ->
  let Offset := uint256ToUint64 o in
  Offset + 32 < UINT64_MAX -> Offset + 32 <= MAX_REQUIRED_MEMORY_SIZE ->
  0 <= gas (Msg f) < 2 ^ 63 ->
  let Cost := calculateMemoryExpansionCost (size (Memory f)) (Offset + 32) in
  Cost <= gas (Msg f) ->
  let mem1 := memcpy (expand_to (Memory f) (Offset + 32)) Offset (be_store v) in
  let f1 := set_Memory mem1 (set_Msg_gas (gas (Msg f) - Cost) (set_Stack s f)) in
  run (MStoreHandler_doExecute MAX_REQUIRED_MEMORY_SIZE) c
  = Done (set_Frames (f1 :: fs) c) /\
  run (MLoadHandler_doExecute MAX_REQUIRED_MEMORY_SIZE)
      (set_Frames (set_Stack (o :: s) f1 :: fs) c)
  = Done (set_Frames (set_Stack (v :: s) f1 :: fs) c).
Proof.
  intros Hf Hs Hh Hv Offset Hoff Hmax Hg Cost Hcost mem1 f1.
  destruct c as [frames rd st ij code h hc].
  destruct f as [stk mem pc msg gr rev].
  destruct msg as [k fl d g rcp sndr idata isz val salt ca].
  unfold stackHeight in Hh. hsimpl in *. subst frames stk.
  rewrite !size_cons in Hh.
  pose proof (uint256ToUint64_range o) as HO. fold Offset in HO.
  pose proof (calculateMemoryExpansionCost_range (size mem) (Offset + 32)) as HC.
  fold Cost in HC.
  pose proof (size_nonneg s) as Hsz.
  assert (Hsize1 : size (expand_to mem (Offset + 32)) = Z.max (size mem) (Offset + 32))
    by apply size_expand_to.
  assert (Hbs : size (be_store v) = 32)
    by (unfold size; rewrite length_be_store; reflexivity).
  assert (Hlen : size mem1 = Z.max (size mem) (Offset + 32))
    by (subst mem1; rewrite size_memcpy; lia).
  assert (Hslice : slice mem1 Offset 32 = be_store v)
    by (subst mem1; rewrite <- Hbs at 2; apply slice_memcpy; lia).
  unfold UINT64_MAX in *.
  split.
  - unfold MStoreHandler_doExecute, checkMemoryExpandAndChargeGas_u64.
    hunfold_keep. unfold stackHeight. hsimpl. stack_check_ok.
    fold Offset. unfold UINT64_MAX.
    rewrite (leb_true Offset) by lia. hsimpl.
    rewrite (u64_small Offset) by lia.
    rewrite (ltb_true Offset) by lia. hsimpl.
    rewrite (u64_small (Offset + 32)) by lia.
    rewrite expandMemoryAndChargeGas_run by (fold Cost; lia).
    hsimpl. reflexivity.
  - subst f1. clearbody mem1. hsimpl.
    unfold MLoadHandler_doExecute, checkMemoryExpandAndChargeGas_u64.
    hunfold_keep. unfold stackHeight. hsimpl. stack_check_ok.
    fold Offset. unfold UINT64_MAX.
    rewrite (leb_true Offset) by lia. hsimpl.
    rewrite (u64_small Offset) by lia.
    rewrite (ltb_true Offset) by lia. hsimpl.
    rewrite (u64_small (Offset + 32)) by lia.
    assert (Hzero : calculateMemoryExpansionCost (size mem1) (Offset + 32) = 0).
    { unfold calculateMemoryExpansionCost.
      rewrite (leb_true (Offset + 32)) by lia. reflexivity. }
    rewrite expandMemoryAndChargeGas_run by (rewrite ?Hzero; lia).
    rewrite Hzero. hsimpl.
    unfold expand_to. rewrite (ltb_false (size mem1)) by lia.
    push_ok.
    rewrite Hslice, be_load_be_store by lia.
    rewrite Z.sub_0_r. reflexivity.
Qed.

(** X9.  MSTORE8 writes the low byte of the value and grows the memory to
    [offset + 1] bytes exactly; MSIZE then pushes that byte count, which is
    not rounded up to a multiple of 32. *)
Theorem MStore8Handler_then_MSizeHandler (c : Ctx) f fs (o v : Z) (s : list Z) :
  Frames c = f :: fs -> Stack f = o :: v :: s ->
  stackHeight f <= MAXSTACK ->
  let Offset := uint256ToUint64 o in
  Offset + 1 < UINT64_MAX -> Offset + 1 <= MAX_REQUIRED_MEMORY_SIZE ->
  0 <= gas (Msg f) < 2 ^ 63 ->
  let Cost := calculateMemoryExpansionCost (size (Memory f)) (Offset + 1) in
  Cost <= gas (Msg f) ->
  let mem1 := memcpy (expand_to (Memory f) (Offset + 1)) Offset [v mod 256] in
  let f1 := set_Memory mem1 (set_Msg_gas (gas (Msg f) - Cost) (set_Stack s f)) in
  run (MStore8Handler_doExecute MAX_REQUIRED_MEMORY_SIZE) c
  = Done (set_Frames (f1 :: fs) c) /\
  slice mem1 Offset 1 = [v mod 256] /\
  run MSizeHandler_doExecute (set_Frames (f1 :: fs) c)
  = Done (set_Frames
            (set_Stack (Z.max (size (Memory f)) (Offset + 1) :: s) f1 :: fs) c).
Proof.
  intros Hf Hs Hh Offset Hoff Hmax Hg Cost Hcost mem1 f1.
  open_state c f. unfold stackHeight in Hh. hsimpl in Hh.
  rewrite !size_cons in Hh.
  pose proof (uint256ToUint64_range o) as HO. fold Offset in HO.
  pose proof (size_nonneg s) as Hsz.
  pose proof (size_expand_to mem (Offset + 1)) as Hsize1.
  assert (Hlen : size mem1 = Z.max (size mem) (Offset + 1))
    by (subst mem1; rewrite size_memcpy;
        change (size [v mod 256]) with 1; lia).
  split; [|split].
  - unfold MStore8Handler_doExecute. hunfold_keep. unfold stackHeight. hsimpl.
    stack_check_ok. fold Offset.
    rewrite checkMemoryExpandAndChargeGas_u64_run by (fold Cost; lia).
    hsimpl. fold Cost.
    change 255 with (Z.ones 8). rewrite Z.land_ones by lia. reflexivity.
  - subst mem1. change 1 with (size [v mod 256]) at 2.
    apply slice_memcpy; change (size [v mod 256]) with 1; lia.
  - subst f1. clearbody mem1.
    unfold MSizeHandler_doExecute. hunfold. unfold stackHeight. hsimpl.
    push_ok. rewrite Hlen. reflexivity.
Qed.

(** X10.  A copy of size 0 pops its three operands and does nothing else: no gas
    is charged and the memory is not expanded, whatever the two offsets. *)
Theorem copy_of_size_zero_is_free (c : Ctx) f fs (dst src : Z) (s : list Z) :
  Frames c = f :: fs -> Stack f = dst :: src :: 0 :: s ->
  0 <= gas (Msg f) < 2 ^ 63 ->
  let c' := set_Frames (set_Stack s f :: fs) c in
  run (CallDataCopyHandler_doExecute MAX_REQUIRED_MEMORY_SIZE) c = Done c' /\
  run (CodeCopyHandler_doExecute MAX_REQUIRED_MEMORY_SIZE) c = Done c' /\
  run (ReturnDataCopyHandler_doExecute MAX_REQUIRED_MEMORY_SIZE) c = Done c' /\
  run (MCopyHandler_doExecute MAX_REQUIRED_MEMORY_SIZE) c = Done c'.
Proof.
  intros Hf Hs Hg c'. subst c'. open_state c f.
  assert (Hfree : forall stk' mem' pc' k' fl' d' rcp' snd' idata' isz' val' salt' ca'
                         gr' rev' fs' rd' st' ij' code' (h' : HostState) hc',
    copyCodeAndChargeGas 0
      (mkCtx (mkFrame stk' mem' pc'
                (mkMsg k' fl' d' g rcp' snd' idata' isz' val' salt' ca') gr' rev'
              :: fs') rd' st' ij' code' h' hc')
    = Next true
      (mkCtx (mkFrame stk' mem' pc'
                (mkMsg k' fl' d' g rcp' snd' idata' isz' val' salt' ca') gr' rev'
              :: fs') rd' st' ij' code' h' hc')).
  { intros. rewrite copyCodeAndChargeGas_run by (try lia; cbn; lia).
    change (3 * words 0) with 0. now rewrite Z.sub_0_r. }
  change (uint256ToUint64 0) with 0.
  repeat split.
  - unfold CallDataCopyHandler_doExecute, checkMemoryExpandAndChargeGas_u256.
    hunfold_keep. unfold stackHeight. hsimpl. stack_check_ok.
    change (0 =? 0) with true. hsimpl.
    change (uint256ToUint64 0) with 0. rewrite Hfree. hsimpl.
    unfold copy_and_pad. hunfold_keep.
    destruct (Z.ltb_spec isz (uint256ToUint64 src));
      rewrite Z.min_l by lia; reflexivity.
  - unfold CodeCopyHandler_doExecute, checkMemoryExpandAndChargeGas_u256.
    hunfold_keep. unfold stackHeight. hsimpl. stack_check_ok.
    change (0 =? 0) with true. hsimpl.
    change (uint256ToUint64 0) with 0. rewrite Hfree. hsimpl.
    destruct (Z.ltb_spec (uint256ToUint64 src) (size code)); hsimpl;
      [|reflexivity].
    rewrite Z.min_l by lia. unfold slice. cbn [nat_of Z.to_nat firstn].
    rewrite memcpy_nil. reflexivity.
  - unfold ReturnDataCopyHandler_doExecute, checkMemoryExpandAndChargeGas_u256.
    hunfold_keep. unfold stackHeight. hsimpl. stack_check_ok.
    change (0 =? 0) with true. hsimpl.
    change (uint256ToUint64 0) with 0. rewrite Hfree. hsimpl.
    destruct (Z.leb_spec (size rd) (uint256ToUint64 src)); hsimpl;
      [reflexivity|].
    rewrite Z.min_l by lia. unfold slice. cbn [nat_of Z.to_nat firstn].
    rewrite memcpy_nil. reflexivity.
  - unfold MCopyHandler_doExecute, checkMemoryExpandAndChargeGas_u256.
    hunfold_keep. unfold stackHeight. hsimpl. stack_check_ok.
    change (0 =? 0) with true. hsimpl.
    change (uint256ToUint64 0) with 0. rewrite Hfree. hsimpl.
    reflexivity.
Qed.

(** X11.  CALLDATACOPY, CODECOPY and RETURNDATACOPY of a non-zero size write
    exactly [size] bytes at the destination: the bytes of the source from
    the (64-bit) source offset on, followed by zeros where the source ends;
    a source offset past the end gives zeros only and is no error, for the
    return data as for the others.  The charge is the memory expansion to
    [dst + size] plus 3 per word copied. *)
Theorem copies_write_zero_padded_source (c : Ctx) f fs (dst src sz : Z)
  (s : list Z) :
  Frames c = f :: fs -> Stack f = dst :: src :: sz :: s ->
  0 <= dst -> 0 < sz -> dst + sz + 31 < 2 ^ 64 ->
  dst + sz <= MAX_REQUIRED_MEMORY_SIZE ->
  0 <= gas (Msg f) < 2 ^ 63 ->
  let E := calculateMemoryExpansionCost (size (Memory f)) (dst + sz) in
  let W := 3 * words sz in
  E + W <= gas (Msg f) ->
  let Offset := uint256ToUint64 src in
  let mem1 := expand_to (Memory f) (dst + sz) in
  let out Src :=
    Done (set_Frames
            (set_Memory (memcpy mem1 dst (zero_padded Src Offset sz))
               (set_Msg_gas (gas (Msg f) - E - W) (set_Stack s f)) :: fs) c) in
  (input_size (Msg f) = size (input_data (Msg f)) ->
   run (CallDataCopyHandler_doExecute MAX_REQUIRED_MEMORY_SIZE) c
   = out (input_data (Msg f))) /\
  run (CodeCopyHandler_doExecute MAX_REQUIRED_MEMORY_SIZE) c = out (Code c) /\
  run (ReturnDataCopyHandler_doExecute MAX_REQUIRED_MEMORY_SIZE) c
  = out (ReturnData c).
Proof.
  intros Hf Hs Hd Hsz Hsum Hmax Hg E W Hcost Offset mem1 out. subst out.
  open_state c f.
  pose proof (uint256ToUint64_range src) as HO. fold Offset in HO.
  pose proof (calculateMemoryExpansionCost_range (size mem) (dst + sz)) as HE.
  fold E in HE.
  assert (HW : 0 <= W).
  { subst W. assert (0 <= words sz) by (apply words_nonneg; lia). lia. }
  pose proof (size_expand_to mem (dst + sz)) as Hsize1. fold mem1 in Hsize1.
  unfold UINT64_MAX in *.
  assert (Hdst : uint256ToUint64 dst = dst)
    by (apply uint256ToUint64_small; lia).
  assert (Hsize : uint256ToUint64 sz = sz)
    by (apply uint256ToUint64_small; lia).
  split; [|split].
  - intros Hin. subst isz.
    unfold CallDataCopyHandler_doExecute.
    hunfold_keep. unfold stackHeight. hsimpl. stack_check_ok.
    rewrite checkMemoryExpandAndChargeGas_u256_run
      by (unfold UINT64_MAX; fold E; lia).
    hsimpl. rewrite Hdst, Hsize. fold Offset E mem1.
    rewrite copyCodeAndChargeGas_run by (fold W; lia).
    hsimpl. fold W.
    replace (if size idata <? Offset then size idata else Offset)
      with (Z.min (size idata) Offset)
      by (destruct (Z.ltb_spec (size idata) Offset); lia).
    pose proof (size_nonneg idata) as Hid.
    set (Start := Z.min (size idata) Offset).
    set (CopySize := Z.min sz (size idata - Start)).
    assert (Hdata : size (slice idata Start CopySize) = CopySize)
      by (apply size_slice; subst Start CopySize; lia).
    pose proof (copy_then_zero mem1 (slice idata Start CopySize) dst CopySize sz
                  Hd Hdata ltac:(subst CopySize; lia) ltac:(lia)) as Hmem.
    cbv zeta in Hmem.
    rewrite <- (slice_pad_zero_padded idata Offset sz) by lia.
    fold Start CopySize. rewrite <- Hmem.
    unfold copy_and_pad. hunfold_keep.
    destruct (0 <? CopySize); hsimpl; destruct (CopySize <? sz); reflexivity.
  - unfold CodeCopyHandler_doExecute.
    hunfold_keep. unfold stackHeight. hsimpl. stack_check_ok.
    rewrite checkMemoryExpandAndChargeGas_u256_run
      by (unfold UINT64_MAX; fold E; lia).
    hsimpl. rewrite Hdst, Hsize. fold Offset E mem1.
    rewrite copyCodeAndChargeGas_run by (fold W; lia).
    hsimpl. fold W.
    destruct (Z.ltb_spec Offset (size code)) as [Hin | Hout]; hsimpl.
    + set (CopySize := Z.min sz (size code - Offset)).
      assert (Hdata : size (slice code Offset CopySize) = CopySize)
        by (apply size_slice; subst CopySize; lia).
      pose proof (copy_then_zero mem1 (slice code Offset CopySize) dst CopySize
                    sz Hd Hdata ltac:(subst CopySize; lia) ltac:(lia)) as Hmem.
      cbv zeta in Hmem.
      rewrite (ltb_true 0 CopySize) in Hmem by (subst CopySize; lia).
      rewrite <- (zero_padded_inside code Offset sz) by lia.
      fold CopySize. rewrite <- Hmem.
      destruct (CopySize <? sz); reflexivity.
    + rewrite (ltb_true 0 sz) by lia. hsimpl.
      rewrite <- (zero_padded_outside code Offset sz) by lia.
      reflexivity.
  - unfold ReturnDataCopyHandler_doExecute.
    hunfold_keep. unfold stackHeight. hsimpl. stack_check_ok.
    rewrite checkMemoryExpandAndChargeGas_u256_run
      by (unfold UINT64_MAX; fold E; lia).
    hsimpl. rewrite Hdst, Hsize. fold Offset E mem1.
    rewrite copyCodeAndChargeGas_run by (fold W; lia).
    hsimpl. fold W.
    destruct (Z.leb_spec (size rd) Offset) as [Hout | Hin]; hsimpl.
    + rewrite (ltb_true 0 sz) by lia. hsimpl.
      rewrite <- (zero_padded_outside rd Offset sz) by lia.
      reflexivity.
    + set (CopySize := Z.min sz (size rd - Offset)).
      assert (Hdata : size (slice rd Offset CopySize) = CopySize)
        by (apply size_slice; subst CopySize; lia).
      pose proof (copy_then_zero mem1 (slice rd Offset CopySize) dst CopySize
                    sz Hd Hdata ltac:(subst CopySize; lia) ltac:(lia)) as Hmem.
      cbv zeta in Hmem.
      rewrite (ltb_true 0 CopySize) in Hmem by (subst CopySize; lia).
      rewrite <- (zero_padded_inside rd Offset sz) by lia.
      fold CopySize. rewrite <- Hmem.
      destruct (CopySize <? sz); reflexivity.
Qed.

(** X12.  RETURN and REVERT end the current frame alike: the memory is expanded
    to [offset + size] at the frame's cost, the slice becomes the return
    data, the frame leaves the call chain and the gas it has left is added
    to the gas of its parent, if it has one.  They differ in the status
    only: success for RETURN, revert for REVERT. *)
Theorem ReturnHandler_RevertHandler_hand_gas_to_parent (c : Ctx) f fs (o sz : Z)
  (s : list Z) :
  Frames c = f :: fs -> Stack f = o :: sz :: s ->
  let Offset := uint256ToUint64 o in
  let Size := uint256ToUint64 sz in
  Offset + Size < UINT64_MAX -> Offset + Size <= MAX_REQUIRED_MEMORY_SIZE ->
  0 <= gas (Msg f) < 2 ^ 63 ->
  let Cost := calculateMemoryExpansionCost (size (Memory f)) (Offset + Size) in
  Cost <= gas (Msg f) ->
  let RemainingGas := gas (Msg f) - Cost in
  let data := slice (expand_to (Memory f) (Offset + Size)) Offset Size in
  let parents :=
    match fs with
    | [] => []
    | p :: fs' => set_Msg_gas (i64 (gas (Msg p) + RemainingGas)) p :: fs'
    end in
  let out status :=
    Done (mkCtx parents data status (IsJump c) (Code c) (HostSt c)
                (HostCalls c)) in
  run (ReturnHandler_doExecute MAX_REQUIRED_MEMORY_SIZE) c = out EVMC_SUCCESS /\
  run (RevertHandler_doExecute MAX_REQUIRED_MEMORY_SIZE) c = out EVMC_REVERT.
Proof.
  intros Hf Hs Offset Size Hoff Hmax Hg Cost Hcost RemainingGas data parents out.
  subst out parents data RemainingGas.
  open_state c f.
  pose proof (uint256ToUint64_range o) as HO. fold Offset in HO.
  pose proof (uint256ToUint64_range sz) as HS. fold Size in HS.
  pose proof (calculateMemoryExpansionCost_range (size mem) (Offset + Size)) as HC.
  fold Cost in HC.
  split.
  - unfold ReturnHandler_doExecute. hunfold_keep. unfold stackHeight. hsimpl.
    stack_check_ok. fold Offset Size.
    rewrite checkMemoryExpandAndChargeGas_u64_run by (fold Cost; lia).
    hsimpl. fold Cost. unfold return_gas_to_parent. hunfold_keep.
    rewrite (u64_small (g - Cost)) by lia.
    destruct fs as [|p fs']; reflexivity.
  - unfold RevertHandler_doExecute. hunfold_keep. unfold stackHeight. hsimpl.
    stack_check_ok. fold Offset Size.
    rewrite checkMemoryExpandAndChargeGas_u64_run by (fold Cost; lia).
    hsimpl. fold Cost. unfold return_gas_to_parent. hunfold_keep.
    rewrite (u64_small (g - Cost)) by lia.
    destruct fs as [|p fs']; reflexivity.
Qed.

End MemoryAndGas.

Section Hashing.

Context {HostState : Type}.
Variable MAX_REQUIRED_MEMORY_SIZE : Z.
Variable keccak256 : list Z -> list Z.
Local Abbreviation Ctx := (InterpreterExecContext HostState).

(** X13.  KECCAK256 charges the memory expansion to [offset + length] and nothing
    per hashed word: the frame's gas drops by the expansion cost only, and
    the hash of the memory slice is pushed. *)
Theorem Keccak256Handler_charges_expansion_only (c : Ctx) f fs (o l : Z)
  (s : list Z) :
  Frames c = f :: fs -> Stack f = o :: l :: s ->
  stackHeight f <= MAXSTACK ->
  let MemOffset := u64 o in
  let DataLength := u64 l in
  MemOffset + DataLength < UINT64_MAX ->
  MemOffset + DataLength <= MAX_REQUIRED_MEMORY_SIZE ->
  0 <= gas (Msg f) < 2 ^ 63 ->
  let Cost := calculateMemoryExpansionCost (size (Memory f))
                                           (MemOffset + DataLength) in
  Cost <= gas (Msg f) ->
  let mem1 := expand_to (Memory f) (MemOffset + DataLength) in
  let hash := be_load (keccak256 (slice mem1 MemOffset DataLength)) in
  run (Keccak256Handler_doExecute MAX_REQUIRED_MEMORY_SIZE keccak256) c
  = Done (set_Frames
            (set_Memory mem1
               (set_Msg_gas (gas (Msg f) - Cost) (set_Stack (hash :: s) f))
             :: fs) c).
Proof.
  intros Hf Hs Hh MemOffset DataLength Hoff Hmax Hg Cost Hcost mem1 hash.
  open_state c f. unfold stackHeight in Hh. hsimpl in Hh.
  rewrite !size_cons in Hh.
  pose proof (u64_range o) as HO. fold MemOffset in HO.
  pose proof (u64_range l) as HL. fold DataLength in HL.
  pose proof (size_nonneg s) as Hsz.
  unfold Keccak256Handler_doExecute. hunfold_keep. unfold stackHeight. hsimpl.
  stack_check_ok. fold MemOffset DataLength.
  rewrite checkMemoryExpandAndChargeGas_u64_run by (fold Cost; lia).
  hsimpl. push_ok. reflexivity.
Qed.

End Hashing.

Section StackAndControlFlow.

Context {HostState : Type}.
Local Abbreviation Ctx := (InterpreterExecContext HostState).

(** X14.  SWAPn exchanges the top of the stack with the value [n] places below it
    and leaves everything between and below in place; running it twice
    gives the stack back. *)
Theorem SwapHandler_exchanges_and_is_involutive (n : Z) (c : Ctx) f fs
  (t x : Z) (mid rest : list Z) :
  1 <= n <= 16 -> Frames c = f :: fs ->
  Stack f = t :: mid ++ x :: rest -> size mid = n - 1 ->
  let c' := set_Frames (set_Stack (x :: mid ++ t :: rest) f :: fs) c in
  run (SwapHandler_doExecute (OP_SWAP1 + n - 1)) c = Done c' /\
  run (SwapHandler_doExecute (OP_SWAP1 + n - 1)) c' = Done c.
Proof.
  intros Hn Hf Hs Hmid c'. subst c'.
  destruct c as [frames rd st ij code h hc].
  destruct f as [stk mem pc msg gr rev].
  hsimpl in *. subst frames stk.
  assert (Hswap : forall a b,
    run (SwapHandler_doExecute (OP_SWAP1 + n - 1))
        (mkCtx (mkFrame (a :: mid ++ b :: rest) mem pc msg gr rev :: fs)
               rd st ij code h hc)
    = Done (mkCtx (mkFrame (b :: mid ++ a :: rest) mem pc msg gr rev :: fs)
                  rd st ij code h hc)).
  { intros a b. unfold SwapHandler_doExecute. rewrite (swap_index n Hn).
    hunfold. unfold stackHeight. hsimpl.
    assert (Hnat : nat_of n = S (length mid))
      by (unfold nat_of, size in *; lia).
    assert (Hh : size (a :: mid ++ b :: rest) = n + 1 + size rest)
      by (rewrite size_cons, size_app, size_cons; lia).
    pose proof (size_nonneg rest) as Hrest.
    unfold u32. rewrite (Z.mod_small (n + 1)) by lia.
    rewrite Hh. rewrite (leb_true (n + 1)) by lia. hsimpl.
    rewrite Hnat. cbn [nth_error nat_of Z.to_nat].
    rewrite nth_error_middle. hsimpl.
    rewrite Hh. rewrite (ltb_true 0) by lia. hsimpl.
    rewrite firstn_O, skipn_cons, skipn_O. cbn [app].
    assert (Hh' : size (b :: mid ++ b :: rest) = n + 1 + size rest)
      by (rewrite size_cons, size_app, size_cons; lia).
    rewrite Hh'. rewrite (ltb_true n) by lia. hsimpl.
    rewrite firstn_cons, skipn_cons, firstn_middle, skipn_middle.
    reflexivity. }
  split; apply Hswap.
Qed.

(** X15.  DUPn pushes a copy of the [n]-th value of the stack, and POP after it
    gives the stack back. *)
Theorem DupHandler_then_PopHandler (n : Z) (c : Ctx) f fs (x : Z)
  (pre rest : list Z) :
  1 <= n <= 16 -> Frames c = f :: fs ->
  Stack f = pre ++ x :: rest -> size pre = n - 1 ->
  stackHeight f < MAXSTACK ->
  let c' := set_Frames (set_Stack (x :: pre ++ x :: rest) f :: fs) c in
  run (DupHandler_doExecute (OP_DUP1 + n - 1)) c = Done c' /\
  run PopHandler_doExecute c' = Done c.
Proof.
  intros Hn Hf Hs Hpre Hh c'. subst c'.
  destruct c as [frames rd st ij code h hc].
  destruct f as [stk mem pc msg gr rev].
  unfold stackHeight in Hh. hsimpl in *. subst frames stk.
  assert (Hsz : size (pre ++ x :: rest) = n + size rest)
    by (rewrite size_app, size_cons; lia).
  pose proof (size_nonneg rest) as Hrest.
  split.
  - unfold DupHandler_doExecute. rewrite (dup_count n Hn).
    hunfold. unfold stackHeight. hsimpl.
    rewrite (leb_true n) by lia. hsimpl.
    unfold u32. rewrite (Z.mod_small (n - 1)) by lia.
    replace (nat_of (n - 1)) with (length pre)
      by (unfold nat_of, size in *; lia).
    rewrite nth_error_middle. hsimpl.
    rewrite (leb_false MAXSTACK) by lia. reflexivity.
  - unfold PopHandler_doExecute. hunfold. unfold stackHeight. hsimpl.
    rewrite size_cons. rewrite (leb_true 1) by lia. reflexivity.
Qed.

(** X16.  PUSHn pushes the big-endian number of its [n] immediate bytes, a value
    below [256^n]; when the immediates do not all lie inside the code, it
    throws [UnexpectedEnd] and changes nothing: the missing bytes are not
    read as zeros. *)
Theorem PushHandler_immediate_or_UnexpectedEnd (n : Z) (c : Ctx) f fs :
  1 <= n <= 32 -> Frames c = f :: fs ->
  0 <= Pc f -> Pc f + n < 2 ^ 64 ->
  stackHeight f < MAXSTACK ->
  Forall (fun b => 0 <= b < 256) (Code c) ->
  let V := be_load (slice (Code c) (Pc f + 1) n) in
  (size (Code c) <= Pc f + n ->
   run (PushHandler_doExecute (OP_PUSH1 + n - 1)) c = Raised UnexpectedEnd c) /\
  (Pc f + n < size (Code c) ->
   run (PushHandler_doExecute (OP_PUSH1 + n - 1)) c
   = Done (set_Frames (set_Pc (Pc f + n) (set_Stack (V :: Stack f) f) :: fs) c)
   /\ 0 <= V < 256 ^ n).
Proof.
  intros Hn Hf Hpc Hfit Hh Hcode V.
  destruct c as [frames rd st ij code h hc].
  destruct f as [stk mem pc msg gr rev].
  unfold stackHeight in Hh. hsimpl in *. subst frames.
  split.
  - intros Hend. unfold PushHandler_doExecute. rewrite (push_count n Hn).
    hunfold. rewrite (u64_small (pc + n)) by lia.
    rewrite (ltb_false (pc + n)) by lia. reflexivity.
  - intros Hin.
    assert (Hdata : size (slice code (pc + 1) n) = n)
      by (apply size_slice; lia).
    split.
    + unfold PushHandler_doExecute. rewrite (push_count n Hn).
      hunfold. rewrite !(u64_small (pc + n)) by lia.
      rewrite (ltb_true (pc + n)) by lia. hsimpl.
      unfold stackHeight. hsimpl.
      rewrite (leb_false MAXSTACK) by lia. hsimpl.
      rewrite (u64_small (pc + n)) by lia.
      rewrite (push_immediate _ n Hn Hdata). reflexivity.
    + subst V.
      pose proof (be_load_bound (slice code (pc + 1) n)
                    (Forall_slice _ _ _ _ Hcode)) as Hb.
      rewrite Hdata in Hb. exact Hb.
Qed.

(** JUMP and JUMPI on a frame that holds their operands. *)
Lemma JumpHandler_run (c : Ctx) f fs (d : Z) (s : list Z) :
  Frames c = f :: fs -> Stack f = d :: s ->
  let Dest := uint256ToUint64 d in
  let valid := (Dest <? size (Code c))
               && (nth (nat_of Dest) (Code c) 0 =? OP_JUMPDEST) in
  run JumpHandler_doExecute c
  = if valid
    then Done (mkCtx (set_Pc Dest (set_Stack s f) :: fs) (ReturnData c)
                     (Status c) true (Code c) (HostSt c) (HostCalls c))
    else Raised EVMBadJumpDestination (set_Frames (set_Stack s f :: fs) c).
Proof.
  intros Hf Hs Dest valid. subst valid.
  destruct c as [frames rd st ij code h hc].
  destruct f as [stk mem pc msg gr rev].
  hsimpl in *. subst frames stk.
  unfold JumpHandler_doExecute. hunfold_jump. unfold stackHeight. hsimpl.
  stack_check_ok. fold Dest.
  destruct (Dest <? size code); hsimpl; [|reflexivity].
  destruct (nth (nat_of Dest) code 0 =? OP_JUMPDEST); reflexivity.
Qed.

Lemma JumpIHandler_run (c : Ctx) f fs (d cond : Z) (s : list Z) :
  Frames c = f :: fs -> Stack f = d :: cond :: s ->
  let Dest := uint256ToUint64 d in
  let valid := (Dest <? size (Code c))
               && (nth (nat_of Dest) (Code c) 0 =? OP_JUMPDEST) in
  run JumpIHandler_doExecute c
  = if cond =? 0
    then Done (set_Frames (set_Stack s f :: fs) c)
    else if valid
    then Done (mkCtx (set_Pc Dest (set_Stack s f) :: fs) (ReturnData c)
                     (Status c) true (Code c) (HostSt c) (HostCalls c))
    else Raised EVMBadJumpDestination (set_Frames (set_Stack s f :: fs) c).
Proof.
  intros Hf Hs Dest valid. subst valid.
  destruct c as [frames rd st ij code h hc].
  destruct f as [stk mem pc msg gr rev].
  hsimpl in *. subst frames stk.
  unfold JumpIHandler_doExecute. hunfold_jump. unfold stackHeight. hsimpl.
  stack_check_ok. fold Dest.
  destruct (cond =? 0); hsimpl; [reflexivity|].
  destruct (Dest <? size code); hsimpl; [|reflexivity].
  destruct (nth (nat_of Dest) code 0 =? OP_JUMPDEST); reflexivity.
Qed.

(** X17.  JUMP pops the destination and reads it modulo 2^64.  It jumps (pc set
    to the destination, [IsJump] raised) exactly when the destination is
    inside the code and the byte there is JUMPDEST (0x5b), whatever
    precedes that byte; otherwise it throws [EVMBadJumpDestination] with the
    destination already popped. *)
Theorem JumpHandler_destination_check (c : Ctx) f fs (d : Z) (s : list Z) :
  Frames c = f :: fs -> Stack f = d :: s ->
  let Dest := uint256ToUint64 d in
  let valid := (Dest <? size (Code c))
               && (nth (nat_of Dest) (Code c) 0 =? OP_JUMPDEST) in
  run JumpHandler_doExecute c
  = if valid
    then Done (mkCtx (set_Pc Dest (set_Stack s f) :: fs) (ReturnData c)
                     (Status c) true (Code c) (HostSt c) (HostCalls c))
    else Raised EVMBadJumpDestination (set_Frames (set_Stack s f :: fs) c).
Proof. apply JumpHandler_run. Qed.

(** X18.  JUMPI pops the destination and the condition.  On a zero condition it
    does nothing more, whatever the destination, a bad one included: pc and
    [IsJump] stay.  On a non-zero condition it behaves as JUMP. *)
Theorem JumpIHandler_condition (c : Ctx) f fs (d cond : Z) (s : list Z) :
  Frames c = f :: fs -> Stack f = d :: cond :: s ->
  let Dest := uint256ToUint64 d in
  let valid := (Dest <? size (Code c))
               && (nth (nat_of Dest) (Code c) 0 =? OP_JUMPDEST) in
  run JumpIHandler_doExecute c
  = if cond =? 0
    then Done (set_Frames (set_Stack s f :: fs) c)
    else if valid
    then Done (mkCtx (set_Pc Dest (set_Stack s f) :: fs) (ReturnData c)
                     (Status c) true (Code c) (HostSt c) (HostCalls c))
    else Raised EVMBadJumpDestination (set_Frames (set_Stack s f :: fs) c).
Proof. apply JumpIHandler_run. Qed.

(** X19.  A JUMP that completes, and a JUMPI that completes with a jump, leave pc
    on a JUMPDEST byte inside the code; a JUMPI that completes without a
    jump leaves pc and [IsJump] as they were. *)
Theorem jumps_land_on_JUMPDEST (c c' : Ctx) :
  (run JumpHandler_doExecute c = Done c' ->
   exists f' fs', Frames c' = f' :: fs' /\ IsJump c' = true /\
     0 <= Pc f' < size (Code c') /\
     nth (nat_of (Pc f')) (Code c') 0 = OP_JUMPDEST) /\
  (run JumpIHandler_doExecute c = Done c' ->
   exists f f' fs, Frames c = f :: fs /\ Frames c' = f' :: fs /\
     ((IsJump c' = IsJump c /\ Pc f' = Pc f) \/
      (IsJump c' = true /\ 0 <= Pc f' < size (Code c') /\
       nth (nat_of (Pc f')) (Code c') 0 = OP_JUMPDEST))).
Proof.
  destruct c as [frames rd st ij code h hc].
  destruct frames as [|f fs].
  { split; intros E; discriminate E. }
  destruct f as [stk mem pc msg gr rev].
  split; intros E.
  - destruct stk as [|d s]; [discriminate E|].
    rewrite (JumpHandler_run
               (mkCtx (mkFrame (d :: s) mem pc msg gr rev :: fs) rd st ij code h hc)
               (mkFrame (d :: s) mem pc msg gr rev) fs d s eq_refl eq_refl) in E.
    hsimpl in E. pose proof (uint256ToUint64_range d) as HD.
    destruct (Z.ltb_spec (uint256ToUint64 d) (size code)); cbn [andb] in E;
      [|discriminate E].
    destruct (Z.eqb_spec (nth (nat_of (uint256ToUint64 d)) code 0) OP_JUMPDEST);
      [|discriminate E].
    injection E as <-. eexists _, _. hsimpl.
    repeat split; first [reflexivity | lia | assumption].
  - destruct stk as [|d [|cond s]]; [discriminate E | discriminate E |].
    rewrite (JumpIHandler_run
               (mkCtx (mkFrame (d :: cond :: s) mem pc msg gr rev :: fs) rd st ij
                      code h hc)
               (mkFrame (d :: cond :: s) mem pc msg gr rev) fs d cond s
               eq_refl eq_refl) in E.
    hsimpl in E. pose proof (uint256ToUint64_range d) as HD.
    destruct (cond =? 0).
    { injection E as <-. eexists _, _, _. hsimpl.
      split; [reflexivity|]. split; [reflexivity|]. left. split; reflexivity. }
    destruct (Z.ltb_spec (uint256ToUint64 d) (size code)); cbn [andb] in E;
      [|discriminate E].
    destruct (Z.eqb_spec (nth (nat_of (uint256ToUint64 d)) code 0) OP_JUMPDEST);
      [|discriminate E].
    injection E as <-. eexists _, _, _. hsimpl.
    split; [reflexivity|]. split; [reflexivity|]. right.
    repeat split; first [reflexivity | lia | assumption].
Qed.

(** X20.  CALLDATALOAD pushes the big-endian number of the 32 bytes of call data
    from the offset on, with zeros where the call data ends; an offset at or
    past the end (an offset of 2^64 or more included) gives 0 and is no
    error. *)
Theorem CallDataLoadHandler_zero_padded_word (c : Ctx) f fs (o : Z) (s : list Z) :
  Frames c = f :: fs -> Stack f = o :: s ->
  stackHeight f <= MAXSTACK -> 0 <= o ->
  input_size (Msg f) = size (input_data (Msg f)) ->
  input_size (Msg f) < 2 ^ 64 ->
  run CallDataLoadHandler_doExecute c
  = Done (set_Frames
            (set_Stack (be_load (zero_padded (input_data (Msg f)) o 32) :: s) f
             :: fs) c) /\
  (input_size (Msg f) <= o -> be_load (zero_padded (input_data (Msg f)) o 32) = 0).
Proof.
  intros Hf Hs Hh Ho Hin Hfit.
  assert (Hout : input_size (Msg f) <= o ->
                 be_load (zero_padded (input_data (Msg f)) o 32) = 0).
  { intros Hle. rewrite <- zero_padded_outside by lia.
    apply be_load_zeros. }
  split; [|exact Hout].
  open_state c f. unfold stackHeight in Hh. hsimpl in Hh.
  rewrite size_cons in Hh. pose proof (size_nonneg s).
  pose proof (size_nonneg idata).
  unfold CallDataLoadHandler_doExecute. hunfold. unfold stackHeight. hsimpl.
  stack_check_ok.
  destruct (Z.ltb_spec isz o) as [Hpast | Hins]; hsimpl.
  - push_ok. rewrite Hout by lia. reflexivity.
  - push_ok. rewrite uint256ToUint64_small by lia.
    rewrite CallDataLoadHandler_DataBytes_zero_padded by (hsimpl; lia).
    reflexivity.
Qed.

End StackAndControlFlow.

Section Accounts.

Context {HostState : Type}.
Variable Host : HostInterface HostState.
Local Abbreviation Ctx := (InterpreterExecContext HostState).

(** X21.  BALANCE and EXTCODESIZE pop an address and push the Host's answer for
    its low 160 bits.  From Berlin on they ask the Host to access the
    account and a cold one costs 2500 more; before Berlin the Host's access
    list is not touched.  When the gas does not cover the surcharge the
    status is out-of-gas, the operand stays popped and nothing is pushed. *)
Theorem BalanceHandler_ExtCodeSizeHandler_cold_surcharge (c : Ctx) f fs (x : Z)
  (s : list Z) :
  Frames c = f :: fs -> Stack f = x :: s ->
  stackHeight f <= MAXSTACK -> 0 <= gas (Msg f) < 2 ^ 63 ->
  let Addr := trunc_address x in
  let berlin := rev_ge (Rev f) EVMC_BERLIN in
  let acc := access_account Host Addr (HostSt c) in
  let h1 := if berlin then snd acc else HostSt c in
  let Surcharge := if berlin && is_cold (fst acc)
                   then ADDITIONAL_COLD_ACCOUNT_ACCESS_COST else 0 in
  let done v :=
    Done (set_HostSt h1
            (set_Frames
               (set_Msg_gas (gas (Msg f) - Surcharge) (set_Stack (v :: s) f)
                :: fs) c)) in
  let out_of_gas :=
    Done (mkCtx (set_Stack s f :: fs) (ReturnData c) EVMC_OUT_OF_GAS (IsJump c)
                (Code c) h1 (HostCalls c)) in
  (Surcharge <= gas (Msg f) ->
   run (BalanceHandler_doExecute Host) c = done (get_balance Host h1 Addr) /\
   run (ExtCodeSizeHandler_doExecute Host) c = done (get_code_size Host h1 Addr))
  /\
  (gas (Msg f) < Surcharge ->
   run (BalanceHandler_doExecute Host) c = out_of_gas /\
   run (ExtCodeSizeHandler_doExecute Host) c = out_of_gas).
Proof.
  intros Hf Hs Hh Hg Addr berlin acc h1 Surcharge done out_of_gas.
  subst done out_of_gas.
  open_state c f. unfold stackHeight in Hh. hsimpl in Hh.
  rewrite size_cons in Hh. pose proof (size_nonneg s) as Hsz.
  subst berlin acc.
  unfold ADDITIONAL_COLD_ACCOUNT_ACCESS_COST in *.
  destruct (rev_ge rev EVMC_BERLIN) eqn:Hb;
    [destruct (access_account Host Addr h) as [status h'] eqn:Hacc;
     destruct status|].
  all: cbn [andb is_cold fst snd] in *; subst h1 Surcharge.
  all: split; intros Hcost; try (exfalso; lia).
  all: split.
  all: unfold BalanceHandler_doExecute, ExtCodeSizeHandler_doExecute;
       hunfold_keep; unfold stackHeight; hsimpl; stack_check_ok;
       rewrite Hb; hsimpl; fold Addr; rewrite ?Hacc; hsimpl; cbn [is_cold];
       hsimpl; unfold ADDITIONAL_COLD_ACCOUNT_ACCESS_COST;
       rewrite ?chargeGas_run; hsimpl; rewrite ?(u64_small g) by lia.
  all: try rewrite (ltb_false g 2500) by lia.
  all: try rewrite (ltb_true g 2500) by lia.
  all: hsimpl; rewrite ?gas_after_charge_ok by lia;
       rewrite ?gas_after_charge_fail by lia;
       rewrite ?(i64_small (g - 2500)) by lia.
  all: try push_ok.
  all: rewrite ?Z.sub_0_r; reflexivity.
Qed.

End Accounts.

Section SubCalls.

Context {HostState : Type}.
Variable Host : HostInterface HostState.
Variable MAX_REQUIRED_MEMORY_SIZE : Z.
Local Abbreviation Ctx := (InterpreterExecContext HostState).

(** X22.  LOGn outside static mode, with an offset and size that do not wrap:
    the frame pays the memory expansion to [offset + size] and 8 gas per
    byte of data, and nothing per topic; the Host receives the frame's
    recipient, the memory slice and the [n] topics in the order they were
    popped. *)
Theorem LogHandler_emits_log (c : Ctx) f fs (n o s : Z) (topics rest : list Z) :
  Frames c = f :: fs -> isStaticMode f = false -> 0 <= n <= 4 ->
  Stack f = o :: s :: topics ++ rest -> length topics = nat_of n ->
  let Offset := uint256ToUint64 o in
  let Size := uint256ToUint64 s in
  Offset + Size < 2 ^ 64 -> Offset + Size <= MAX_REQUIRED_MEMORY_SIZE ->
  0 <= gas (Msg f) < 2 ^ 63 ->
  let Cost := calculateMemoryExpansionCost (size (Memory f)) (Offset + Size) in
  8 * Size < 2 ^ 64 -> Cost + 8 * Size <= gas (Msg f) ->
  let mem' := expand_to (Memory f) (Offset + Size) in
  let f' := mkFrame rest mem' (Pc f)
                    (set_gas (gas (Msg f) - Cost - 8 * Size) (Msg f))
                    (GasRefund f) (Rev f) in
  run (LogHandler_doExecute Host MAX_REQUIRED_MEMORY_SIZE (OP_LOG0 + n)) c
  = Done (set_HostSt (emit_log Host (recipient (Msg f))
                               (slice mem' Offset Size) Size topics (HostSt c))
                     (set_Frames (f' :: fs) c)).
Proof.
  intros Hf Hstatic Hn Hs Hlen Offset Size Hsum Hmax Hg Cost Hdata Hcost mem' f'.
  destruct c as [frames rd st ij code h hc].
  destruct f as [stk mem pc msg gr rev].
  destruct msg as [k fl d g rcp sndr idata isz val salt ca].
  unfold isStaticMode in Hstatic. hsimpl in *. subst frames stk.
  pose proof (uint256ToUint64_range o) as HO.
  pose proof (uint256ToUint64_range s) as HS.
  fold Offset in HO. fold Size in HS.
  pose proof (calculateMemoryExpansionCost_range (size mem) (Offset + Size)) as HC.
  fold Cost in HC.
  unfold LogHandler_doExecute. rewrite (log_count n Hn). hunfold_keep.
  unfold isStaticMode. hsimpl. rewrite Hstatic. hsimpl.
  unfold stackHeight. hsimpl.
  replace (u32 (n + 2) <=? size (o :: s :: topics ++ rest)) with true.
  2:{ symmetry. apply Z.leb_le. unfold u32. rewrite Z.mod_small by lia.
      rewrite !size_cons. unfold size. rewrite length_app, Hlen.
      unfold nat_of. lia. }
  hsimpl. fold Offset Size. rewrite (u64_small (Offset + Size)) by lia.
  rewrite expandMemoryAndChargeGas_run by (fold Cost; lia).
  fold Cost mem'. hsimpl.
  rewrite (u64_small (8 * Size)) by lia.
  rewrite chargeGas_run. hsimpl.
  rewrite (u64_small (g - Cost)) by lia.
  rewrite (ltb_false (g - Cost)) by lia.
  rewrite gas_after_charge_ok by lia. hsimpl.
  rewrite <- Hlen, pop_topics_app. hsimpl. reflexivity.
Qed.

(** X23.  In static mode LOGn sets the status static-mode-violation before it
    looks at the stack and emits nothing; CREATE and CREATE2 pop their
    operands, push the assumed-failure 0, clear the return data and set the
    same status without a sub-call.  Neither throws. *)
Theorem LogHandler_CreateHandler_static_mode (c : Ctx) f fs :
  Frames c = f :: fs -> isStaticMode f = true ->
  (forall op,
     run (LogHandler_doExecute Host MAX_REQUIRED_MEMORY_SIZE op) c
     = Done (mkCtx (Frames c) (ReturnData c) EVMC_STATIC_MODE_VIOLATION
                   (IsJump c) (Code c) (HostSt c) (HostCalls c))) /\
  (forall Value CodeOffset CodeSize rest,
     Stack f = Value :: CodeOffset :: CodeSize :: rest ->
     stackHeight f <= MAXSTACK ->
     run (CreateHandler_doExecute Host MAX_REQUIRED_MEMORY_SIZE OP_CREATE) c
     = Done (mkCtx (set_Stack (0 :: rest) f :: fs) [] EVMC_STATIC_MODE_VIOLATION
                   (IsJump c) (Code c) (HostSt c) (HostCalls c))) /\
  (forall Value CodeOffset CodeSize Salt rest,
     Stack f = Value :: CodeOffset :: CodeSize :: Salt :: rest ->
     stackHeight f <= MAXSTACK ->
     run (CreateHandler_doExecute Host MAX_REQUIRED_MEMORY_SIZE OP_CREATE2) c
     = Done (mkCtx (set_Stack (0 :: rest) f :: fs) [] EVMC_STATIC_MODE_VIOLATION
                   (IsJump c) (Code c) (HostSt c) (HostCalls c))).
Proof.
  intros Hf Hstatic.
  destruct c as [frames rd st ij code h hc].
  destruct f as [stk mem pc msg gr rev].
  hsimpl in *. subst frames.
  unfold isStaticMode in Hstatic. hsimpl in Hstatic.
  split; [|split].
  - intros op. unfold LogHandler_doExecute. hunfold.
    unfold isStaticMode. hsimpl. rewrite Hstatic. reflexivity.
  - intros Value CodeOffset CodeSize rest Hs Hh. subst stk.
    unfold stackHeight in Hh. hsimpl in Hh. rewrite !size_cons in Hh.
    pose proof (size_nonneg rest).
    unfold CreateHandler_doExecute. eval_opcode_tests. hunfold.
    unfold stackHeight. hsimpl. stack_check_ok. push_ok.
    unfold isStaticMode. hsimpl. rewrite Hstatic. reflexivity.
  - intros Value CodeOffset CodeSize Salt rest Hs Hh. subst stk.
    unfold stackHeight in Hh. hsimpl in Hh. rewrite !size_cons in Hh.
    pose proof (size_nonneg rest).
    unfold CreateHandler_doExecute. eval_opcode_tests. hunfold.
    unfold stackHeight. hsimpl. stack_check_ok. push_ok.
    unfold isStaticMode. hsimpl. rewrite Hstatic. reflexivity.
Qed.


(** X25.  CALL in static mode is a static-mode violation whatever the value, 0
    included: after the access cost and the two memory expansions are
    charged the handler sets the status and returns with the assumed 0 on
    the stack, and no sub-call is made. *)
Theorem CallHandler_static_mode_violation (c : Ctx) f fs
  (Gas DestVal Value InputOffset InputSize OutputOffset OutputSize : Z)
  (rest : list Z) :
  Frames c = f :: fs ->
  Stack f = Gas :: DestVal :: Value :: InputOffset :: InputSize
            :: OutputOffset :: OutputSize :: rest ->
  stackHeight f <= MAXSTACK ->
  0 <= gas (Msg f) < 2 ^ 63 ->
  isStaticMode f = true ->
  let Dest := trunc_address DestVal in
  let berlin := rev_ge (Rev f) EVMC_BERLIN in
  let acc := access_account Host Dest (HostSt c) in
  let h1 := if berlin then snd acc else HostSt c in
  let A := if berlin && is_cold (fst acc)
           then COLD_ACCOUNT_ACCESS_COST else WARM_ACCOUNT_ACCESS_COST in
  A <= gas (Msg f) ->
  depth (Msg f) < MAXSTACK ->
  Value <= get_balance Host h1 (recipient (Msg f)) ->
  let R1 := uint256ToUint64 (u256 (InputOffset + InputSize)) in
  let E1 := calculateMemoryExpansionCost (size (Memory f)) R1 in
  let mem1 := expand_to (Memory f) R1 in
  let R2 := uint256ToUint64 (u256 (OutputOffset + OutputSize)) in
  let E2 := calculateMemoryExpansionCost (size mem1) R2 in
  let mem2 := expand_to mem1 R2 in
  R1 <= MAX_REQUIRED_MEMORY_SIZE -> R2 <= MAX_REQUIRED_MEMORY_SIZE ->
  A + E1 + E2 <= gas (Msg f) ->
  let g3 := gas (Msg f) - A - E1 - E2 in
  (rev_ge (Rev f) EVMC_TANGERINE_WHISTLE = true \/ i64 Gas <= g3) ->
  run (CallHandler_doExecute Host MAX_REQUIRED_MEMORY_SIZE OP_CALL) c
  = Done (mkCtx (mkFrame (0 :: rest) mem2 (Pc f) (set_gas g3 (Msg f))
                         (GasRefund f) (Rev f) :: fs)
                [] EVMC_STATIC_MODE_VIOLATION (IsJump c) (Code c) h1
                (HostCalls c)).
Proof.
  intros Hf Hs Hh Hg Hstatic Dest berlin acc h1 A HA Hd Hbal R1 E1 mem1
         R2 E2 mem2 HR1 HR2 HE g3 Htw.
  destruct c as [frames rd st ij code h hc].
  destruct f as [stk mem pc msg gr rev].
  destruct msg as [k fl d g rcp sndr idata isz val salt ca].
  unfold stackHeight in Hh. hsimpl in *. subst frames.
  unfold isStaticMode in Hstatic. hsimpl in Hstatic.
  pose proof (calculateMemoryExpansionCost_range (size mem) R1) as HE1.
  pose proof (calculateMemoryExpansionCost_range (size mem1) R2) as HE2.
  fold E1 in HE1. fold E2 in HE2.
  pose proof (size_nonneg rest) as Hrest.
  assert (Hdepth : (MAXSTACK <=? d) = false) by (apply Z.leb_gt; lia).
  subst berlin acc.
  destruct (rev_ge rev EVMC_BERLIN) eqn:Hb;
    [destruct (access_account Host Dest h) as [status h'] eqn:Hacc;
     destruct status|].
  all: cbn [andb is_cold] in *.
  all: subst h1 A.
  all: subst stk; rewrite !size_cons in Hh.
  all: assert (Hpush : (MAXSTACK <=? size rest) = false)
         by (apply Z.leb_gt; unfold MAXSTACK in *; lia).
  all: unfold CallHandler_doExecute; eval_opcode_tests; hunfold_keep;
       unfold stackHeight; hsimpl; stack_check_ok;
       rewrite Hpush; hsimpl; rewrite Hb; hsimpl; fold Dest;
       rewrite ?Hacc; hsimpl; cbn [is_cold]; hsimpl;
       rewrite chargeGas_run; hsimpl;
       rewrite (u64_small g) by lia.
  all: unfold COLD_ACCOUNT_ACCESS_COST, WARM_ACCOUNT_ACCESS_COST in *.
  all: rewrite (ltb_false g _) by lia;
       rewrite (gas_after_charge_ok g _) by lia.
  all: hsimpl; rewrite Hdepth; hsimpl.
  all: rewrite (ltb_false _ Value) by lia.
  all: cbn [andb]; hsimpl; fold R1;
       rewrite expandMemoryAndChargeGas_run by (fold E1; lia);
       fold E1 mem1; hsimpl; fold R2;
       rewrite expandMemoryAndChargeGas_run by (fold E2; lia);
       fold E2 mem2; hsimpl; fold g3.
  all: assert (Hgas_ok : (g3 <? i64 Gas) = false
                         \/ rev_ge rev EVMC_TANGERINE_WHISTLE = true)
         by (destruct Htw as [Htw | Htw];
             [now right | left; apply Z.ltb_ge; lia]).
  all: destruct (rev_ge rev EVMC_TANGERINE_WHISTLE);
         [|destruct Hgas_ok as [Hgas_ok | Hgas_ok];
           [rewrite Hgas_ok | discriminate]].
  all: hsimpl; unfold isStaticMode; hsimpl; rewrite Hstatic; reflexivity.
Qed.

(** X26.  The sub-call of CREATE and CREATE2, for an execution that passes every
    exit before it.  The frame pays the initcode cost (2 per word from
    Shanghai on, 6 more per word for CREATE2) and the memory expansion.  The
    message handed to the Host has kind [EVMC_CREATE] for both opcodes, the
    depth plus one, the frame's sender as sender, the initcode slice as
    input, the value, and the salt for CREATE2; from Tangerine Whistle on it
    passes all but one 64th of the gas left, before that all of it.
    Afterwards the frame is charged what the sub-call used, the 0 is
    replaced by the created address on success, and the output, the refund
    and the status of the result are taken over. *)
Theorem CreateHandler_sub_call (op : Z) (c : Ctx) f fs
  (Value CodeOffset CodeSizeVal Salt : Z) (rest : list Z) :
  op = OP_CREATE \/ op = OP_CREATE2 ->
  Frames c = f :: fs ->
  Stack f = Value :: CodeOffset :: CodeSizeVal
            :: (if op =? OP_CREATE2 then [Salt] else []) ++ rest ->
  stackHeight f <= MAXSTACK ->
  0 <= gas (Msg f) < 2 ^ 63 ->
  isStaticMode f = false ->
  let shanghai := rev_ge (Rev f) EVMC_SHANGHAI in
  shanghai && (MAX_SIZE_OF_INITCODE <? CodeSizeVal) = false ->
  let InitCodeCost :=
    u64 ((6 * (if op =? OP_CREATE2 then 1 else 0)
          + 2 * (if shanghai then 1 else 0))
         * uint256ToUint64 (u256 (CodeSizeVal + 31) / 32)) in
  depth (Msg f) < MAXSTACK ->
  Value <= get_balance Host (HostSt c) (recipient (Msg f)) ->
  let R := uint256ToUint64 (u256 (CodeOffset + CodeSizeVal)) in
  let E := calculateMemoryExpansionCost (size (Memory f)) R in
  let mem1 := expand_to (Memory f) R in
  R <= MAX_REQUIRED_MEMORY_SIZE ->
  InitCodeCost + E <= gas (Msg f) ->
  let g2 := gas (Msg f) - InitCodeCost - E in
  let NewMsg :=
    mkMsg EVMC_CREATE 0 (depth (Msg f) + 1)
          (if rev_ge (Rev f) EVMC_TANGERINE_WHISTLE
           then g2 - Z.quot g2 64 else g2)
          0 (sender (Msg f))
          (slice mem1 (uint256ToUint64 CodeOffset) (uint256ToUint64 CodeSizeVal))
          (uint256ToUint64 CodeSizeVal) Value
          (if op =? OP_CREATE2 then Salt else 0) 0 in
  let Result := fst (call Host NewMsg (HostSt c)) in
  let GasUsed := u64 (gas NewMsg - gas_left Result) in
  run (CreateHandler_doExecute Host MAX_REQUIRED_MEMORY_SIZE op) c
  = Done (mkCtx
            (mkFrame ((if is_success (status_code Result)
                       then create_address Result else 0) :: rest)
                     mem1 (Pc f)
                     (set_gas (gas_after_charge g2 GasUsed) (Msg f))
                     (GasRefund f + gas_refund Result) (Rev f) :: fs)
            (output_data Result) (status_code Result) (IsJump c) (Code c)
            (snd (call Host NewMsg (HostSt c))) (NewMsg :: HostCalls c)).
Proof.
  intros Hop Hf Hs Hh Hg Hstatic shanghai Hsmall InitCodeCost Hd Hbal R E mem1
         HR HE g2.
  destruct c as [frames rd st ij code h hc].
  destruct f as [stk mem pc msg gr rev].
  destruct msg as [k fl d g rcp sndr idata isz val salt ca].
  unfold stackHeight in Hh. unfold isStaticMode in Hstatic.
  hsimpl in *. subst frames.
  pose proof (size_nonneg rest) as Hrest.
  pose proof (u64_range
    ((6 * (if op =? OP_CREATE2 then 1 else 0)
      + 2 * (if shanghai then 1 else 0))
     * uint256ToUint64 (u256 (CodeSizeVal + 31) / 32))) as Hcost.
  fold InitCodeCost in Hcost.
  pose proof (calculateMemoryExpansionCost_range (size mem) R) as HEr.
  fold E in HEr.
  assert (Hdepth : (MAXSTACK <=? d) = false) by (apply Z.leb_gt; lia).
  destruct Hop as [-> | ->].
  all: cbv [OP_CREATE OP_CREATE2 Z.eqb Pos.eqb app] in Hs.
  all: subst stk; rewrite !size_cons in Hh.
  all: assert (Hpush : (MAXSTACK <=? size rest) = false)
         by (apply Z.leb_gt; unfold MAXSTACK in *; lia).
  all: unfold CreateHandler_doExecute; eval_opcode_tests; hunfold_keep;
       unfold stackHeight; hsimpl; stack_check_ok;
       rewrite Hpush; hsimpl; unfold isStaticMode; hsimpl.
  all: rewrite Hstatic; hsimpl.
  all: fold shanghai; rewrite Hsmall; hsimpl.
  all: revert Hcost HE; subst g2 InitCodeCost; eval_opcode_tests;
       intros Hcost HE.
  all: rewrite chargeGas_run; hsimpl; rewrite (u64_small g) by lia.
  all: match goal with
       | |- context [gas_after_charge ?x ?A] =>
           rewrite (ltb_false x A) by lia;
           rewrite (gas_after_charge_ok x A) by lia
       end; hsimpl.
  all: rewrite Hdepth; hsimpl.
  all: rewrite (ltb_false _ Value) by lia; hsimpl.
  all: fold R; rewrite expandMemoryAndChargeGas_run by (fold E; lia);
       fold E mem1; hsimpl.
  all: destruct (rev_ge rev EVMC_TANGERINE_WHISTLE); hsimpl.
  all: rewrite chargeGas_run; hsimpl.
  all: match goal with
       | |- context [is_success ?s] => destruct (is_success s)
       end; hsimpl; rewrite ?Hpush; hsimpl.
  all: reflexivity.
Qed.

End SubCalls.

Section Underflow.

Context {HostState : Type}.
Variable Host : HostInterface HostState.
Variable MAX_REQUIRED_MEMORY_SIZE : Z.
Variable keccak256 : list Z -> list Z.
Variable uint256_of_minus_one : Z.
Local Abbreviation Ctx := (InterpreterExecContext HostState).

(** X27.  A handler that finds fewer operands on the stack than it takes throws
    [UnexpectedNumArgs] before it pops, charges or writes anything: the
    context is left exactly as it was. *)
Theorem too_few_operands_change_nothing (c : Ctx) f fs :
  Frames c = f :: fs ->
  let underflow (m : M Ctx unit) := run m c = Raised UnexpectedNumArgs c in
  (stackHeight f < 1 ->
   underflow PopHandler_doExecute /\
   underflow (MLoadHandler_doExecute MAX_REQUIRED_MEMORY_SIZE) /\
   underflow JumpHandler_doExecute /\
   underflow (BalanceHandler_doExecute Host) /\
   underflow (ExtCodeSizeHandler_doExecute Host) /\
   underflow CallDataLoadHandler_doExecute) /\
  (stackHeight f < 2 ->
   underflow (MStoreHandler_doExecute MAX_REQUIRED_MEMORY_SIZE) /\
   underflow (MStore8Handler_doExecute MAX_REQUIRED_MEMORY_SIZE) /\
   underflow (Keccak256Handler_doExecute MAX_REQUIRED_MEMORY_SIZE keccak256) /\
   underflow (ReturnHandler_doExecute MAX_REQUIRED_MEMORY_SIZE) /\
   underflow (RevertHandler_doExecute MAX_REQUIRED_MEMORY_SIZE) /\
   underflow JumpIHandler_doExecute /\
   underflow SignExtendHandler_doExecute /\
   underflow ByteHandler_doExecute /\
   underflow (SarHandler_doExecute uint256_of_minus_one)) /\
  (stackHeight f < 3 ->
   underflow (CallDataCopyHandler_doExecute MAX_REQUIRED_MEMORY_SIZE) /\
   underflow (CodeCopyHandler_doExecute MAX_REQUIRED_MEMORY_SIZE) /\
   underflow (ReturnDataCopyHandler_doExecute MAX_REQUIRED_MEMORY_SIZE) /\
   underflow (MCopyHandler_doExecute MAX_REQUIRED_MEMORY_SIZE) /\
   underflow (CreateHandler_doExecute Host MAX_REQUIRED_MEMORY_SIZE OP_CREATE)) /\
  (stackHeight f < 4 ->
   underflow (ExtCodeCopyHandler_doExecute Host MAX_REQUIRED_MEMORY_SIZE) /\
   underflow (CreateHandler_doExecute Host MAX_REQUIRED_MEMORY_SIZE OP_CREATE2)) /\
  (stackHeight f < 6 ->
   underflow (CallHandler_doExecute Host MAX_REQUIRED_MEMORY_SIZE OP_DELEGATECALL) /\
   underflow (CallHandler_doExecute Host MAX_REQUIRED_MEMORY_SIZE OP_STATICCALL)) /\
  (stackHeight f < 7 ->
   underflow (CallHandler_doExecute Host MAX_REQUIRED_MEMORY_SIZE OP_CALL) /\
   underflow (CallHandler_doExecute Host MAX_REQUIRED_MEMORY_SIZE OP_CALLCODE)) /\
  (forall n, 0 <= n <= 4 -> isStaticMode f = false -> stackHeight f < n + 2 ->
   underflow (LogHandler_doExecute Host MAX_REQUIRED_MEMORY_SIZE (OP_LOG0 + n))).
Proof.
  intros Hf underflow. subst underflow.
  destruct c as [frames rd st ij code h hc].
  destruct f as [stk mem pc msg gr rev].
  unfold stackHeight. hsimpl in *. subst frames.
  repeat split.
  all: try (intros n Hn Hstatic H).
  all: unfold PopHandler_doExecute, MLoadHandler_doExecute, JumpHandler_doExecute,
         BalanceHandler_doExecute, ExtCodeSizeHandler_doExecute,
         CallDataLoadHandler_doExecute, MStoreHandler_doExecute,
         MStore8Handler_doExecute, Keccak256Handler_doExecute,
         ReturnHandler_doExecute, RevertHandler_doExecute,
         JumpIHandler_doExecute, SignExtendHandler_doExecute,
         ByteHandler_doExecute, SarHandler_doExecute,
         CallDataCopyHandler_doExecute, CodeCopyHandler_doExecute,
         ReturnDataCopyHandler_doExecute, MCopyHandler_doExecute,
         ExtCodeCopyHandler_doExecute, CreateHandler_doExecute,
         CallHandler_doExecute, LogHandler_doExecute.
  all: eval_opcode_tests.
  all: try (rewrite (log_count n Hn); unfold isStaticMode in Hstatic;
            hsimpl in Hstatic).
  all: try stack_check_fails.
  hunfold_keep. unfold isStaticMode, stackHeight. hsimpl. rewrite Hstatic. hsimpl.
  replace (u32 (n + 2) <=? size stk) with false; [reflexivity|].
  symmetry. apply Z.leb_gt. unfold u32. rewrite Z.mod_small; lia.
Qed.

End Underflow.

Section SelfDestruct.

Context {HostState : Type}.
Variable Host : HostInterface HostState.
Variable selfdestruct : Z -> Z -> HostState -> HostState.
Local Abbreviation Ctx := (InterpreterExecContext HostState).

(** X28.  SELFDESTRUCT in static mode sets the status static-mode-violation and
    touches nothing else, the stack included.  Otherwise it pops the
    beneficiary, pays 25000 when the beneficiary does not exist (from
    Spurious Dragon on, whatever balance is sent) and 2500 when it is cold
    (from Berlin on), tells the Host, and ends the frame: the gas left goes
    to the parent, if there is one, and the status is left as it was. *)
Theorem SelfDestructHandler_ends_frame (c : Ctx) f fs :
  Frames c = f :: fs ->
  (isStaticMode f = true ->
   run (SelfDestructHandler_doExecute Host selfdestruct) c
   = Done (mkCtx (Frames c) (ReturnData c) EVMC_STATIC_MODE_VIOLATION
                 (IsJump c) (Code c) (HostSt c) (HostCalls c))) /\
  (forall b s,
     isStaticMode f = false -> Stack f = b :: s ->
     0 <= gas (Msg f) < 2 ^ 63 ->
     let Beneficiary := trunc_address b in
     let Creation :=
       if rev_ge (Rev f) EVMC_SPURIOUS_DRAGON
          && negb (account_exists Host (HostSt c) Beneficiary)
       then ACCOUNT_CREATION_COST else 0 in
     let berlin := rev_ge (Rev f) EVMC_BERLIN in
     let acc := access_account Host Beneficiary (HostSt c) in
     let h1 := if berlin then snd acc else HostSt c in
     let ColdCost := if berlin && is_cold (fst acc)
                     then ADDITIONAL_COLD_ACCOUNT_ACCESS_COST else 0 in
     Creation + ColdCost <= gas (Msg f) ->
     let RemainingGas := gas (Msg f) - Creation - ColdCost in
     let parents :=
       match fs with
       | [] => []
       | p :: fs' => set_Msg_gas (i64 (gas (Msg p) + RemainingGas)) p :: fs'
       end in
     run (SelfDestructHandler_doExecute Host selfdestruct) c
     = Done (mkCtx parents (ReturnData c) (Status c) (IsJump c) (Code c)
                   (selfdestruct (recipient (Msg f)) Beneficiary h1)
                   (HostCalls c))).
Proof.
  intros Hf.
  destruct c as [frames rd st ij code h hc].
  destruct f as [stk mem pc msg gr rev].
  destruct msg as [k fl d g rcp sndr idata isz val salt ca].
  hsimpl in Hf. subst frames.
  split.
  - intros Hstatic. unfold isStaticMode in Hstatic. hsimpl in Hstatic.
    unfold SelfDestructHandler_doExecute. hunfold_selfdestruct.
    unfold isStaticMode. hsimpl. rewrite Hstatic. reflexivity.
  - intros b s Hstatic Hs Hg Beneficiary Creation berlin acc h1 ColdCost Hcost
           RemainingGas parents.
    unfold isStaticMode in Hstatic. hsimpl in *.
    subst stk parents RemainingGas berlin acc.
    unfold ACCOUNT_CREATION_COST, ADDITIONAL_COLD_ACCOUNT_ACCESS_COST in *.
    unfold SelfDestructHandler_doExecute. hunfold_selfdestruct.
    unfold isStaticMode, stackHeight. hsimpl. rewrite Hstatic. hsimpl.
    stack_check_ok. fold Beneficiary.
    destruct (rev_ge rev EVMC_SPURIOUS_DRAGON); hsimpl;
      [destruct (account_exists Host h Beneficiary)|];
      cbn [andb negb] in *; subst Creation; hsimpl.
    all: destruct (rev_ge rev EVMC_BERLIN) eqn:Hb;
      [destruct (access_account Host Beneficiary h) as [status h'] eqn:Hacc;
       destruct status|].
    all: cbn [andb is_cold fst snd] in *; subst h1 ColdCost.
    all: unfold ACCOUNT_CREATION_COST, ADDITIONAL_COLD_ACCOUNT_ACCESS_COST.
    all: rewrite ?chargeGas_run; hsimpl; rewrite ?(u64_small g) by lia;
         rewrite ?(ltb_false g 25000) by lia;
         rewrite ?(gas_after_charge_ok g 25000) by lia; hsimpl.
    all: rewrite ?Hacc; hsimpl; cbn [is_cold]; hsimpl.
    all: rewrite ?chargeGas_run; hsimpl.
    all: rewrite ?(u64_small (g - 25000)) by lia;
         rewrite ?(u64_small g) by lia.
    all: rewrite ?(ltb_false (g - 25000) 2500) by lia;
         rewrite ?(ltb_false g 2500) by lia.
    all: rewrite ?(gas_after_charge_ok (g - 25000) 2500) by lia;
         rewrite ?(gas_after_charge_ok g 2500) by lia; hsimpl.
    all: rewrite ?(u64_small (g - 25000 - 2500)) by lia;
         rewrite ?(u64_small (g - 25000)) by lia;
         rewrite ?(u64_small (g - 2500)) by lia;
         rewrite ?(u64_small g) by lia.
    all: rewrite ?Z.sub_0_r.
    all: destruct fs as [|p fs']; reflexivity.
Qed.

End SelfDestruct.

(** ** The further properties at concrete inputs *)

(** A side condition on concrete values. *)
Ltac concrete :=
  first [ reflexivity
        | lia
        | vm_compute;
          first [ reflexivity | discriminate
                | split; [discriminate | reflexivity] ] ].

Lemma SarHandler_arithmetic_shift_witness :
  run (SarHandler_doExecute example_uint256_of_minus_one)
      (example_state [4; 2 ^ 256 - 32; 9] 100 [])
  = Done (example_state [2 ^ 256 - 2; 9] 100 []).
Proof.
  apply (SarHandler_arithmetic_shift example_uint256_of_minus_one
           (example_state [4; 2 ^ 256 - 32; 9] 100 [])
           (example_frame [4; 2 ^ 256 - 32; 9] (example_msg 0 0 100) EVMC_CANCUN)
           [] 4 (2 ^ 256 - 32) [9]); concrete.
Defined.

Lemma SignExtendHandler_sign_extension_witness :
  run SignExtendHandler_doExecute (example_state [0; 255; 9] 100 [])
  = Done (example_state [2 ^ 256 - 1; 9] 100 [])
  /\ SignExtendHandler_Res 0 383 = 383.
Proof.
  split.
  - apply (SignExtendHandler_sign_extension
             (example_state [0; 255; 9] 100 [])
             (example_frame [0; 255; 9] (example_msg 0 0 100) EVMC_CANCUN)
             [] 0 255 [9]); concrete.
  - apply (SignExtendHandler_sign_extension
             (example_state [0; 383; 9] 100 [])
             (example_frame [0; 383; 9] (example_msg 0 0 100) EVMC_CANCUN)
             [] 0 383 [9]); concrete.
Defined.

Lemma ByteHandler_big_endian_byte_witness :
  run ByteHandler_doExecute (example_state [31; 258; 9] 100 [])
  = Done (example_state [2; 9] 100 []).
Proof.
  apply (ByteHandler_big_endian_byte
           (example_state [31; 258; 9] 100 [])
           (example_frame [31; 258; 9] (example_msg 0 0 100) EVMC_CANCUN)
           [] 31 258 [9]); concrete.
Defined.

Lemma calculateMemoryExpansionCost_two_steps_witness :
  calculateMemoryExpansionCost 32 64 + calculateMemoryExpansionCost 64 4096
  = calculateMemoryExpansionCost 32 4096.
Proof. apply calculateMemoryExpansionCost_two_steps; concrete. Defined.

Lemma chargeGas_affordable_or_unchanged_witness :
  chargeGas 30 (example_state [] 100 []) = Next true (example_state [] 70 []) /\
  chargeGas 101 (example_state [] 100 []) = Next false (example_state [] 100 []).
Proof.
  destruct (chargeGas_affordable_or_unchanged
              (example_state [] 100 [])
              (example_frame [] (example_msg 0 0 100) EVMC_CANCUN) [] 30
              eq_refl ltac:(concrete) ltac:(concrete)) as (Hok & _ & _).
  destruct (chargeGas_affordable_or_unchanged
              (example_state [] 100 [])
              (example_frame [] (example_msg 0 0 100) EVMC_CANCUN) [] 101
              eq_refl ltac:(concrete) ltac:(concrete)) as (_ & Hfail & _).
  split; [apply Hok | apply Hfail]; concrete.
Defined.

Lemma expandMemoryAndChargeGas_outcomes_witness :
  expandMemoryAndChargeGas example_memory_bound 33 (example_state [] 100 [])
  = Next true
      (example_context
         [set_Memory (repeat 0 33)
            (example_frame [] (example_msg 0 0 94) EVMC_CANCUN)] []) /\
  expandMemoryAndChargeGas example_memory_bound (example_memory_bound + 1)
                           (example_state [] 100 [])
  = Thrown EVMTooLargeRequiredMemory (example_state [] 100 []).
Proof.
  destruct (expandMemoryAndChargeGas_outcomes example_memory_bound
              (example_state [] 100 [])
              (example_frame [] (example_msg 0 0 100) EVMC_CANCUN) [] 33
              eq_refl ltac:(concrete)) as (_ & _ & Hok & _).
  destruct (expandMemoryAndChargeGas_outcomes example_memory_bound
              (example_state [] 100 [])
              (example_frame [] (example_msg 0 0 100) EVMC_CANCUN) []
              (example_memory_bound + 1)
              eq_refl ltac:(concrete)) as (Hbig & _).
  split; [apply Hok | apply Hbig]; concrete.
Defined.

Lemma checkMemoryExpandAndChargeGas_checks_witness :
  checkMemoryExpandAndChargeGas_u64 example_memory_bound (2 ^ 64 - 33) 32
                                    (example_state [] 100 [])
  = Thrown IntegerOverflow (example_state [] 100 []) /\
  checkMemoryExpandAndChargeGas_u256 example_memory_bound (2 ^ 256 - 1) 0
                                     (example_state [] 100 [])
  = Next true (example_state [] 100 []).
Proof.
  destruct (checkMemoryExpandAndChargeGas_checks example_memory_bound
              (example_state [] 100 []) (2 ^ 64 - 33) 32
              ltac:(concrete) ltac:(concrete))
    as (_ & _ & _ & _ & Hover & _).
  destruct (checkMemoryExpandAndChargeGas_checks example_memory_bound
              (example_state [] 100 []) (2 ^ 256 - 1) 0
              ltac:(concrete) ltac:(concrete))
    as (Hzero & _).
  split; [apply Hover | apply Hzero]; concrete.
Defined.

Lemma MStoreHandler_then_MLoadHandler_witness :
  run (MStoreHandler_doExecute example_memory_bound)
      (example_state [0; 7; 9] 100 [])
  = Done (example_context
            [set_Memory (repeat 0 31 ++ [7])
               (example_frame [9] (example_msg 0 0 97) EVMC_CANCUN)] []) /\
  run (MLoadHandler_doExecute example_memory_bound)
      (example_context
         [set_Memory (repeat 0 31 ++ [7])
            (example_frame [0; 9] (example_msg 0 0 97) EVMC_CANCUN)] [])
  = Done (example_context
            [set_Memory (repeat 0 31 ++ [7])
               (example_frame [7; 9] (example_msg 0 0 97) EVMC_CANCUN)] []).
Proof.
  apply (MStoreHandler_then_MLoadHandler example_memory_bound
           (example_state [0; 7; 9] 100 [])
           (example_frame [0; 7; 9] (example_msg 0 0 100) EVMC_CANCUN)
           [] 0 7 [9]); concrete.
Defined.

Lemma MStore8Handler_then_MSizeHandler_witness :
  run (MStore8Handler_doExecute example_memory_bound)
      (example_state [2; 258; 9] 100 [])
  = Done (example_context
            [set_Memory [0; 0; 2]
               (example_frame [9] (example_msg 0 0 97) EVMC_CANCUN)] []) /\
  run MSizeHandler_doExecute
      (example_context
         [set_Memory [0; 0; 2]
            (example_frame [9] (example_msg 0 0 97) EVMC_CANCUN)] [])
  = Done (example_context
            [set_Memory [0; 0; 2]
               (example_frame [3; 9] (example_msg 0 0 97) EVMC_CANCUN)] []).
Proof.
  destruct (MStore8Handler_then_MSizeHandler example_memory_bound
              (example_state [2; 258; 9] 100 [])
              (example_frame [2; 258; 9] (example_msg 0 0 100) EVMC_CANCUN)
              [] 2 258 [9]) as (Hstore & _ & Hsize); [concrete .. |].
  split; [exact Hstore | exact Hsize].
Defined.

Lemma copy_of_size_zero_is_free_witness :
  run (CallDataCopyHandler_doExecute example_memory_bound)
      (example_state [2 ^ 200; 5; 0; 9] 100 [])
  = Done (example_state [9] 100 []) /\
  run (MCopyHandler_doExecute example_memory_bound)
      (example_state [2 ^ 200; 5; 0; 9] 100 [])
  = Done (example_state [9] 100 []).
Proof.
  destruct (copy_of_size_zero_is_free example_memory_bound
              (example_state [2 ^ 200; 5; 0; 9] 100 [])
              (example_frame [2 ^ 200; 5; 0; 9] (example_msg 0 0 100) EVMC_CANCUN)
              [] (2 ^ 200) 5 [9]) as (Hdata & _ & _ & Hmcopy); [concrete .. |].
  split; [exact Hdata | exact Hmcopy].
Defined.

Lemma copies_write_zero_padded_source_witness :
  run (CodeCopyHandler_doExecute example_memory_bound)
      (example_state [1; 2; 3; 9] 100 [10; 11; 12; 13])
  = Done (example_context
            [set_Memory [0; 12; 13; 0]
               (example_frame [9] (example_msg 0 0 94) EVMC_CANCUN)]
            [10; 11; 12; 13]) /\
  run (ReturnDataCopyHandler_doExecute example_memory_bound)
      (example_state [1; 2; 3; 9] 100 [10; 11; 12; 13])
  = Done (example_context
            [set_Memory [0; 0; 0; 0]
               (example_frame [9] (example_msg 0 0 94) EVMC_CANCUN)]
            [10; 11; 12; 13]).
Proof.
  destruct (copies_write_zero_padded_source example_memory_bound
              (example_state [1; 2; 3; 9] 100 [10; 11; 12; 13])
              (example_frame [1; 2; 3; 9] (example_msg 0 0 100) EVMC_CANCUN)
              [] 1 2 3 [9]) as (_ & Hcode & Hreturn); [concrete .. |].
  split; [exact Hcode | exact Hreturn].
Defined.

Lemma ReturnHandler_RevertHandler_hand_gas_to_parent_witness :
  run (RevertHandler_doExecute example_memory_bound)
      (example_context
         [example_frame [0; 32] (example_msg 0 1 100) EVMC_CANCUN;
          example_frame [9] (example_msg 0 0 50) EVMC_CANCUN] [])
  = Done (mkCtx [example_frame [9] (example_msg 0 0 147) EVMC_CANCUN]
                (repeat 0 32) EVMC_REVERT false [] tt []).
Proof.
  destruct (ReturnHandler_RevertHandler_hand_gas_to_parent example_memory_bound
              (example_context
                 [example_frame [0; 32] (example_msg 0 1 100) EVMC_CANCUN;
                  example_frame [9] (example_msg 0 0 50) EVMC_CANCUN] [])
              (example_frame [0; 32] (example_msg 0 1 100) EVMC_CANCUN)
              [example_frame [9] (example_msg 0 0 50) EVMC_CANCUN]
              0 32 []) as (_ & Hrevert); [concrete .. |].
  exact Hrevert.
Defined.

Lemma Keccak256Handler_charges_expansion_only_witness :
  run (Keccak256Handler_doExecute example_memory_bound example_keccak256)
      (example_state [0; 64; 9] 100 [])
  = Done (example_context
            [set_Memory (repeat 0 64)
               (example_frame [0; 9] (example_msg 0 0 94) EVMC_CANCUN)] []).
Proof.
  apply (Keccak256Handler_charges_expansion_only example_memory_bound
           example_keccak256
           (example_state [0; 64; 9] 100 [])
           (example_frame [0; 64; 9] (example_msg 0 0 100) EVMC_CANCUN)
           [] 0 64 [9]); concrete.
Defined.

Lemma SwapHandler_exchanges_and_is_involutive_witness :
  run (SwapHandler_doExecute (OP_SWAP1 + 2 - 1)) (example_state [1; 2; 3; 4] 100 [])
  = Done (example_state [3; 2; 1; 4] 100 []) /\
  run (SwapHandler_doExecute (OP_SWAP1 + 2 - 1)) (example_state [3; 2; 1; 4] 100 [])
  = Done (example_state [1; 2; 3; 4] 100 []).
Proof.
  apply (SwapHandler_exchanges_and_is_involutive 2
           (example_state [1; 2; 3; 4] 100 [])
           (example_frame [1; 2; 3; 4] (example_msg 0 0 100) EVMC_CANCUN)
           [] 1 3 [2] [4]); concrete.
Defined.

Lemma DupHandler_then_PopHandler_witness :
  run (DupHandler_doExecute (OP_DUP1 + 2 - 1)) (example_state [1; 2; 3] 100 [])
  = Done (example_state [2; 1; 2; 3] 100 []) /\
  run PopHandler_doExecute (example_state [2; 1; 2; 3] 100 [])
  = Done (example_state [1; 2; 3] 100 []).
Proof.
  apply (DupHandler_then_PopHandler 2
           (example_state [1; 2; 3] 100 [])
           (example_frame [1; 2; 3] (example_msg 0 0 100) EVMC_CANCUN)
           [] 2 [1] [3]); concrete.
Defined.

Lemma PushHandler_immediate_or_UnexpectedEnd_witness :
  run (PushHandler_doExecute (OP_PUSH1 + 2 - 1)) (example_state [9] 100 [97; 1])
  = Raised UnexpectedEnd (example_state [9] 100 [97; 1]) /\
  run (PushHandler_doExecute (OP_PUSH1 + 2 - 1)) (example_state [9] 100 [97; 1; 2; 0])
  = Done (example_context
            [set_Pc 2 (example_frame [258; 9] (example_msg 0 0 100) EVMC_CANCUN)]
            [97; 1; 2; 0]).
Proof.
  destruct (PushHandler_immediate_or_UnexpectedEnd 2
              (example_state [9] 100 [97; 1])
              (example_frame [9] (example_msg 0 0 100) EVMC_CANCUN) [])
    as (Hend & _);
    [concrete .. | repeat constructor; lia |].
  destruct (PushHandler_immediate_or_UnexpectedEnd 2
              (example_state [9] 100 [97; 1; 2; 0])
              (example_frame [9] (example_msg 0 0 100) EVMC_CANCUN) [])
    as (_ & Hpush);
    [concrete .. | repeat constructor; lia |].
  split; [apply Hend; concrete | apply Hpush; concrete].
Defined.

Lemma JumpHandler_destination_check_witness :
  run JumpHandler_doExecute (example_state [2; 9] 100 [96; 91; 91])
  = Done (mkCtx [set_Pc 2 (example_frame [9] (example_msg 0 0 100) EVMC_CANCUN)]
                [] EVMC_SUCCESS true [96; 91; 91] tt []) /\
  run JumpHandler_doExecute (example_state [0; 9] 100 [96; 91; 91])
  = Raised EVMBadJumpDestination (example_state [9] 100 [96; 91; 91]).
Proof.
  split.
  - exact (JumpHandler_destination_check
             (example_state [2; 9] 100 [96; 91; 91])
             (example_frame [2; 9] (example_msg 0 0 100) EVMC_CANCUN)
             [] 2 [9] eq_refl eq_refl).
  - exact (JumpHandler_destination_check
             (example_state [0; 9] 100 [96; 91; 91])
             (example_frame [0; 9] (example_msg 0 0 100) EVMC_CANCUN)
             [] 0 [9] eq_refl eq_refl).
Defined.

Lemma JumpIHandler_condition_witness :
  run JumpIHandler_doExecute (example_state [7; 0; 9] 100 [96; 91; 91])
  = Done (example_state [9] 100 [96; 91; 91]).
Proof.
  exact (JumpIHandler_condition
           (example_state [7; 0; 9] 100 [96; 91; 91])
           (example_frame [7; 0; 9] (example_msg 0 0 100) EVMC_CANCUN)
           [] 7 0 [9] eq_refl eq_refl).
Defined.

Lemma jumps_land_on_JUMPDEST_witness :
  exists f' fs',
    [set_Pc 2 (example_frame [9] (example_msg 0 0 100) EVMC_CANCUN)] = f' :: fs' /\
    true = true /\ 0 <= Pc f' < 3 /\ nth (nat_of (Pc f')) [96; 91; 91] 0 = OP_JUMPDEST.
Proof.
  exact (proj1 (jumps_land_on_JUMPDEST
                  (example_state [2; 9] 100 [96; 91; 91])
                  (mkCtx [set_Pc 2 (example_frame [9] (example_msg 0 0 100)
                                                  EVMC_CANCUN)]
                         [] EVMC_SUCCESS true [96; 91; 91] tt []))
               eq_refl).
Defined.

Lemma CallDataLoadHandler_zero_padded_word_witness :
  run CallDataLoadHandler_doExecute
      (example_context
         [mkFrame [1; 9] [] 0 (mkMsg 0 0 0 100 1 2 [17; 1; 2] 3 0 0 0) 0
                  EVMC_CANCUN] [])
  = Done (example_context
            [mkFrame [2 ^ 248 + 2 * 2 ^ 240; 9] [] 0
                     (mkMsg 0 0 0 100 1 2 [17; 1; 2] 3 0 0 0) 0 EVMC_CANCUN] []).
Proof.
  destruct (CallDataLoadHandler_zero_padded_word
              (example_context
                 [mkFrame [1; 9] [] 0 (mkMsg 0 0 0 100 1 2 [17; 1; 2] 3 0 0 0) 0
                          EVMC_CANCUN] [])
              (mkFrame [1; 9] [] 0 (mkMsg 0 0 0 100 1 2 [17; 1; 2] 3 0 0 0) 0
                       EVMC_CANCUN)
              [] 1 [9]) as (Hrun & _); [concrete .. |].
  exact Hrun.
Defined.

Lemma BalanceHandler_ExtCodeSizeHandler_cold_surcharge_witness :
  run (BalanceHandler_doExecute example_host) (example_state [5; 9] 100 [])
  = Done (example_state [1000000; 9] 100 []) /\
  run (ExtCodeSizeHandler_doExecute example_host) (example_state [5; 9] 100 [])
  = Done (example_state [0; 9] 100 []).
Proof.
  destruct (BalanceHandler_ExtCodeSizeHandler_cold_surcharge example_host
              (example_state [5; 9] 100 [])
              (example_frame [5; 9] (example_msg 0 0 100) EVMC_CANCUN)
              [] 5 [9]) as (Hok & _); [concrete .. |].
  apply Hok; concrete.
Defined.

Lemma LogHandler_emits_log_witness :
  run (LogHandler_doExecute example_host example_memory_bound (OP_LOG0 + 1))
      (example_state [0; 32; 7; 9] 1000 [])
  = Done (example_context
            [set_Memory (repeat 0 32)
               (example_frame [9] (example_msg 0 0 741) EVMC_CANCUN)] []).
Proof.
  apply (LogHandler_emits_log example_host example_memory_bound
           (example_state [0; 32; 7; 9] 1000 [])
           (example_frame [0; 32; 7; 9] (example_msg 0 0 1000) EVMC_CANCUN)
           [] 1 0 32 [7] [9]); concrete.
Defined.

Lemma LogHandler_CreateHandler_static_mode_witness :
  run (LogHandler_doExecute example_host example_memory_bound (OP_LOG0 + 1))
      (example_context
         [example_frame [0; 32; 7; 9] (example_msg 1 0 1000) EVMC_CANCUN] [])
  = Done (mkCtx [example_frame [0; 32; 7; 9] (example_msg 1 0 1000) EVMC_CANCUN]
                [] EVMC_STATIC_MODE_VIOLATION false [] tt []).
Proof.
  destruct (LogHandler_CreateHandler_static_mode example_host example_memory_bound
              (example_context
                 [example_frame [0; 32; 7; 9] (example_msg 1 0 1000) EVMC_CANCUN]
                 [])
              (example_frame [0; 32; 7; 9] (example_msg 1 0 1000) EVMC_CANCUN)
              [] eq_refl eq_refl) as (Hlog & _).
  exact (Hlog (OP_LOG0 + 1)).
Defined.


Lemma CallHandler_static_mode_violation_witness :
  run (CallHandler_doExecute example_host example_memory_bound OP_CALL)
      (example_context
         [example_frame [700; 5; 0; 0; 0; 0; 0; 9] (example_msg 1 0 20000)
                        EVMC_CANCUN] [])
  = Done (mkCtx [example_frame [0; 9] (example_msg 1 0 19900) EVMC_CANCUN]
                [] EVMC_STATIC_MODE_VIOLATION false [] tt []).
Proof.
  apply (CallHandler_static_mode_violation example_host example_memory_bound
           (example_context
              [example_frame [700; 5; 0; 0; 0; 0; 0; 9] (example_msg 1 0 20000)
                             EVMC_CANCUN] [])
           (example_frame [700; 5; 0; 0; 0; 0; 0; 9] (example_msg 1 0 20000)
                          EVMC_CANCUN)
           [] 700 5 0 0 0 0 0 [9]);
    first [concrete | left; reflexivity].
Defined.

Lemma CreateHandler_sub_call_witness :
  observe
    (run (CreateHandler_doExecute example_host example_memory_bound OP_CREATE2)
         (example_state [0; 0; 32; 77; 9] 6400 []))
  = Some (EVMC_SUCCESS, [([0; 9], 32, 6389)]) /\
  HostCalls
    (match run (CreateHandler_doExecute example_host example_memory_bound
                                        OP_CREATE2)
               (example_state [0; 0; 32; 77; 9] 6400 []) with
     | Done c' => c'
     | Raised _ c' => c'
     end)
  = [mkMsg EVMC_CREATE 0 1 6290 0 2 (repeat 0 32) 32 0 77 0].
Proof.
  rewrite (CreateHandler_sub_call example_host example_memory_bound OP_CREATE2
             (example_state [0; 0; 32; 77; 9] 6400 [])
             (example_frame [0; 0; 32; 77; 9] (example_msg 0 0 6400) EVMC_CANCUN)
             [] 0 0 32 77 [9]).
  - split; vm_compute; reflexivity.
  - right; reflexivity.
  - reflexivity.
  - reflexivity.
  - concrete.
  - concrete.
  - concrete.
  - concrete.
  - concrete.
  - concrete.
  - concrete.
  - concrete.
Defined.

Lemma too_few_operands_change_nothing_witness :
  run (MStoreHandler_doExecute example_memory_bound) (example_state [5] 100 [])
  = Raised UnexpectedNumArgs (example_state [5] 100 []) /\
  run (CallHandler_doExecute example_host example_memory_bound OP_STATICCALL)
      (example_state [5] 100 [])
  = Raised UnexpectedNumArgs (example_state [5] 100 []).
Proof.
  destruct (too_few_operands_change_nothing example_host example_memory_bound
              example_keccak256 example_uint256_of_minus_one
              (example_state [5] 100 [])
              (example_frame [5] (example_msg 0 0 100) EVMC_CANCUN) [] eq_refl)
    as (_ & H2 & _ & _ & H6 & _).
  split.
  - apply H2. concrete.
  - apply H6. concrete.
Defined.

Lemma SelfDestructHandler_ends_frame_witness :
  run (SelfDestructHandler_doExecute example_host example_selfdestruct)
      (example_context
         [example_frame [5] (example_msg 0 1 100) EVMC_CANCUN;
          example_frame [9] (example_msg 0 0 50) EVMC_CANCUN] [])
  = Done (example_context [example_frame [9] (example_msg 0 0 150) EVMC_CANCUN] [])
  /\
  run (SelfDestructHandler_doExecute example_host example_selfdestruct)
      (example_context [example_frame [5] (example_msg 1 0 100) EVMC_CANCUN] [])
  = Done (mkCtx [example_frame [5] (example_msg 1 0 100) EVMC_CANCUN]
                [] EVMC_STATIC_MODE_VIOLATION false [] tt []).
Proof.
  split.
  - apply (proj2 (SelfDestructHandler_ends_frame example_host example_selfdestruct
                    (example_context
                       [example_frame [5] (example_msg 0 1 100) EVMC_CANCUN;
                        example_frame [9] (example_msg 0 0 50) EVMC_CANCUN] [])
                    (example_frame [5] (example_msg 0 1 100) EVMC_CANCUN)
                    [example_frame [9] (example_msg 0 0 50) EVMC_CANCUN] eq_refl)
                 5 []); concrete.
  - apply (proj1 (SelfDestructHandler_ends_frame example_host example_selfdestruct
                    (example_context
                       [example_frame [5] (example_msg 1 0 100) EVMC_CANCUN] [])
                    (example_frame [5] (example_msg 1 0 100) EVMC_CANCUN)
                    [] eq_refl)); concrete.
Defined.
